(* ===== verification/_CoqProject ===== *)
-Q . S2P
Prelude.v
Validators.v
Store.v
Settings.v
Captcha.v
Session.v
Cache.v
Tasks.v
Views.v
Profile.v
Auth.v
Verification.v
Signin.v
Account.v
Registration.v
Hoare.v
System.v
