(* ===== verification/Prelude.v ===== *)
(** * Verification of the customer authentication service

    This development models the Django service of the repository
    (package [authentication], app [authentication.apps.customer]) and
    proves what its request handlers and background jobs do, alone, in
    sequence, and interleaved as one server process runs them.

    ** The program and its parts
    - [validators.py] [validate_national_code]: the mod-11 checksum of a
      ten-digit national code, used by the signup and update serializers.
    - [models.py], [fields.py], [managers.py]: the relational store.  A
      [Contact] holds a unique nullable email and mobile, a [Customer] is
      bound one-to-one to a contact and holds the password hash, [is_active]
      and the [email_verify]/[mobile_verify] timestamps; [People] holds a
      unique national code; [EmailTemp]/[OTPTemp] are verification tickets;
      [EmailChange]/[PhoneChange] are the append-only change requests;
      [ContactCustomerManager.create_customer] hashes the password.
    - [tasks.py]: the Celery jobs [send_email_verification] and
      [send_mobile_verification_code]; they create the tickets.  The views
      only enqueue them ([.delay]); a worker runs them later, interleaved
      with other requests.
    - [views.py] [CustomerViewSet]: the request handlers [signup],
      [verify_email], [resend_email], [change_email], [verify_mobile],
      [resend_mobile_code], [change_mobile], [update], [signin], [signout],
      [change_password], [me] and the customer list, paginated by
      [paginations.py] [HeaderPagination]; [signin] keeps a failure counter per
      identifier and address in Django's cache.
    - [authentication.py] [EmailMobileAuthentication]: the credential
      check [authenticate] and [get_user].
    - [serializers.py]: input validation of every handler.
    - [urls.py]: the routes, including simplejwt's [token/refresh/] and
      the project views [Info] and [Config] of [authentication/views.py].
    - [apps/customer/utils.py] [validate_recaptcha]: the reCAPTCHA check
      [signin] makes when [AUTHENTICATION_CUSTOMER] enables it.
    - [settings/apps_settings.py]: [AUTHENTICATION_CUSTOMER] and
      [PUBLIC_APP_SETTING].
    Sign-in goes rate limiter -> credential check -> token service;
    sign-up creates the rows and enqueues a verification job, whose ticket
    [verify_email]/[verify_mobile] consume to activate the customer.

    ** Files of the development (in dependency order)
    - [Prelude] (this file): time and configuration ([AUTHENTICATION_CUSTOMER]
      of [apps_settings.py]), results and the state-and-exception monad [ST]
      of the handlers, the generic [latest] selection that models Django's
      [.latest("created_at")] / [order_by("-created_at")[0]], the
      distinct-value count [len({...})], the hint database [auth] and the
      shared tactics.
    - [Validators]: Modules [NationalCode] ([validate_national_code] over
      strings, its refinement to a digit-list specification, the
      single-digit-mutation analysis) and [Mobile] (the mobile pattern).
    - [Store]: the entities as records, the store as stdpp [gmap]s and
      append-only row lists, the unique constraints as failing saves, the
      well-formedness invariant [wf] (unique indexes, one customer per
      contact, unique national codes, identifiers below the generator,
      foreign keys), one preservation lemma per write, and its decision
      procedure [wf_dec].
    - [Settings]: the settings as the nested Python dict of the source
      ([PyValue], [dict_get], [dict_update], truth values).
    - [Captcha]: [validate_recaptcha], with Google's answer as a parameter.
    - [Session]: the token service as a typeclass [TokenService] with its
      laws [TokenServiceLaws]; Module [Jwt] is the simplejwt instance
      (issue a pair, parse, blacklist, access token from a refresh token).
    - [Cache]: Django's cache with expiry.
    - [Tasks]: the world (store, tokens, cache, job queue, outbox), the
      writes of the handlers on it, the two Celery jobs.
    - [Views]: the [Info] and [Config] views.
    - [Profile]: [me] with [CustomerDetailSerializer], and [GET customer/]
      with [CustomerSerializer] and [HeaderPagination] (DRF's
      [PageNumberPagination] and Django's [Paginator] written out).
    - [Auth]: the password hasher interface [PasswordHasher] with its laws,
      [authenticate] and [get_user].
    - [Verification]: the email and mobile verification handlers and the
      profile update.
    - [Signin]: [signin] as its two halves [signin_read] / [signin_write],
      sequences [signin_seq] and concurrent batches [signin_batch].
    - [Account]: [signout], [change_password], [token_refresh].
    - [Registration]: [signup] and its serializer.
    - [Hoare]: a program logic for [ST] over the world: triples whose
      invariant is [world_ok] (store [wf], token state well-formed, failure
      counters at most 4), one rule per read and write, and the tactic
      [tstep] that executes a handler symbolically.
    - [System]: every handler proved to keep [world_ok] by [tstep]; the
      routing [handle]; the server as a step relation [step] (a request,
      either half of a sign-in, a Celery job taking any queued job) and
      its reachable states; the
      reCAPTCHA verdict [captcha_verdict] a sign-in request gets from
      Google's answer.

    ** What the theorems show
    - System: every state reachable from a good one is good
      ([reachable_server_ok]), so failure counters stay at most 4 under
      any interleaving; a client that signs up
      is refused as disabled until it confirms the mailed link and signs
      in afterwards ([signup_verify_signin], a round trip through four
      handlers and a job); with reCAPTCHA enabled, a refusal or an
      unreachable Google refuses the sign-in and changes nothing
      ([signin_captcha_refused]).
    - Registration: a sign-up creates well-formed rows and its job
      ([signup_registers]); sign-up, job and confirmation compose
      ([signup_then_verify_email]); sign-up is not atomic and a race leaves
      an orphan [People] row ([signup_race_orphan_people]).
    - Signin: the lockout after four failures with a sliding ten-minute
      window, the counter update on each branch, concurrent failures
      counted once; the lockout ends when its cache entry expires and
      attempts during it do not extend it ([signin_lockout_expires]).
    - Account: signout revokes the refresh token; change_password stores
      the new password before it checks the token.
    - Auth: [authenticate] resolves identifiers and ignores [is_active];
      [get_user] does too.
    - Verification: each handler's success, error and early-return paths,
      the write order and its partial effects, the stale-ticket and
      constant-OTP weaknesses (a ticket survives an email change and then
      confirms the new address, [verify_email_stale_ticket]), resend and
      change limits.
    - Validators: the checksum against its specification, mutations,
      mobile spellings.
    - Profile and Registration: what a client registers is what [me]
      reads back ([signup_then_me]).
    - Tasks: the verification job appends exactly one ticket for the
      contact's current address, which is what the change limit counts
      ([send_email_verification_counts]).
    Each theorem with hypotheses has a witness applying it on a concrete
    store; [wf_by_computation] decides [wf] there.

    ** Modelling choices
    - Time is [Z] in microseconds ([get_local_time()]); one request reads
      one instant [now].  A [timedelta] setting is a [Z] duration.
    - UUIDs are natural numbers drawn from a counter [next_id] of the store:
      fresh, as [uuid4] is with overwhelming probability.  Password salts
      are drawn the same way.
    - Tables whose order matters (tickets, change requests) are lists of rows
      in insertion order; [latest] breaks ties in [created_at] in favour of
      the row inserted last (the source leaves the tie to the database).
    - A handler returns the HTTP status and message kind it answers with, or
      the exception it raises; writes made before an exception persist,
      because the settings do not enable [ATOMIC_REQUESTS].
    - Concurrency is interleaving at the granularity the code allows:
      a whole request, or the two halves of [signin] around its password
      check, or a job.  No fuel or bound is needed: every handler is
      straight-line code over finite tables, and the only loops (the
      [Config] loop, the sequences of requests in theorems) are structural
      recursion on lists.
    - The cache is one store shared by every request.  The settings set
      no [CACHES], so Django uses a [LocMemCache] private to each
      process: the model is a single server process whose threads
      interleave.  With several processes each keeps its own failure
      counters and the lockout counts per process.
    - External calls are parameters: Google's reCAPTCHA answer is a
      function from the posted form to a decoded JSON dict or a
      [RequestException]; the clock is the [now] of each request.
    - Tokens are abstract values; a string that does not decode, or a token
      the service never signed, is a token [parse_refresh] rejects.

    ** Not modelled
    Template rendering and SMTP ([utils.py] [send_email] is an outbox
    entry), Swagger and the schema views of [urls.py], Celery bootstrap
    ([celery.py]) and settings loading ([development_settings.py],
    [ui_settings.py] hold constants only), the rest of [base_settings.py]
    (framework wiring: apps, middleware, database, templates, i18n),
    [EntityMixin.save]'s [updated_at] (no theorem reads it),
    [NullableUnique*Field.to_python] (Django calls it in form cleaning,
    which no handler runs), [POST customer/] ([CreateModelMixin.create]
    with [CustomerSerializer], whose fields omit the NOT NULL [username];
    its outcome rests on DRF's model-field validation, which is not
    modelled), the contact's address fields (no handler reads or
    writes them), [Company] (no handler creates one), JWT signatures and
    encoding, simplejwt's [token/verify/] route ([urls.py] 54, which
    checks a token and changes nothing; [handle] does not route it), and
    MySQL's case-insensitive collation of the unique indexes
    (strings compare exactly). *)

From stdpp Require Export base list gmap strings options.
From Stdlib Require Export ZArith Lia.

Declare Scope auth_scope.
Delimit Scope auth_scope with auth.
Open Scope Z_scope.

(** ** Time and settings *)

(** [get_local_time()] as a number of microseconds. *)
Abbreviation Time := Z (only parsing).

Definition seconds (n : Z) : Z := n * 1000000.

(** [AUTHENTICATION_CUSTOMER] of [settings/apps_settings.py]. *)
Record Config := mkConfig {
  recaptcha_enabled : bool;
  email_verification_expire_time : Z;
  email_verification_change_limit : nat;
  email_verification_resend_time_limit : Z;
  otp_expire_time : Z;
}.

Definition default_config : Config := {|
  recaptcha_enabled := false;
  email_verification_expire_time := seconds 100;
  email_verification_change_limit := 3;
  email_verification_resend_time_limit := seconds 100;
  otp_expire_time := seconds 100;
|}.

(** ** Results of code that raises

    [Ok a] is a normal return, [Err e] a raised exception or an early
    error response. *)
Inductive result (A E : Type) : Type :=
  | Ok (a : A)
  | Err (e : E).
Arguments Ok {A E} a.
Arguments Err {A E} e.

Definition bind_result {A B E} (r : result A E) (k : A -> result B E) : result B E :=
  match r with Ok a => k a | Err e => Err e end.

Notation "'let?' x := r 'in' k" := (bind_result r (fun x => k))
  (at level 10, x name, r at level 100, k at level 200) : auth_scope.

Lemma bind_result_Ok {A B E} (r : result A E) (k : A -> result B E) b :
  bind_result r k = Ok b <-> exists a, r = Ok a /\ k a = Ok b.
Proof. destruct r; simpl; split; [eauto|by intros (?&[= ->]&?)|done|by intros (?&?&?)]. Qed.

(** ** Request code: state passing with exceptions

    [ST S E A] runs on the state [S] and returns a value or raises an
    [E].  Writes made before the exception are kept: the settings do not
    wrap a request in a transaction. *)
Definition ST (S E A : Type) : Type := S -> S * result A E.

#[export] Instance ST_ret {S E} : MRet (ST S E) := fun A a s => (s, Ok a).
#[export] Instance ST_bind {S E} : MBind (ST S E) := fun A B k m s =>
  match m s with
  | (s', Ok a) => k a s'
  | (s', Err e) => (s', Err e)
  end.

Definition raise {S E A} (e : E) : ST S E A := fun s => (s, Err e).
Definition gets {S E A} (f : S -> A) : ST S E A := fun s => (s, Ok (f s)).
Definition modify {S E} (f : S -> S) : ST S E unit := fun s => (f s, Ok tt).
(** Lift a query that may raise. *)
Definition lift {S E A} (r : result A E) : ST S E A := fun s => (s, r).

Lemma ST_bind_Ok {S E A B} (m : ST S E A) (k : A -> ST S E B) s s' a :
  m s = (s', Ok a) -> (mbind k m) s = k a s'.
Proof. intros Hm. unfold mbind, ST_bind. by rewrite Hm. Qed.

Lemma ST_bind_Err {S E A B} (m : ST S E A) (k : A -> ST S E B) s s' e :
  m s = (s', Err e) -> (mbind k m) s = (s', Err e).
Proof. intros Hm. unfold mbind, ST_bind. by rewrite Hm. Qed.

(** A sum over [range(n)] written as the code's generator expression. *)
Definition sum_range (n : nat) (g : nat -> Z) : Z :=
  foldr (fun x acc => g x + acc) 0 (seq 0 n).

Lemma sum_range_ext n (g h : nat -> Z) :
  (forall x, (x < n)%nat -> g x = h x) -> sum_range n g = sum_range n h.
Proof.
  unfold sum_range. intros Hgh.
  assert (Hl : forall l, (forall x, x ∈ l -> (x < n)%nat) ->
    foldr (fun x acc => g x + acc) 0 l = foldr (fun x acc => h x + acc) 0 l).
  { induction l as [|x l IH]; intros Hin; simpl; [done|].
    rewrite Hgh, IH by (intros; apply Hin; set_solver). done. }
  apply Hl. intros x Hx%list_elem_of_In%in_seq. lia.
Qed.

(** Two sums whose terms agree except at index [i < n] differ by the
    difference of the [i]-th terms. *)
Lemma sum_range_diff n (g h : nat -> Z) i :
  (i < n)%nat -> (forall j, (j < n)%nat -> j <> i -> g j = h j) ->
  sum_range n g - sum_range n h = g i - h i.
Proof.
  unfold sum_range. intros Hi Hagree.
  assert (Hl : forall l, NoDup l -> (forall j, j ∈ l -> (j < n)%nat) ->
    foldr (fun x acc => g x + acc) 0 l - foldr (fun x acc => h x + acc) 0 l =
    if decide (i ∈ l) then g i - h i else 0).
  { induction l as [|x l IH]; intros Hnd Hin; simpl; [done|].
    apply NoDup_cons in Hnd as [Hx Hnd].
    specialize (IH Hnd ltac:(intros; apply Hin; set_solver)).
    destruct (decide (x = i)) as [->|Hne].
    - rewrite decide_True by set_solver. rewrite decide_False in IH by done. lia.
    - rewrite (Hagree x) by (set_solver || (apply Hin; set_solver)).
      revert IH; repeat case_decide; intros; set_solver || lia. }
  rewrite Hl; [|apply NoDup_seq|intros j Hj%list_elem_of_In%in_seq; lia].
  rewrite decide_True; [done|]. apply list_elem_of_In, in_seq. lia.
Qed.

(** ** The row selected by [.latest("created_at")]

    [latest f l] is the element of [l] with the greatest key [f]; among
    equal keys the one that comes last in [l] (inserted last) wins. *)
Fixpoint latest {A} (f : A -> Z) (l : list A) : option A :=
  match l with
  | [] => None
  | x :: l' =>
      match latest f l' with
      | None => Some x
      | Some y => if f y <? f x then Some x else Some y
      end
  end.

(** [len({ f t for t in l })]: the number of distinct values. *)
Definition distinct_count {A B} `{EqDecision B} (f : A -> B) (l : list A) : nat :=
  length (remove_dups (map f l)).

Create HintDb auth discriminated.

(** ** Generic lemmas on [latest] *)
Section Latest.
Context {A : Type} (f : A -> Z).

Lemma latest_None (l : list A) : latest f l = None <-> l = [].
Proof.
  split; [|by intros ->].
  destruct l as [|x l]; [done|]. simpl.
  destruct (latest f l); [case_match|]; done.
Qed.

Lemma latest_elem (l : list A) y : latest f l = Some y -> y ∈ l.
Proof.
  revert y. induction l as [|x l IH]; intros y; simpl; [done|].
  destruct (latest f l) as [z|] eqn:E.
  - case_match; intros [= <-]; [left | right; by apply IH].
  - intros [= <-]. left.
Qed.

Lemma latest_max (l : list A) y z :
  latest f l = Some y -> z ∈ l -> f z <= f y.
Proof.
  revert y. induction l as [|x l IH]; intros y Hy Hz; [set_solver|].
  simpl in Hy. apply elem_of_cons in Hz.
  destruct (latest f l) as [w|] eqn:E.
  - pose proof (IH w eq_refl) as Hw.
    destruct (Z.ltb_spec (f w) (f x)); injection Hy as <-;
      destruct Hz as [->|Hz]; try lia; specialize (Hw Hz); lia.
  - apply latest_None in E as ->. injection Hy as <-.
    destruct Hz as [->|Hz]; [lia|set_solver].
Qed.

Lemma latest_cons_le (x : A) (l : list A) y :
  latest f l = Some y -> f x <= f y -> latest f (x :: l) = Some y.
Proof. intros H Hle. simpl. rewrite H. destruct (Z.ltb_spec (f y) (f x)); [lia|done]. Qed.

(** A row appended with a key at least as large as every other key is
    the latest one. *)
Lemma latest_snoc (l : list A) x :
  (forall z, z ∈ l -> f z <= f x) -> latest f (l ++ [x]) = Some x.
Proof.
  induction l as [|w l IH]; intros Hle; [done|]. simpl.
  rewrite IH by (intros z Hz; apply Hle; set_solver).
  pose proof (Hle w ltac:(set_solver)).
  destruct (Z.ltb_spec (f x) (f w)); [lia|done].
Qed.

Lemma latest_filter_max (P : A -> Prop) `{!forall x, Decision (P x)} (l : list A) y :
  latest f (filter P l) = Some y -> P y /\ y ∈ l.
Proof. intros Hl%latest_elem. by apply list_elem_of_filter in Hl. Qed.
End Latest.

(** ** Generic lemmas on [distinct_count] *)
Lemma remove_dups_snoc {B} `{EqDecision B} (bs : list B) b :
  length (remove_dups (bs ++ [b])) =
  (length (remove_dups bs) + if decide (b ∈ bs) then 0 else 1)%nat.
Proof.
  induction bs as [|c bs IH]; simpl.
  - repeat case_decide; set_solver.
  - revert IH. repeat case_decide; simpl; intros IH; rewrite ?IH; try lia; set_solver.
Qed.

Section Distinct.
Context {A B : Type} `{EqDecision B} (f : A -> B).

(** Adding a row whose value already occurs does not change the count;
    adding a new value increases it by one. *)
Lemma distinct_count_snoc (l : list A) x :
  distinct_count f (l ++ [x]) =
  (distinct_count f l + if decide (f x ∈ map f l) then 0 else 1)%nat.
Proof. unfold distinct_count. rewrite map_app. apply remove_dups_snoc. Qed.

Lemma distinct_count_le (l : list A) : (distinct_count f l <= length l)%nat.
Proof.
  unfold distinct_count. rewrite <- (length_map f l).
  induction (map f l) as [|b bs IH]; simpl; [lia|]. case_decide; simpl; lia.
Qed.
End Distinct.

(** Keeping the rows that fail a test, then those that pass it, keeps none. *)
Lemma filter_filter_neg {A} (P : A -> Prop) `{!forall x, Decision (P x)} (l : list A) :
  filter P (filter (fun x => ~ P x) l) = [].
Proof.
  induction l as [|x l IH]; [done|]. rewrite filter_cons. case_decide; [|done].
  rewrite filter_cons_False by done. exact IH.
Qed.

(** A filter that no element passes is empty. *)
Lemma filter_nil_Forall {A} (P : A -> Prop) `{!forall x, Decision (P x)} (l : list A) :
  Forall (fun x => ~ P x) l -> filter P l = [].
Proof. induction 1; [done|]. by rewrite filter_cons_False. Qed.

(** A duplicate-free list whose elements are all equal has at most one. *)
Lemma list_at_most_one {A} (l : list A) x :
  NoDup l -> x ∈ l -> (forall y z, y ∈ l -> z ∈ l -> y = z) -> l = [x].
Proof.
  intros Hnd Hx Heq. destruct l as [|y [|z l]].
  - by apply elem_of_nil in Hx.
  - f_equal. apply Heq; [set_solver|done].
  - exfalso. apply NoDup_cons in Hnd as [Hnd _]. apply Hnd.
    rewrite (Heq y z); set_solver.
Qed.

#[export] Hint Resolve latest_elem latest_max latest_snoc : auth.

(** ** Tactics shared by the components *)

(** Turn the boolean comparisons of the code into propositions. *)
Ltac zcase :=
  repeat match goal with
  | |- context [?a <? ?b] => destruct (Z.ltb_spec a b)
  | |- context [?a <=? ?b] => destruct (Z.leb_spec a b)
  | H : context [?a <? ?b] |- _ => destruct (Z.ltb_spec a b)
  | H : context [?a <=? ?b] |- _ => destruct (Z.leb_spec a b)
  end.
