(* ===== verification/Validators.v ===== *)
(** * Input validators ([apps/customer/validators.py], the mobile
    [RegexValidator] of [models.py] and [serializers.py], DRF's [CharField]
    trimming)

    [NationalCode]: [validate_national_code] as a function on strings: the regular
    expression [^\d{10}$] searched with Python's [re.search], then the
    mod-11 checksum of the first nine digits against the tenth.  The
    theorems characterise the accepted strings by an abstract predicate
    on digit lists, and analyse which single-digit mutations of a valid
    code are still accepted.

    [Mobile]: the regular expression that every mobile field uses, searched
    as Python's [re] does, and the whitespace trimming DRF applies before
    the validators.  The theorems show that it accepts eight spellings of
    one number and that nothing normalises them.

    Characters are ASCII; the Unicode digits that Python's [\d] also
    matches are not modelled. *)

From S2P Require Import Prelude.
From Stdlib Require Import Ascii Znumtheory.
From Stdlib Require String.

Module NationalCode.

(** ** Characters *)

(** [\d] restricted to ASCII: ['0'..'9']. *)
Definition is_digit (c : ascii) : bool :=
  (48 <=? nat_of_ascii c)%nat && (nat_of_ascii c <=? 57)%nat.

(** [int(c)] for a digit [c]. *)
Definition digit_value (c : ascii) : Z := Z.of_nat (nat_of_ascii c) - 48.

Definition newline : ascii := "010"%char.

(** [value[x]]: indexing is only reached after the regular expression
    matched, so the index is always in range. *)
Definition char_at (value : string) (x : nat) : ascii :=
  nth x (String.list_ascii_of_string value) "000"%char.

(** Python's [$] without MULTILINE matches at the end of the string or just
    before a newline that ends it. *)
Definition dollar (rest : list ascii) : bool :=
  match rest with
  | [] => true
  | [c] => if ascii_dec c newline then true else false
  | _ => false
  end.

(** [re.search(r"^\d{10}$", value)] is truthy. *)
Definition re_ten_digits (value : string) : bool :=
  let cs := String.list_ascii_of_string value in
  (10 <=? length cs)%nat && forallb is_digit (take 10 cs) && dollar (drop 10 cs).

(** ** The validator *)

Inductive NationalCodeError := EnterValidNationalCode.

(** [sum(int(value[x]) * (10 - x) for x in range(9))] *)
Definition weighted_sum (value : string) : Z :=
  sum_range 9 (fun x => digit_value (char_at value x) * (10 - Z.of_nat x)).

Definition validate_national_code (value : string) : result unit NationalCodeError :=
  if negb (re_ten_digits value) then Err EnterValidNationalCode
  else
    let check := digit_value (char_at value 9) in
    let s := weighted_sum value mod 11 in
    let res := if s <? 2 then check =? s else check + s =? 11 in
    if res then Ok tt else Err EnterValidNationalCode.

(** ** Abstract specification: a list of ten digits whose last one is the
    check digit of the weighted sum of the other nine. *)

Definition check_digit (s : Z) : Z := if s <? 2 then s else 11 - s.

Definition code_ok (cs : list ascii) : Prop :=
  length cs = 10%nat /\ Forall (fun c => is_digit c = true) cs /\
  digit_value (nth 9 cs "000"%char) =
    check_digit (sum_range 9 (fun x => digit_value (nth x cs "000"%char) * (10 - Z.of_nat x)) mod 11).

(** ** Lemmas *)

Lemma is_digit_bounds c : is_digit c = true -> 0 <= digit_value c <= 9.
Proof. unfold is_digit, digit_value. intros [?%Nat.leb_le ?%Nat.leb_le]%andb_true_iff. lia. Qed.

Lemma digit_value_inj c c' :
  is_digit c = true -> is_digit c' = true -> digit_value c = digit_value c' -> c = c'.
Proof.
  unfold is_digit, digit_value. intros [?%Nat.leb_le ?%Nat.leb_le]%andb_true_iff
    [?%Nat.leb_le ?%Nat.leb_le]%andb_true_iff Heq.
  rewrite <- (ascii_nat_embedding c), <- (ascii_nat_embedding c'). f_equal. lia.
Qed.

Lemma check_test_spec (check s : Z) :
  (if s <? 2 then check =? s else check + s =? 11) = true <-> check = check_digit s.
Proof. unfold check_digit. zcase; rewrite Z.eqb_eq; lia. Qed.

Lemma dollar_spec rest : dollar rest = true <-> rest = [] \/ rest = [newline].
Proof.
  split.
  - destruct rest as [|c [|]]; simpl; try destruct (ascii_dec c newline); subst; naive_solver.
  - intros [->| ->]; simpl; [done|]. by destruct (ascii_dec newline newline).
Qed.

Lemma re_ten_digits_spec value :
  re_ten_digits value = true <->
  exists cs, length cs = 10%nat /\ Forall (fun c => is_digit c = true) cs /\
    (String.list_ascii_of_string value = cs \/ String.list_ascii_of_string value = cs ++ [newline]).
Proof.
  unfold re_ten_digits. rewrite !andb_true_iff, Nat.leb_le, forallb_forall, dollar_spec.
  split.
  - intros [[Hlen Hd] Hrest]. exists (take 10 (String.list_ascii_of_string value)).
    rewrite length_take, Forall_forall. split; [lia|split].
    + intros c Hc. by apply Hd, list_elem_of_In.
    + rewrite <- (take_drop 10 (String.list_ascii_of_string value)) at 1 3.
      destruct Hrest as [-> | ->]; [left; apply app_nil_r|right; done].
  - intros (cs & Hlen & Hd & Hv). rewrite Forall_forall in Hd.
    destruct Hv as [-> | ->].
    + rewrite take_ge, drop_ge by lia. repeat split; [lia|intros c Hc; by apply Hd, list_elem_of_In|by left].
    + rewrite take_app_length', drop_app_length' by done. rewrite length_app.
      repeat split; [lia|intros c Hc; by apply Hd, list_elem_of_In|by right].
Qed.

(** The first ten characters are the only ones the checksum reads. *)
Lemma char_at_prefix value cs x :
  (String.list_ascii_of_string value = cs \/ String.list_ascii_of_string value = cs ++ [newline]) ->
  length cs = 10%nat -> (x < 10)%nat -> char_at value x = nth x cs "000"%char.
Proof. unfold char_at. intros [-> | ->] ? ?; [done|]. apply app_nth1. lia. Qed.

Lemma weighted_sum_prefix value cs :
  (String.list_ascii_of_string value = cs \/ String.list_ascii_of_string value = cs ++ [newline]) ->
  length cs = 10%nat ->
  weighted_sum value = sum_range 9 (fun x => digit_value (nth x cs "000"%char) * (10 - Z.of_nat x)).
Proof.
  intros Hv Hlen. apply sum_range_ext. intros x Hx.
  by rewrite (char_at_prefix value cs) by (done || lia).
Qed.

Lemma validate_ok_inv value :
  validate_national_code value = Ok tt ->
  re_ten_digits value = true /\
  digit_value (char_at value 9) = check_digit (weighted_sum value mod 11).
Proof.
  unfold validate_national_code. destruct (re_ten_digits value); [|done]. simpl.
  case_match eqn:Ht; [|done]. intros _. by apply check_test_spec in Ht.
Qed.

Lemma char_at_digit value x :
  re_ten_digits value = true -> (x < 10)%nat -> is_digit (char_at value x) = true.
Proof.
  intros (cs & Hlen & Hd & Hv)%re_ten_digits_spec Hx.
  rewrite (char_at_prefix value cs) by done.
  rewrite Forall_forall in Hd. apply Hd, list_elem_of_In, nth_In. lia.
Qed.

Lemma list_ascii_of_string_append s1 s2 :
  String.list_ascii_of_string (s1 ++ s2)%string =
  String.list_ascii_of_string s1 ++ String.list_ascii_of_string s2.
Proof. induction s1 as [|c s1 IH]; simpl; [done|]. by rewrite IH. Qed.

(** A change of a digit of weight [w] by [k] always changes the sum
    modulo the prime 11. *)
Lemma mod11_shift a k w :
  2 <= w <= 10 -> 1 <= Z.abs k <= 9 -> (a + k * w) mod 11 <> a mod 11.
Proof.
  intros Hw Hk E.
  assert (Hd : (11 | w * k)).
  { apply Z.mod_divide; [lia|].
    replace (w * k) with ((a + k * w) - a) by ring.
    rewrite Zminus_mod, E, Z.sub_diag. reflexivity. }
  apply Z.gauss in Hd.
  - destruct Hd as [q ->]. lia.
  - assert (w = 2 \/ w = 3 \/ w = 4 \/ w = 5 \/ w = 6 \/ w = 7 \/ w = 8 \/ w = 9 \/ w = 10)
      as Hcases by lia.
    repeat destruct Hcases as [-> | Hcases]; subst; reflexivity.
Qed.

(** The check digit determines the remainder, except that remainders 1
    and 10 share the check digit 1. *)
Lemma check_digit_collision s s' :
  0 <= s <= 10 -> 0 <= s' <= 10 -> s <> s' -> check_digit s = check_digit s' ->
  (s = 1 /\ s' = 10) \/ (s = 10 /\ s' = 1).
Proof. unfold check_digit. intros. zcase; lia. Qed.

(** Two strings that differ in exactly the character at index [i]. *)
Definition differ_at (v v' : string) (i : nat) : Prop :=
  length (String.list_ascii_of_string v) = length (String.list_ascii_of_string v') /\
  (i < length (String.list_ascii_of_string v))%nat /\
  char_at v i <> char_at v' i /\
  forall j, j <> i -> char_at v j = char_at v' j.

(** ** Theorems *)

(** C28. The validator accepts exactly the strings made of ten ASCII digits
    (optionally followed by one newline, which Python's [$] allows) whose
    tenth digit is the check digit of the weighted sum of the first nine
    modulo 11. *)
Theorem validate_national_code_spec value :
  validate_national_code value = Ok tt <->
  exists cs, code_ok cs /\
    (String.list_ascii_of_string value = cs \/
     String.list_ascii_of_string value = cs ++ [newline]).
Proof.
  split.
  - intros Hok. pose proof (validate_ok_inv value Hok) as [Hre Hc].
    apply re_ten_digits_spec in Hre as (cs & Hlen & Hd & Hv).
    exists cs. repeat split; [done|done| |done].
    rewrite <- (char_at_prefix value cs 9), <- (weighted_sum_prefix value cs) by (done || lia).
    done.
  - intros (cs & (Hlen & Hd & Hc) & Hv).
    assert (Hre : re_ten_digits value = true) by (apply re_ten_digits_spec; eauto).
    unfold validate_national_code. rewrite Hre. simpl.
    rewrite (char_at_prefix value cs 9), (weighted_sum_prefix value cs) by (done || lia).
    apply check_test_spec in Hc. by rewrite Hc.
Qed.

(** C29. A single-character change of an accepted ten-digit code is rejected,
    with one exception: a change among the first nine digits that moves the
    weighted sum modulo 11 between 1 and 10, which have the same check digit
    1.  In particular a change of the check digit itself is always
    rejected. *)
Theorem national_code_single_mutation v v' i :
  validate_national_code v = Ok tt ->
  validate_national_code v' = Ok tt ->
  length (String.list_ascii_of_string v) = 10%nat ->
  differ_at v v' i ->
  (i < 9)%nat /\
  ((weighted_sum v mod 11 = 1 /\ weighted_sum v' mod 11 = 10) \/
   (weighted_sum v mod 11 = 10 /\ weighted_sum v' mod 11 = 1)).
Proof.
  intros [Hre Hc]%validate_ok_inv [Hre' Hc']%validate_ok_inv Hlen (Hlen' & Hi & Hne & Hagree).
  assert (Hdig : forall x, (x < 10)%nat -> is_digit (char_at v x) = true /\ is_digit (char_at v' x) = true)
    by (intros; split; by apply char_at_digit).
  destruct (decide (i = 9%nat)) as [->|Hi9].
  - exfalso. apply Hne, digit_value_inj; [apply Hdig; lia..|].
    rewrite Hc, Hc'. do 2 f_equal. apply sum_range_ext. intros x Hx. rewrite Hagree by lia. done.
  - split; [lia|].
    pose proof (sum_range_diff 9 (fun x => digit_value (char_at v' x) * (10 - Z.of_nat x))
      (fun x => digit_value (char_at v x) * (10 - Z.of_nat x)) i ltac:(lia)) as Hdiff.
    fold (weighted_sum v') (weighted_sum v) in Hdiff.
    specialize (Hdiff ltac:(intros j _ Hj; cbv beta; by rewrite (Hagree j Hj))). cbv beta in Hdiff.
    destruct (Hdig i ltac:(lia)) as [Hd Hd'].
    pose proof (is_digit_bounds _ Hd). pose proof (is_digit_bounds _ Hd').
    assert (Hk : digit_value (char_at v' i) <> digit_value (char_at v i))
      by (intros Heq; apply Hne; symmetry; by apply digit_value_inj).
    assert (Hmod : weighted_sum v' mod 11 <> weighted_sum v mod 11).
    { replace (weighted_sum v') with (weighted_sum v +
        (digit_value (char_at v' i) - digit_value (char_at v i)) * (10 - Z.of_nat i)) by lia.
      apply mod11_shift; lia. }
    apply check_digit_collision;
      [pose proof (Z.mod_pos_bound (weighted_sum v) 11); lia
      |pose proof (Z.mod_pos_bound (weighted_sum v') 11); lia|congruence|].
    rewrite <- Hc, <- Hc', Hagree by lia. done.
Qed.

Lemma national_code_single_mutation_witness :
  validate_national_code "0000000061" = Ok tt /\
  validate_national_code "0100000061" = Ok tt /\
  (1 < 9)%nat /\
  ((weighted_sum "0000000061" mod 11 = 1 /\ weighted_sum "0100000061" mod 11 = 10) \/
   (weighted_sum "0000000061" mod 11 = 10 /\ weighted_sum "0100000061" mod 11 = 1)).
Proof.
  split; [reflexivity|]. split; [reflexivity|].
  apply (national_code_single_mutation "0000000061" "0100000061" 1);
    [reflexivity|reflexivity|reflexivity|].
  split; [reflexivity|]. split; [simpl; lia|]. split; [vm_compute; congruence|].
  intros j Hj. do 11 (destruct j as [|j]; [reflexivity || lia|]). reflexivity.
Defined.

(** Appending a newline to an accepted ten-digit code gives a string the
    validator also accepts: [$] matches before a final newline. *)
Theorem national_code_trailing_newline v :
  validate_national_code v = Ok tt ->
  length (String.list_ascii_of_string v) = 10%nat ->
  validate_national_code (v ++ String.String newline String.EmptyString)%string = Ok tt.
Proof.
  intros (cs & Hok & Hv)%validate_national_code_spec Hlen.
  apply validate_national_code_spec. exists cs. split; [done|right].
  rewrite list_ascii_of_string_append. simpl.
  destruct Hv as [Hv | Hv]; rewrite Hv in *; [done|]. destruct Hok as [Hl _].
  rewrite length_app in Hlen. simpl in Hlen. lia.
Qed.

Lemma national_code_trailing_newline_witness :
  validate_national_code "0000000000" = Ok tt /\
  validate_national_code ("0000000000" ++ String.String newline String.EmptyString)%string = Ok tt.
Proof.
  split; [reflexivity|]. apply national_code_trailing_newline; reflexivity.
Defined.

End NationalCode.

Module Mobile.
Import NationalCode.

(** The alternatives of [(?:0|98|\+98|\+980|0098|098|00980)?], the empty
    one standing for the [?]. *)
Definition prefixes : list string :=
  [""; "0"; "98"; "+98"; "+980"; "0098"; "098"; "00980"]%string.

(** [(9\d{9})$] on what follows the prefix. *)
Definition subscriber_ok (rest : list ascii) : bool :=
  match rest with
  | c :: ds =>
      bool_decide (c = "9"%char) && (9 <=? length ds)%nat &&
      forallb is_digit (take 9 ds) && dollar (drop 9 ds)
  | [] => false
  end.

(** [RegexValidator(r"^(?:0|98|\+98|\+980|0098|098|00980)?(9\d{9})$")]:
    [re.search] succeeds when some alternative of the optional group
    leads to a match. *)
Definition mobile_regex (value : string) : bool :=
  let cs := String.list_ascii_of_string value in
  existsb (fun p =>
    let ps := String.list_ascii_of_string p in
    bool_decide (take (length ps) cs = ps) && subscriber_ok (drop (length ps) cs))
    prefixes.

(** Whitespace that [str.strip()] removes, restricted to ASCII. *)
Definition is_space (c : ascii) : bool :=
  bool_decide (c ∈ [" "; "009"; "010"; "011"; "012"; "013"]%char).

Fixpoint drop_spaces (cs : list ascii) : list ascii :=
  match cs with
  | c :: cs' => if is_space c then drop_spaces cs' else cs
  | [] => []
  end.

(** [value.strip()] *)
Definition strip (value : string) : string :=
  String.string_of_list_ascii (rev (drop_spaces (rev (drop_spaces (String.list_ascii_of_string value))))).

(** The mobile [CharField(max_length=15, validators=[RegexValidator])] of
    the serializers: trim, reject blank, check the length and the
    pattern.  [None] is a valid value, [Some f] names the failing check. *)
Inductive MobileError := MobileBlank | MobileMaxLength | MobileInvalid.

Definition mobile_field (value : string) : result string MobileError :=
  let v := strip value in
  if String.eqb v "" then Err MobileBlank
  else if (15 <? String.length v)%nat then Err MobileMaxLength
  else if mobile_regex v then Ok v
  else Err MobileInvalid.

(** ** Lemmas *)

Lemma digit_not_space c : is_digit c = true -> is_space c = false.
Proof.
  intros Hd. apply bool_decide_eq_false. intros Hin.
  repeat (apply elem_of_cons in Hin as [->|Hin]; [discriminate Hd|]).
  by apply elem_of_nil in Hin.
Qed.

Lemma drop_spaces_id cs : Forall (fun c => is_space c = false) cs -> drop_spaces cs = cs.
Proof. intros [|c cs' Hc _]; simpl; [done|]. by rewrite Hc. Qed.

Lemma strip_id value :
  Forall (fun c => is_space c = false) (String.list_ascii_of_string value) -> strip value = value.
Proof.
  intros Hs. unfold strip. rewrite (drop_spaces_id _ Hs), drop_spaces_id, rev_involutive.
  - apply String.string_of_list_ascii_of_string.
  - by apply Forall_rev.
Qed.

Lemma string_length_chars value :
  String.length value = length (String.list_ascii_of_string value).
Proof. induction value as [|c v IH]; simpl; [done|]. by rewrite IH. Qed.

(** The spelling [p ++ "9" ++ ds] of the subscriber number [9 ds]. *)
Definition spelling (p : string) (ds : list ascii) : string :=
  (p ++ String.string_of_list_ascii ("9"%char :: ds))%string.

Lemma spelling_chars p ds :
  String.list_ascii_of_string (spelling p ds) = String.list_ascii_of_string p ++ "9"%char :: ds.
Proof.
  unfold spelling. rewrite list_ascii_of_string_append.
  by rewrite String.list_ascii_of_string_of_list_ascii.
Qed.

Lemma subscriber_ok_digits ds :
  length ds = 9%nat -> Forall (fun c => is_digit c = true) ds -> subscriber_ok ("9"%char :: ds) = true.
Proof.
  intros Hlen Hd. simpl. rewrite Hlen, take_ge, drop_ge by lia. simpl. rewrite andb_true_r.
  apply forallb_forall. intros c Hc%list_elem_of_In. rewrite Forall_forall in Hd. by apply Hd.
Qed.

(** ** Theorems *)

(** C30. Every spelling of a mobile number that the pattern allows (any of
    the eight prefixes, then 9 and nine digits) passes the serializers'
    mobile field and is kept verbatim: the field does not normalise the
    number to one canonical form. *)
Theorem mobile_field_accepts_spelling p ds :
  p ∈ prefixes -> length ds = 9%nat -> Forall (fun c => is_digit c = true) ds ->
  mobile_field (spelling p ds) = Ok (spelling p ds).
Proof.
  intros Hp Hlen Hd. unfold mobile_field.
  assert (Hcs := spelling_chars p ds).
  assert (Hsp : Forall (fun c => is_space c = false) (String.list_ascii_of_string (spelling p ds))).
  { rewrite Hcs. apply Forall_app. split; [|constructor; [done|]].
    - repeat (apply elem_of_cons in Hp as [->|Hp]; [by repeat constructor|]). by apply elem_of_nil in Hp.
    - eapply Forall_impl; [exact Hd|]. apply digit_not_space. }
  rewrite strip_id by done.
  destruct (String.eqb_spec (spelling p ds) "") as [He|_].
  { apply (f_equal String.list_ascii_of_string) in He. rewrite Hcs in He. by destruct (String.list_ascii_of_string p). }
  assert (Hreg : mobile_regex (spelling p ds) = true).
  { unfold mobile_regex. apply existsb_exists. exists p. split; [by apply list_elem_of_In|].
    rewrite Hcs, take_app_length, drop_app_length, bool_decide_eq_true_2 by done.
    by apply subscriber_ok_digits. }
  rewrite Hreg, string_length_chars, Hcs, length_app. simpl.
  replace (15 <? _)%nat with false; [done|]. symmetry. apply Nat.ltb_ge.
  repeat (apply elem_of_cons in Hp as [->|Hp]; [simpl; lia|]). by apply elem_of_nil in Hp.
Qed.

Lemma mobile_field_accepts_spelling_witness :
  mobile_field (spelling "0" (String.list_ascii_of_string "121234567")) =
    Ok (spelling "0" (String.list_ascii_of_string "121234567")) /\
  mobile_field (spelling "+98" (String.list_ascii_of_string "121234567")) =
    Ok (spelling "+98" (String.list_ascii_of_string "121234567")) /\
  spelling "0" (String.list_ascii_of_string "121234567") <>
    spelling "+98" (String.list_ascii_of_string "121234567").
Proof.
  split; [apply mobile_field_accepts_spelling; [set_solver|reflexivity|repeat constructor]|].
  split; [apply mobile_field_accepts_spelling; [set_solver|reflexivity|repeat constructor]|].
  discriminate.
Defined.

End Mobile.
