(* ===== verification/Store.v ===== *)
(** * The relational store ([models.py], [fields.py], [models.py] of the
    project, Django's ORM)

    Entities are records; [Contact], [Customer] and [People] rows are kept
    in stdpp maps from their UUID (a natural number here) to the row; the
    ticket and change-request tables, whose order matters for
    [.latest("created_at")], are lists of rows in insertion order.  A save
    of a contact checks the database's unique constraints on [email] and
    [mobile] and fails with [IntegrityError] as the database does.  The
    invariant [wf] states the constraints and reference integrity that the
    handlers rely on. *)

From S2P Require Import Prelude.

Module Store.

(** ** Rows *)

(** [Contact]: [email] and [mobile] are [NullableUnique*Field]s.  Their
    [get_prep_value] stores the empty string as NULL; they define no
    [from_db_value], so a NULL is read back as [None] ([to_python] only runs
    in form cleaning).  [None] is NULL. *)
Record Contact := mkContact {
  email : option string;
  mobile : option string;
  contact_owner : option nat;
}.

(** [Customer]: [username] is the one-to-one key of the contact. *)
Record Customer := mkCustomer {
  username : nat;
  password : string;
  is_active : bool;
  email_verify : option Time;
  mobile_verify : option Time;
  total_credit : Z;
  customer_owner : option nat;
}.

Record People := mkPeople {
  name : string;
  last_name : string;
  national_code : string;
}.

Record EmailTemp := mkEmailTemp {
  email_temp_id : nat;
  email_temp_customer : nat;
  email_temp_email : string;
  email_temp_created_at : Time;
}.

Record OTPTemp := mkOTPTemp {
  otp_temp_id : nat;
  otp_temp_customer : nat;
  code : Z;
  otp_temp_created_at : Time;
}.

Record EmailChange := mkEmailChange {
  email_change_id : nat;
  email_change_customer : nat;
  old_email : option string;
  new_email : option string;
  email_change_created_at : Time;
}.

Record PhoneChange := mkPhoneChange {
  phone_change_id : nat;
  phone_change_customer : nat;
  old_mobile : option string;
  new_mobile : option string;
  phone_change_created_at : Time;
}.

Record DB := mkDB {
  contacts : gmap nat Contact;
  customers : gmap nat Customer;
  people : gmap nat People;
  email_temp : list EmailTemp;
  otp_temp : list OTPTemp;
  email_change : list EmailChange;
  mobile_change : list PhoneChange;
  next_id : nat;
}.

(** Exceptions raised by the ORM and by Python indexing. [Http404] is
    raised by DRF's [get_object]; [MultipleObjectsReturned] by a [.get()]
    that matches several rows. *)
Inductive Exception :=
  | Http404
  | DoesNotExist (model : string)
  | MultipleObjectsReturned (model : string)
  | IntegrityError (field : string)
  | IndexError
  | KeyError (key : string).

(** ** Field updates (assignments [obj.field = v] before [obj.save()]) *)

(** [get_prep_value]: [value or None]. *)
Definition prep (v : option string) : option string :=
  match v with Some "" => None | _ => v end.

Definition set_email (c : Contact) (v : option string) : Contact :=
  mkContact (prep v) (mobile c) (contact_owner c).
Definition set_mobile (c : Contact) (v : option string) : Contact :=
  mkContact (email c) (prep v) (contact_owner c).

Definition set_email_verify (cu : Customer) (t : option Time) : Customer :=
  mkCustomer (username cu) (password cu) (is_active cu) t (mobile_verify cu)
    (total_credit cu) (customer_owner cu).
Definition set_mobile_verify (cu : Customer) (t : option Time) : Customer :=
  mkCustomer (username cu) (password cu) (is_active cu) (email_verify cu) t
    (total_credit cu) (customer_owner cu).
Definition set_is_active (cu : Customer) (b : bool) : Customer :=
  mkCustomer (username cu) (password cu) b (email_verify cu) (mobile_verify cu)
    (total_credit cu) (customer_owner cu).
Definition set_password (cu : Customer) (h : string) : Customer :=
  mkCustomer (username cu) h (is_active cu) (email_verify cu) (mobile_verify cu)
    (total_credit cu) (customer_owner cu).

Definition set_new_email (r : EmailChange) (v : option string) : EmailChange :=
  mkEmailChange (email_change_id r) (email_change_customer r) (old_email r) (prep v)
    (email_change_created_at r).
Definition set_new_mobile (r : PhoneChange) (v : option string) : PhoneChange :=
  mkPhoneChange (phone_change_id r) (phone_change_customer r) (old_mobile r) (prep v)
    (phone_change_created_at r).

(** ** Table updates *)

Definition with_contacts (db : DB) (m : gmap nat Contact) : DB :=
  mkDB m (customers db) (people db) (email_temp db) (otp_temp db)
    (email_change db) (mobile_change db) (next_id db).
Definition with_customers (db : DB) (m : gmap nat Customer) : DB :=
  mkDB (contacts db) m (people db) (email_temp db) (otp_temp db)
    (email_change db) (mobile_change db) (next_id db).
Definition with_people (db : DB) (m : gmap nat People) : DB :=
  mkDB (contacts db) (customers db) m (email_temp db) (otp_temp db)
    (email_change db) (mobile_change db) (next_id db).
Definition with_email_temp (db : DB) (l : list EmailTemp) : DB :=
  mkDB (contacts db) (customers db) (people db) l (otp_temp db)
    (email_change db) (mobile_change db) (next_id db).
Definition with_otp_temp (db : DB) (l : list OTPTemp) : DB :=
  mkDB (contacts db) (customers db) (people db) (email_temp db) l
    (email_change db) (mobile_change db) (next_id db).
Definition with_email_change (db : DB) (l : list EmailChange) : DB :=
  mkDB (contacts db) (customers db) (people db) (email_temp db) (otp_temp db)
    l (mobile_change db) (next_id db).
Definition with_mobile_change (db : DB) (l : list PhoneChange) : DB :=
  mkDB (contacts db) (customers db) (people db) (email_temp db) (otp_temp db)
    (email_change db) l (next_id db).

(** [uuid.uuid4()]: a fresh identifier. *)
Definition fresh_id (db : DB) : nat * DB :=
  (next_id db, mkDB (contacts db) (customers db) (people db) (email_temp db)
     (otp_temp db) (email_change db) (mobile_change db) (S (next_id db))).

(** ** Unique constraints of [Contact] *)

(** Two stored values violate a unique constraint when they are equal and
    not NULL. *)
Definition clashes (v w : option string) : bool :=
  match v, w with Some a, Some b => String.eqb a b | _, _ => false end.

Definition clash_with (field : Contact -> option string) (db : DB) (id : nat) (c : Contact) : bool :=
  existsb (fun '(j, cj) => negb (Nat.eqb j id) && clashes (field c) (field cj))
    (map_to_list (contacts db)).

(** [contact.save()]: an UPDATE or INSERT checked by the unique indexes. *)
Definition save_contact (db : DB) (id : nat) (c : Contact) : result DB Exception :=
  if clash_with email db id c then Err (IntegrityError "email")
  else if clash_with mobile db id c then Err (IntegrityError "mobile")
  else Ok (with_contacts db (<[id := c]> (contacts db))).

(** [customer.save()]: no unique field of [Customer] is ever changed. *)
Definition save_customer (db : DB) (id : nat) (cu : Customer) : DB :=
  with_customers db (<[id := cu]> (customers db)).

(** Another [People] row has the same [national_code]. *)
Definition people_clash (db : DB) (id : nat) (p : People) : bool :=
  existsb (fun '(j, pj) => negb (Nat.eqb j id) && String.eqb (national_code p) (national_code pj))
    (map_to_list (people db)).

(** [people.save()]: [national_code] is unique. *)
Definition save_people (db : DB) (id : nat) (p : People) : result DB Exception :=
  if people_clash db id p
  then Err (IntegrityError "national_code")
  else Ok (with_people db (<[id := p]> (people db))).

(** ** Queries *)

(** [self.get_object()] with [lookup_field = "id"]. *)
Definition get_customer (db : DB) (id : nat) : result Customer Exception :=
  match customers db !! id with
  | Some cu => Ok cu
  | None => Err Http404
  end.

(** [customer.owner]: the generic foreign key to the [People] row. *)
Definition get_owner (db : DB) (owner : option nat) : result People Exception :=
  match owner with
  | Some k => match people db !! k with
              | Some p => Ok p
              | None => Err (DoesNotExist "People")
              end
  | None => Err (DoesNotExist "People")
  end.

(** [customer.username]: the related contact. *)
Definition get_contact (db : DB) (id : nat) : result Contact Exception :=
  match contacts db !! id with
  | Some c => Ok c
  | None => Err (DoesNotExist "Contact")
  end.

Definition email_temps_of (db : DB) (cid : nat) : list EmailTemp :=
  filter (fun t => email_temp_customer t = cid) (email_temp db).
Definition otp_temps_of (db : DB) (cid : nat) : list OTPTemp :=
  filter (fun t => otp_temp_customer t = cid) (otp_temp db).
Definition email_changes_of (db : DB) (cid : nat) : list EmailChange :=
  filter (fun r => email_change_customer r = cid) (email_change db).
Definition phone_changes_of (db : DB) (cid : nat) : list PhoneChange :=
  filter (fun r => phone_change_customer r = cid) (mobile_change db).

(** [EmailChange.objects.filter(customer=c).latest("created_at")]. *)
Definition latest_email_change (db : DB) (cid : nat) : result EmailChange Exception :=
  match latest email_change_created_at (email_changes_of db cid) with
  | Some r => Ok r
  | None => Err (DoesNotExist "EmailChange")
  end.
Definition latest_phone_change (db : DB) (cid : nat) : result PhoneChange Exception :=
  match latest phone_change_created_at (phone_changes_of db cid) with
  | Some r => Ok r
  | None => Err (DoesNotExist "PhoneChange")
  end.

(** [email_change.save()] on an existing row: UPDATE by primary key. *)
Definition save_email_change (db : DB) (r : EmailChange) : DB :=
  with_email_change db
    (map (fun r' => if Nat.eqb (email_change_id r') (email_change_id r) then r else r')
       (email_change db)).
Definition save_phone_change (db : DB) (r : PhoneChange) : DB :=
  with_mobile_change db
    (map (fun r' => if Nat.eqb (phone_change_id r') (phone_change_id r) then r else r')
       (mobile_change db)).

(** [customer.email_temp.all().delete()] *)
Definition delete_email_temps (db : DB) (cid : nat) : DB :=
  with_email_temp db (filter (fun t => email_temp_customer t <> cid) (email_temp db)).
(** [customer.otp_temp.all().delete()] *)
Definition delete_otp_temps (db : DB) (cid : nat) : DB :=
  with_otp_temp db (filter (fun t => otp_temp_customer t <> cid) (otp_temp db)).

(** [EmailTemp.objects.create(customer=..., email=...)] at time [now]. *)
Definition create_email_temp (db : DB) (cid : nat) (e : string) (now : Time) : DB * nat :=
  let '(id, db1) := fresh_id db in
  (with_email_temp db1 (email_temp db1 ++ [mkEmailTemp id cid e now]), id).
Definition create_otp_temp (db : DB) (cid : nat) (c : Z) (now : Time) : DB * nat :=
  let '(id, db1) := fresh_id db in
  (with_otp_temp db1 (otp_temp db1 ++ [mkOTPTemp id cid c now]), id).
Definition create_email_change (db : DB) (cid : nat) (old new : option string) (now : Time) : DB :=
  let '(id, db1) := fresh_id db in
  with_email_change db1 (email_change db1 ++ [mkEmailChange id cid (prep old) (prep new) now]).
Definition create_phone_change (db : DB) (cid : nat) (old new : option string) (now : Time) : DB :=
  let '(id, db1) := fresh_id db in
  with_mobile_change db1 (mobile_change db1 ++ [mkPhoneChange id cid (prep old) (prep new) now]).

(** ** Well-formedness *)

(** The unique indexes of [Contact]: two rows never hold the same non-NULL
    email or mobile. *)
Definition unique_contacts (db : DB) : Prop :=
  forall i j ci cj, contacts db !! i = Some ci -> contacts db !! j = Some cj -> i <> j ->
    clashes (email ci) (email cj) = false /\ clashes (mobile ci) (mobile cj) = false.

(** [Customer.username] is a [OneToOneField(Contact, on_delete=RESTRICT)]. *)
Definition customer_contacts (db : DB) : Prop :=
  (forall k cu, customers db !! k = Some cu -> is_Some (contacts db !! username cu)) /\
  (forall k k' cu cu', customers db !! k = Some cu -> customers db !! k' = Some cu' ->
     username cu = username cu' -> k = k').

(** [People.national_code] is unique. *)
Definition unique_people (db : DB) : Prop :=
  forall i j pi pj, people db !! i = Some pi -> people db !! j = Some pj -> i <> j ->
    national_code pi <> national_code pj.

(** Every identifier of a row was drawn from [next_id] before. *)
Definition ids_below (db : DB) : Prop :=
  (forall i, is_Some (contacts db !! i) -> i < next_id db)%nat /\
  (forall i, is_Some (customers db !! i) -> i < next_id db)%nat /\
  (forall i, is_Some (people db !! i) -> i < next_id db)%nat /\
  Forall (fun t => email_temp_id t < next_id db)%nat (email_temp db) /\
  Forall (fun t => otp_temp_id t < next_id db)%nat (otp_temp db) /\
  Forall (fun r => email_change_id r < next_id db)%nat (email_change db) /\
  Forall (fun r => phone_change_id r < next_id db)%nat (mobile_change db).

(** The [ForeignKey(Customer)] of the ticket and change-request tables. *)
Definition row_refs (db : DB) : Prop :=
  Forall (fun t => is_Some (customers db !! email_temp_customer t)) (email_temp db) /\
  Forall (fun t => is_Some (customers db !! otp_temp_customer t)) (otp_temp db) /\
  Forall (fun r => is_Some (customers db !! email_change_customer r)) (email_change db) /\
  Forall (fun r => is_Some (customers db !! phone_change_customer r)) (mobile_change db).

Record wf (db : DB) : Prop := {
  wf_unique_contacts : unique_contacts db;
  wf_customer_contacts : customer_contacts db;
  wf_unique_people : unique_people db;
  wf_ids : ids_below db;
  wf_refs : row_refs db;
}.

Lemma clashes_sym v w : clashes v w = clashes w v.
Proof. destruct v, w; simpl; try done. apply String.eqb_sym. Qed.

Lemma clash_with_false f db id c j cj :
  clash_with f db id c = false -> contacts db !! j = Some cj -> j <> id ->
  clashes (f c) (f cj) = false.
Proof.
  unfold clash_with. intros Hc Hj Hne.
  destruct (clashes (f c) (f cj)) eqn:E; [|done]. apply not_true_iff_false in Hc. exfalso. apply Hc.
  apply existsb_exists. exists (j, cj). split; [by apply list_elem_of_In, elem_of_map_to_list|].
  rewrite E, andb_true_r. apply negb_true_iff, Nat.eqb_neq. done.
Qed.

(** [get_prep_value] keeps a non-empty string. *)
Lemma prep_nonempty v : v <> ""%string -> prep (Some v) = Some v.
Proof. destruct v; [done|reflexivity]. Qed.

(** No other contact holds [v] in [f]: saving a contact with [v] clashes with none. *)
Lemma clash_with_taken (f : Contact -> option string) d k c v :
  f c = Some v -> existsb (fun '(_, c') => bool_decide (f c' = Some v)) (map_to_list (contacts d)) = false ->
  clash_with f d k c = false.
Proof.
  unfold clash_with. intros Hf Ht.
  apply not_true_iff_false. intros [[j cj] [Hin Hc]]%existsb_exists.
  apply andb_true_iff in Hc as [_ Hc]. rewrite Hf in Hc.
  destruct (f cj) as [x|] eqn:Ex; [|done]. apply String.eqb_eq in Hc as ->.
  apply not_true_iff_false in Ht. apply Ht, existsb_exists. exists (j, cj).
  split; [done|]. by apply bool_decide_eq_true.
Qed.

Lemma people_clash_false db id p j pj :
  people_clash db id p = false -> people db !! j = Some pj -> j <> id ->
  national_code p <> national_code pj.
Proof.
  unfold people_clash. intros Hc Hj Hne Heq. apply not_true_iff_false in Hc. apply Hc.
  apply existsb_exists. exists (j, pj). split; [by apply list_elem_of_In, elem_of_map_to_list|].
  rewrite Heq, String.eqb_refl, andb_true_r. apply negb_true_iff, Nat.eqb_neq. done.
Qed.

Lemma ids_below_mono db db' :
  contacts db' = contacts db -> customers db' = customers db -> people db' = people db ->
  (next_id db <= next_id db')%nat ->
  (forall t, t ∈ email_temp db' -> t ∈ email_temp db) ->
  (forall t, t ∈ otp_temp db' -> t ∈ otp_temp db) ->
  ids_below db ->
  Forall (fun r => email_change_id r < next_id db')%nat (email_change db') ->
  Forall (fun r => phone_change_id r < next_id db')%nat (mobile_change db') ->
  ids_below db'.
Proof.
  intros E1 E2 E3 Hn He Ho (H1 & H2 & H3 & H4 & H5 & _ & _) H6 H7.
  unfold ids_below. rewrite E1, E2, E3. split_and!; try done; 
    try (intros i Hi; first [apply H1 in Hi | apply H2 in Hi | apply H3 in Hi]; lia).
  - apply Forall_forall. intros t Ht%He. eapply Forall_forall in H4; [|done]. lia.
  - apply Forall_forall. intros t Ht%Ho. eapply Forall_forall in H5; [|done]. lia.
Qed.

Lemma forall_lt_mono {A} (f : A -> nat) l n m :
  (n <= m)%nat -> Forall (fun x => f x < n)%nat l -> Forall (fun x => f x < m)%nat l.
Proof. intros Hnm H. eapply Forall_impl; [exact H|]. simpl. lia. Qed.

(** A table update keeps the foreign keys when the customers it references
    are still there and each row it adds references one. *)
Lemma row_refs_intro db db' :
  (forall k, is_Some (customers db !! k) -> is_Some (customers db' !! k)) ->
  (forall t, t ∈ email_temp db' -> t ∈ email_temp db \/ is_Some (customers db' !! email_temp_customer t)) ->
  (forall t, t ∈ otp_temp db' -> t ∈ otp_temp db \/ is_Some (customers db' !! otp_temp_customer t)) ->
  (forall r, r ∈ email_change db' -> r ∈ email_change db \/ is_Some (customers db' !! email_change_customer r)) ->
  (forall r, r ∈ mobile_change db' -> r ∈ mobile_change db \/ is_Some (customers db' !! phone_change_customer r)) ->
  row_refs db -> row_refs db'.
Proof.
  intros Hk H1 H2 H3 H4 (R1 & R2 & R3 & R4).
  split_and!; apply Forall_forall; intros x Hx;
    [destruct (H1 x Hx) as [Hx'|]; [apply Hk; by eapply Forall_forall in R1|done]
    |destruct (H2 x Hx) as [Hx'|]; [apply Hk; by eapply Forall_forall in R2|done]
    |destruct (H3 x Hx) as [Hx'|]; [apply Hk; by eapply Forall_forall in R3|done]
    |destruct (H4 x Hx) as [Hx'|]; [apply Hk; by eapply Forall_forall in R4|done]].
Qed.

(** Discharges the side conditions of [row_refs_intro] for writes that keep,
    filter, rewrite in place or append rows. *)
Ltac refs_step :=
  eapply row_refs_intro; [ .. | eassumption ]; simpl;
  [ try (intros ? ?; eassumption) .. ];
  repeat match goal with
  | |- forall _, _ ∈ filter _ _ -> _ => intros ? ?%list_elem_of_filter; left; tauto
  | |- forall _, _ ∈ _ ++ [_] -> _ =>
      intros ? [? | ->%list_elem_of_singleton]%elem_of_app; [by left|right; simpl; done]
  | |- forall _, _ ∈ _ -> _ ∈ _ \/ _ => intros ? ?; by left
  end.

(** *** Every write of the store preserves [wf] *)

Lemma fresh_id_wf db : wf db -> wf (fresh_id db).2.
Proof.
  intros [Hu Hc Hp Hi Hr]. split; try done.
  eapply ids_below_mono; simpl; try done; try lia;
    eapply forall_lt_mono; [| apply Hi | | apply Hi]; lia.
Qed.

Lemma save_contact_wf db id c db' :
  wf db -> (id < next_id db)%nat -> save_contact db id c = Ok db' -> wf db'.
Proof.
  intros [Hu [Hc1 Hc2] Hp Hi Hr] Hlt. unfold save_contact.
  destruct (clash_with email db id c) eqn:Ee; [done|].
  destruct (clash_with mobile db id c) eqn:Em; [done|].
  intros [= <-]. unfold with_contacts. split; simpl; try done.
  - intros i j ci cj Hi' Hj' Hne. simpl in Hi', Hj'.
    destruct (decide (i = id)) as [->|Hi0]; destruct (decide (j = id)) as [->|Hj0]; try done.
    + rewrite lookup_insert_eq in Hi'. rewrite lookup_insert_ne in Hj' by done. simplify_eq.
      split; eapply clash_with_false; eauto.
    + rewrite lookup_insert_eq in Hj'. rewrite lookup_insert_ne in Hi' by done. simplify_eq.
      rewrite (clashes_sym (email ci)), (clashes_sym (mobile ci)).
      split; eapply clash_with_false; eauto.
    + rewrite lookup_insert_ne in Hi', Hj' by done. eauto.
  - split; [|done]. intros k cu Hk. simpl.
    destruct (decide (username cu = id)) as [->|]; [by rewrite lookup_insert_eq|].
    rewrite lookup_insert_ne by done. eauto.
  - destruct Hi as (H1 & Hrest). split; [|done]. simpl.
    intros i [x Hx]. simpl in Hx. destruct (decide (i = id)) as [->|]; [done|].
    rewrite lookup_insert_ne in Hx by done. eauto.
Qed.

Lemma save_customer_wf db id cu0 cu :
  wf db -> customers db !! id = Some cu0 -> username cu = username cu0 ->
  wf (save_customer db id cu).
Proof.
  intros [Hu [Hc1 Hc2] Hp Hi Hr] Hid Hun. split; try done.
  - split; unfold save_customer, with_customers; simpl.
    + intros k cu' Hk. simpl in Hk. destruct (decide (k = id)) as [->|].
      * rewrite lookup_insert_eq in Hk. simplify_eq. rewrite Hun. eauto.
      * rewrite lookup_insert_ne in Hk by done. eauto.
    + intros k k' c c' Hk Hk' Heq. simpl in Hk, Hk'.
      destruct (decide (k = id)) as [->|]; destruct (decide (k' = id)) as [->|]; try done.
      * rewrite lookup_insert_eq in Hk. rewrite lookup_insert_ne in Hk' by done.
        apply (Hc2 _ _ cu0 c'); congruence.
      * rewrite lookup_insert_eq in Hk'. rewrite lookup_insert_ne in Hk by done.
        apply (Hc2 _ _ c cu0); congruence.
      * rewrite lookup_insert_ne in Hk, Hk' by done. eauto.
  - destruct Hi as (H1 & H2 & Hrest). split; [done|split; [|done]]. unfold save_customer; simpl.
    intros i [x Hx]. simpl in Hx. destruct (decide (i = id)) as [->|]; [apply H2; eauto|].
    rewrite lookup_insert_ne in Hx by done. eauto.
  - unfold save_customer, with_customers. refs_step. intros k [x Hx].
    destruct (decide (k = id)) as [->|]; [by rewrite lookup_insert_eq|].
    rewrite lookup_insert_ne by done. eauto.
Qed.

(** [Customer.objects.create]: a new row at a fresh key, bound to a contact
    no other customer holds. *)
Lemma save_customer_new_wf db k cu :
  wf db -> (k < next_id db)%nat -> customers db !! k = None ->
  is_Some (contacts db !! username cu) ->
  (forall k' cu', customers db !! k' = Some cu' -> username cu' <> username cu) ->
  wf (save_customer db k cu).
Proof.
  intros [Hu [Hc1 Hc2] Hp Hi Hr] Hlt Hnone Hcon Hfree. split; try done.
  - split; unfold save_customer, with_customers; simpl.
    + intros k0 cu0 Hk. destruct (decide (k0 = k)) as [->|].
      * rewrite lookup_insert_eq in Hk. by simplify_eq.
      * rewrite lookup_insert_ne in Hk by done. eauto.
    + intros k0 k1 c0 c1 H0 H1 Heq.
      destruct (decide (k0 = k)) as [->|]; destruct (decide (k1 = k)) as [->|]; try done.
      * rewrite lookup_insert_eq in H0. rewrite lookup_insert_ne in H1 by done. simplify_eq.
        exfalso. by apply (Hfree _ _ H1).
      * rewrite lookup_insert_eq in H1. rewrite lookup_insert_ne in H0 by done. simplify_eq.
        exfalso. by apply (Hfree _ _ H0).
      * rewrite lookup_insert_ne in H0, H1 by done. eauto.
  - destruct Hi as (H1 & H2 & Hrest). split; [done|split; [|done]]. unfold save_customer; simpl.
    intros i [x Hx]. simpl in Hx. destruct (decide (i = k)) as [->|]; [done|].
    rewrite lookup_insert_ne in Hx by done. eauto.
  - unfold save_customer, with_customers. refs_step. intros k0 [x Hx].
    destruct (decide (k0 = k)) as [->|]; [by rewrite lookup_insert_eq|].
    rewrite lookup_insert_ne by done. eauto.
Qed.

Lemma save_people_wf db id p db' :
  wf db -> (id < next_id db)%nat -> save_people db id p = Ok db' -> wf db'.
Proof.
  intros [Hu Hc Hp Hi Hr] Hlt. unfold save_people.
  destruct (people_clash db id p) eqn:Ep; [done|]. intros [= <-]. unfold with_people.
  split; try done; simpl.
  - intros i j pi pj Hi' Hj' Hne. simpl in Hi', Hj'.
    destruct (decide (i = id)) as [->|Hi0]; destruct (decide (j = id)) as [->|Hj0]; try done.
    + rewrite lookup_insert_eq in Hi'. rewrite lookup_insert_ne in Hj' by done. simplify_eq.
      eapply people_clash_false; eauto.
    + rewrite lookup_insert_eq in Hj'. rewrite lookup_insert_ne in Hi' by done. simplify_eq.
      intros Heq. symmetry in Heq. revert Heq. eapply people_clash_false; eauto.
    + rewrite lookup_insert_ne in Hi', Hj' by done. eauto.
  - destruct Hi as (H1 & H2 & H3 & H4 & H5 & H6 & H7). split_and!; try assumption.
    intros i [x Hx]. simpl in Hx. destruct (decide (i = id)) as [->|]; [done|].
    rewrite lookup_insert_ne in Hx by done. eauto.
Qed.

Lemma save_email_change_wf db r : wf db -> is_Some (customers db !! email_change_customer r) -> wf (save_email_change db r).
Proof.
  intros [Hu Hc Hp Hi Hr] Hc'. pose proof Hi as (H1 & H2 & H3 & H4 & H5 & H6 & H7).
  split; try done.
  - eapply ids_below_mono; simpl; try done.
    apply Forall_fmap, Forall_forall. intros r' Hr'. simpl.
    eapply Forall_forall in H6; [|done]. case_match; [|done]. by apply Nat.eqb_eq in H as <-.
  - refs_step. intros r' [r0 [-> Hr0]]%list_elem_of_fmap. case_match; [by right|by left].
Qed.

Lemma save_phone_change_wf db r : wf db -> is_Some (customers db !! phone_change_customer r) -> wf (save_phone_change db r).
Proof.
  intros [Hu Hc Hp Hi Hr] Hc'. pose proof Hi as (H1 & H2 & H3 & H4 & H5 & H6 & H7).
  split; try done.
  - eapply ids_below_mono; simpl; try done.
    apply Forall_fmap, Forall_forall. intros r' Hr'. simpl.
    eapply Forall_forall in H7; [|done]. case_match; [|done]. by apply Nat.eqb_eq in H as <-.
  - refs_step. intros r' [r0 [-> Hr0]]%list_elem_of_fmap. case_match; [by right|by left].
Qed.

Lemma delete_email_temps_wf db cid : wf db -> wf (delete_email_temps db cid).
Proof.
  intros [Hu Hc Hp Hi Hr]. split; try done.
  - eapply ids_below_mono; simpl; try done; try apply Hi.
    intros t Ht%list_elem_of_filter; apply Ht.
  - refs_step.
Qed.

Lemma delete_otp_temps_wf db cid : wf db -> wf (delete_otp_temps db cid).
Proof.
  intros [Hu Hc Hp Hi Hr]. split; try done.
  - eapply ids_below_mono; simpl; try done; try apply Hi.
    intros t Ht%list_elem_of_filter; apply Ht.
  - refs_step.
Qed.

(** An appended row carries the identifier just drawn: the bounds of
    [ids_below] move to the next counter value. *)
Ltac ids_step :=
  match goal with
  | Hi : ids_below _ |- ids_below _ =>
      let H1 := fresh in let H2 := fresh in let H3 := fresh in
      destruct Hi as (H1 & H2 & H3 & ? & ? & ? & ?);
      split_and!; simpl;
      [ intros ? ?%H1; lia | intros ? ?%H2; lia | intros ? ?%H3; lia | .. ];
      repeat first
        [ eapply forall_lt_mono; [|eassumption]; lia
        | apply Forall_app; split; [eapply forall_lt_mono; [|eassumption]; lia|];
          repeat constructor; simpl; lia ]
  end.

Lemma create_email_temp_wf db cid e now :
  wf db -> is_Some (customers db !! cid) -> wf (create_email_temp db cid e now).1.
Proof. intros [Hu Hc Hp Hi Hr] Hk. split; try done; [ids_step|refs_step]. Qed.

Lemma create_otp_temp_wf db cid code now :
  wf db -> is_Some (customers db !! cid) -> wf (create_otp_temp db cid code now).1.
Proof. intros [Hu Hc Hp Hi Hr] Hk. split; try done; [ids_step|refs_step]. Qed.

Lemma create_email_change_wf db cid old new now :
  wf db -> is_Some (customers db !! cid) -> wf (create_email_change db cid old new now).
Proof. intros [Hu Hc Hp Hi Hr] Hk. split; try done; [ids_step|refs_step]. Qed.

Lemma create_phone_change_wf db cid old new now :
  wf db -> is_Some (customers db !! cid) -> wf (create_phone_change db cid old new now).
Proof. intros [Hu Hc Hp Hi Hr] Hk. split; try done; [ids_step|refs_step]. Qed.

#[export] Hint Resolve fresh_id_wf save_email_change_wf save_phone_change_wf
  delete_email_temps_wf delete_otp_temps_wf create_email_temp_wf create_otp_temp_wf
  create_email_change_wf create_phone_change_wf : auth.

(** *** [wf] is decidable *)

(** The same conditions with [map_Forall], whose instances decide them. *)
Definition wf_alt (db : DB) : Prop :=
  map_Forall (fun i ci => map_Forall (fun j cj => i = j \/
    (clashes (email ci) (email cj) = false /\ clashes (mobile ci) (mobile cj) = false))
    (contacts db)) (contacts db) /\
  map_Forall (fun _ cu => is_Some (contacts db !! username cu)) (customers db) /\
  map_Forall (fun k cu => map_Forall (fun k' cu' => username cu = username cu' -> k = k')
    (customers db)) (customers db) /\
  map_Forall (fun i pi => map_Forall (fun j pj => i = j \/ national_code pi <> national_code pj)
    (people db)) (people db) /\
  map_Forall (fun i _ => i < next_id db)%nat (contacts db) /\
  map_Forall (fun i _ => i < next_id db)%nat (customers db) /\
  map_Forall (fun i _ => i < next_id db)%nat (people db) /\
  Forall (fun t => email_temp_id t < next_id db)%nat (email_temp db) /\
  Forall (fun t => otp_temp_id t < next_id db)%nat (otp_temp db) /\
  Forall (fun r => email_change_id r < next_id db)%nat (email_change db) /\
  Forall (fun r => phone_change_id r < next_id db)%nat (mobile_change db) /\
  row_refs db.

Lemma map_Forall_is_Some {A} (m : gmap nat A) (P : nat -> Prop) :
  (forall i, is_Some (m !! i) -> P i) <-> map_Forall (fun i _ => P i) m.
Proof. split; [intros H i x Hx; apply H; eauto|intros H i [x Hx]; exact (H i x Hx)]. Qed.

Lemma wf_alt_iff db : wf db <-> wf_alt db.
Proof.
  unfold wf_alt, unique_contacts, customer_contacts, unique_people, ids_below.
  rewrite <- !map_Forall_is_Some. unfold map_Forall. split.
  - intros [Hu [Hc1 Hc2] Hp (H1&H2&H3&H4&H5&H6&H7) (R1&R2&R3&R4)]. split_and!; try done.
    + intros i ci Hi j cj Hj. destruct (decide (i = j)); [by left|right]. eauto.
    + intros k cu Hk k' cu' Hk'. eauto.
    + intros i pi Hi j pj Hj. destruct (decide (i = j)); [by left|right]. eauto.
  - intros (Hu&Hc1&Hc2&Hp&H1&H2&H3&H4&H5&H6&H7&R1&R2&R3&R4). constructor; try split_and!; try done.
    + intros i j ci cj Hi Hj Hne. by destruct (Hu i ci Hi j cj Hj).
    + intros k k' cu cu' Hk Hk'. eauto.
    + intros i j pi pj Hi Hj Hne. by destruct (Hp i pi Hi j pj Hj).
Qed.

#[export] Instance wf_dec db : Decision (wf db).
Proof. refine (cast_if (decide (wf_alt db))); by rewrite wf_alt_iff. Defined.

(** The latest change request depends on the change tables only. *)
Lemma latest_email_change_ext d d' id :
  email_change d = email_change d' -> latest_email_change d id = latest_email_change d' id.
Proof. intros E. unfold latest_email_change, email_changes_of. by rewrite E. Qed.

Lemma latest_phone_change_ext d d' id :
  mobile_change d = mobile_change d' -> latest_phone_change d id = latest_phone_change d' id.
Proof. intros E. unfold latest_phone_change, phone_changes_of. by rewrite E. Qed.


(** Check [wf] of a concrete store by evaluation. *)
Ltac wf_by_computation := apply (bool_decide_unpack (wf _)); vm_compute; exact I.

End Store.
