(* ===== verification/Settings.v ===== *)
(** * The settings as Python values ([settings/apps_settings.py])

    [AUTHENTICATION_CUSTOMER] is a nested Python dict; the views and
    [utils.validate_recaptcha] index it by key and the [Config] view copies
    the entries named in [PUBLIC_APP_SETTING].  [PyValue] holds the values
    such a dict contains, [dict_get] and [dict_update] are Python's
    [d.get(k)] and [d.update({k: v})] on an association list with distinct
    keys, and [truthy] is Python's truth test.  The handlers read the
    limits and durations of [AUTHENTICATION_CUSTOMER] as the record
    [Prelude.Config]; [Prelude.default_config] holds the deployed
    values. *)

From S2P Require Import Prelude Store.
Import Store.

Module Settings.

(** The values of the settings and of a decoded JSON answer; a
    [timedelta] and a [datetime] are microseconds. *)
Inductive PyValue :=
  | PNone
  | PBool (b : bool)
  | PInt (z : Z)
  | PStr (s : string)
  | PTimedelta (us : Z)
  | PDatetime (t : Time)
  | PDict (items : list (string * PyValue)).

Abbreviation Dict := (list (string * PyValue)) (only parsing).

(** [d.get(k)]: the value of the item with key [k], [None] if absent. *)
Fixpoint dict_get (d : Dict) (k : string) : option PyValue :=
  match d with
  | [] => None
  | (k', v) :: d' => if bool_decide (k' = k) then Some v else dict_get d' k
  end.

(** [d[k]], raising [KeyError] when [k] is absent. *)
Definition dict_index (d : Dict) (k : string) : result PyValue Exception :=
  match dict_get d k with Some v => Ok v | None => Err (KeyError k) end.

(** [d.update({k: v})]: an existing key keeps its place and takes the new
    value; a new key goes last. *)
Fixpoint dict_update (d : Dict) (k : string) (v : PyValue) : Dict :=
  match d with
  | [] => [(k, v)]
  | (k', v') :: d' => if bool_decide (k' = k) then (k, v) :: d' else (k', v') :: dict_update d' k v
  end.

(** Python's truth test ([if x:]). *)
Definition truthy (v : PyValue) : bool :=
  match v with
  | PNone => false
  | PBool b => b
  | PInt z | PTimedelta z => negb (z =? 0)
  | PStr s => negb (bool_decide (s = ""))
  | PDatetime _ => true
  | PDict d => negb (bool_decide (d = []))
  end.

(** [AUTHENTICATION_CUSTOMER] (apps_settings.py 4-16). *)
Definition AUTHENTICATION_CUSTOMER : Dict := [
  ("RECAPTCHA", PDict [
     ("ENABLED", PBool false);
     ("KEY", PDict [("SECRET", PStr "6LeyQGQdAAAAAC3UX7TM_o3EI4Sfwtd5zYhd3xRy")]);
     ("URL", PStr "https://www.google.com/recaptcha/api/siteverify")]);
  ("EMAIL_VERIFICATION_EXPIRE_TIME", PTimedelta (seconds 100));
  ("EMAIL_VERIFICATION_CHANGE_LIMIT", PInt 3);
  ("EMAIL_VERIFICATION_RESEND_TIME_LIMIT", PTimedelta (seconds 100));
  ("OTP_EXPIRE_TIME", PTimedelta (seconds 100))]%string.

(** [PUBLIC_APP_SETTING] (apps_settings.py 18). *)
Definition PUBLIC_APP_SETTING : list string := [].

(** [d[k1][k2]...]: indexing through nested dicts. *)
Fixpoint dict_path (d : Dict) (ks : list string) : result PyValue Exception :=
  match ks with
  | [] => Ok (PDict d)
  | [k] => dict_index d k
  | k :: ks' =>
      let? v := dict_index d k in
      match v with PDict d' => dict_path d' ks' | _ => Err (KeyError k) end
  end%auth.

End Settings.
