(* ===== verification/Captcha.v ===== *)
(** * reCAPTCHA verification ([apps/customer/utils.py] [validate_recaptcha])

    The function posts the secret of [AUTHENTICATION_CUSTOMER] and the
    client's token to Google's URL and accepts when the decoded answer has
    a true ["success"].  The HTTP call is the parameter [post]: Google's
    answer to a form at a URL, a decoded JSON dict or a
    [RequestException].  The settings are indexed with [d[k]], which raises
    [KeyError] outside the [try]; [validate_recaptcha_deployed] shows the
    deployed settings have both keys it indexes, so there it never
    raises and returns Google's verdict. *)

From S2P Require Import Prelude Store Settings.
Import Store Settings.

Module Captcha.

#[local] Open Scope auth_scope.

(** [requests.post(url, data).json()]: the decoded answer, or the
    [requests.exceptions.RequestException] the call raised. *)
Inductive PostResult :=
  | Posted (json : Dict)
  | RequestException.

(** [validate_recaptcha] (utils.py 5-18). *)
Definition validate_recaptcha (settings : Dict) (post : PyValue -> Dict -> PostResult) (response : string)
  : result bool Exception :=
  let? secret := dict_path settings ["RECAPTCHA"; "KEY"; "SECRET"]%string in
  let data := [("secret", secret); ("response", PStr response)]%string in
  let? url := dict_path settings ["RECAPTCHA"; "URL"]%string in
  match post url data with
  | Posted validation_response => Ok (truthy (default (PBool false) (dict_get validation_response "success")))
  | RequestException => Ok false
  end.

(** Google's answer refuses: no answer, or an answer without a true
    ["success"]. *)
Definition refuses (r : PostResult) : Prop :=
  match r with
  | Posted j => truthy (default (PBool false) (dict_get j "success")) = false
  | RequestException => True
  end.

(** With the deployed settings the function returns the verdict of
    Google's answer to the secret and the token, and never raises. *)
Lemma validate_recaptcha_deployed post response :
  validate_recaptcha AUTHENTICATION_CUSTOMER post response =
  Ok (match post (PStr "https://www.google.com/recaptcha/api/siteverify")
               [("secret", PStr "6LeyQGQdAAAAAC3UX7TM_o3EI4Sfwtd5zYhd3xRy"); ("response", PStr response)] with
      | Posted j => truthy (default (PBool false) (dict_get j "success"))
      | RequestException => false
      end)%string.
Proof. unfold validate_recaptcha. simpl. destruct (post _ _); reflexivity. Qed.

Lemma validate_recaptcha_refuses settings post response :
  (forall url data, refuses (post url data)) ->
  validate_recaptcha settings post response = Ok true -> False.
Proof.
  intros Hp. unfold validate_recaptcha, bind_result.
  destruct (dict_path settings ["RECAPTCHA"; "KEY"; "SECRET"]%string) as [secret|]; [|discriminate].
  destruct (dict_path settings ["RECAPTCHA"; "URL"]%string) as [url|]; [|discriminate].
  specialize (Hp url [("secret", secret); ("response", PStr response)]%string).
  destruct (post _ _); cbn in Hp; [intros [= H]; congruence|discriminate].
Qed.

End Captcha.
