(* ===== verification/Session.v ===== *)
(** * Session tokens ([views.py] [refresh_token], [signout],
    [change_password]; the [rest_framework_simplejwt] library with its
    [token_blacklist] app, configured by [SIMPLE_JWT] in [base_settings.py])

    [TokenService] is the interface the handlers use: issue a pair for a
    user, parse a client's refresh token, blacklist it, and decide whether a
    refresh token is still accepted.  [TokenServiceLaws] are the promises the
    handlers' theorems are proved from.  [Jwt] is the library's behaviour:
    signed self-contained tokens carrying type, expiry, [jti] and user id,
    with a denylist of [jti]s; it is an instance of both classes. *)

From S2P Require Import Prelude.

Module Session.

Inductive TokenType := AccessToken | RefreshToken.

#[export] Instance TokenType_eq_dec : EqDecision TokenType.
Proof. solve_decision. Defined.

(** A decoded token.  Its signature verifies exactly when the service's
    key signed it, which the model records in the state ([issued]): a
    client cannot forge a token. *)
Record Token := mkToken {
  token_type : TokenType;
  exp : Time;
  jti : nat;
  user_id : nat;
}.

#[export] Instance Token_eq_dec : EqDecision Token.
Proof. solve_decision. Defined.

Record TokenPair := mkTokenPair { refresh : Token; access : Token }.

Inductive TokenError := TokenInvalidOrExpired.

Class TokenService (S : Type) := {
  (** [RefreshToken.for_user(customer)] and its [.access_token] *)
  for_user : S -> nat -> Time -> S * TokenPair;
  (** [RefreshToken(token)]: decode and verify *)
  parse_refresh : S -> Token -> Time -> result Token TokenError;
  (** [token.blacklist()] *)
  blacklist : S -> Token -> S;
  (** [refresh.access_token]: a new access token for the refresh token's user *)
  access_of : S -> Token -> Time -> S * Token;
  (** the token is on the denylist *)
  is_revoked : S -> Token -> bool;
  (** well-formedness of the service's state *)
  ts_wf : S -> Prop;
}.

(** A refresh token is accepted when parsing it succeeds. *)
Definition accepts {S} `{TokenService S} (s : S) (t : Token) (now : Time) : bool :=
  match parse_refresh s t now with Ok _ => true | Err _ => false end.

Class TokenServiceLaws (S : Type) `{TokenService S} := {
  for_user_wf s u now : ts_wf s -> ts_wf (fst (for_user s u now));
  blacklist_wf s t now : ts_wf s -> accepts s t now = true -> ts_wf (blacklist s t);
  for_user_accepted s u now : ts_wf s ->
    accepts (fst (for_user s u now)) (refresh (snd (for_user s u now))) now = true;
  for_user_user s u now : user_id (refresh (snd (for_user s u now))) = u;
  revoked_blacklist s t : is_revoked (blacklist s t) t = true;
  revoked_blacklist_mono s t t' : is_revoked s t' = true -> is_revoked (blacklist s t) t' = true;
  revoked_for_user s u now t : is_revoked s t = true -> is_revoked (fst (for_user s u now)) t = true;
  access_of_wf s t now : ts_wf s -> ts_wf (fst (access_of s t now));
  revoked_access_of s t now t' : is_revoked s t' = true -> is_revoked (fst (access_of s t now)) t' = true;
  revoked_rejects s t now : is_revoked s t = true -> accepts s t now = false;
  parse_refresh_id s t t' now : parse_refresh s t now = Ok t' -> t' = t;
}.

(** ** The simplejwt implementation *)

Module Jwt.

(** [SIMPLE_JWT] of [base_settings.py] *)
Definition ACCESS_TOKEN_LIFETIME : Z := seconds (2 * 3600).
Definition REFRESH_TOKEN_LIFETIME : Z := seconds (24 * 3600).

(** [issued] is what the signing key has signed; [outstanding] and
    [blacklisted] are the tables of the [token_blacklist] app; [next_jti]
    generates [uuid4().hex]. *)
Record State := mkState {
  issued : list Token;
  outstanding : list nat;
  blacklisted : gset nat;
  next_jti : nat;
}.

Definition jwt_for_user (s : State) (u : nat) (now : Time) : State * TokenPair :=
  let r := mkToken RefreshToken (now + REFRESH_TOKEN_LIFETIME) (next_jti s) u in
  let a := mkToken AccessToken (now + ACCESS_TOKEN_LIFETIME) (S (next_jti s)) u in
  (mkState (a :: r :: issued s) (next_jti s :: outstanding s) (blacklisted s)
     (S (S (next_jti s))), mkTokenPair r a).

(** [Token.__init__] with [verify=True]: signature, [check_exp] (expired
    when [exp <= now]), token type, then [BlacklistMixin.verify]. *)
Definition jwt_parse_refresh (s : State) (t : Token) (now : Time) : result Token TokenError :=
  if decide (t ∉ issued s) then Err TokenInvalidOrExpired
  else if exp t <=? now then Err TokenInvalidOrExpired
  else if decide (token_type t <> RefreshToken) then Err TokenInvalidOrExpired
  else if decide (jti t ∈ blacklisted s) then Err TokenInvalidOrExpired
  else Ok t.

(** [BlacklistMixin.blacklist]: [get_or_create] of both rows. *)
Definition jwt_blacklist (s : State) (t : Token) : State :=
  mkState (issued s)
    (if decide (jti t ∈ outstanding s) then outstanding s else jti t :: outstanding s)
    ({[jti t]} ∪ blacklisted s) (next_jti s).

(** [refresh.access_token]: [AccessToken()] with a fresh [jti], the
    lifetime counted from now, the refresh token's [user_id] copied. *)
Definition jwt_access_of (s : State) (r : Token) (now : Time) : State * Token :=
  let a := mkToken AccessToken (now + ACCESS_TOKEN_LIFETIME) (next_jti s) (user_id r) in
  (mkState (a :: issued s) (outstanding s) (blacklisted s) (S (next_jti s)), a).

(** Every jti that was signed or blacklisted is below the generator. *)
Definition wf (s : State) : Prop :=
  (forall t, t ∈ issued s -> (jti t < next_jti s)%nat) /\
  (forall j, j ∈ blacklisted s -> (j < next_jti s)%nat).

#[export] Instance jwt_service : TokenService State := {|
  for_user := jwt_for_user;
  parse_refresh := jwt_parse_refresh;
  blacklist := jwt_blacklist;
  access_of := jwt_access_of;
  is_revoked s t := bool_decide (jti t ∈ blacklisted s);
  ts_wf := wf;
|}.

Lemma accepts_jwt s t now :
  accepts s t now = true <->
  t ∈ issued s /\ now < exp t /\ token_type t = RefreshToken /\ jti t ∉ blacklisted s.
Proof.
  unfold accepts; simpl. unfold jwt_parse_refresh.
  repeat case_decide; zcase; naive_solver lia.
Qed.

#[export] Instance jwt_laws : TokenServiceLaws State.
Proof.
  split; simpl.
  - intros s u now [Hi Hb]. split; simpl; [|intros j Hj%Hb; lia].
    intros t [->|[->|Ht%Hi]%elem_of_cons]%elem_of_cons; simpl; lia.
  - intros s t now [Hi Hb] (Ht & _)%accepts_jwt. split; [done|]. simpl.
    intros j [->%elem_of_singleton|Hj%Hb]%elem_of_union; [by apply Hi|done].
  - intros s u now [Hi Hb]. apply accepts_jwt. simpl. unfold REFRESH_TOKEN_LIFETIME, seconds.
    split_and!; [set_solver|lia|done|]. intros Hj%Hb. lia.
  - done.
  - intros s t. apply bool_decide_eq_true. set_solver.
  - intros s t t' Ht%bool_decide_eq_true. apply bool_decide_eq_true. set_solver.
  - done.
  - intros s t now [Hi Hb]. split; simpl; [|intros j Hj%Hb; lia].
    intros t' [->|Ht%Hi]%elem_of_cons; simpl; lia.
  - done.
  - intros s t now Ht%bool_decide_eq_true.
    destruct (accepts s t now) eqn:E; [|done]. apply accepts_jwt in E. naive_solver.
  - intros s t t' now. unfold jwt_parse_refresh. repeat case_match; congruence.
Qed.

End Jwt.

End Session.
