(* ===== verification/Cache.v ===== *)
(** * Django's cache ([django.core.cache.cache], used by [views.py]
    [signin] for the login-failure counters)

    A map from keys to a value and an expiry instant.  [get] returns the
    value while [now < expiry] (Django's [_has_expired] is
    [exp <= time.time()]), [set] replaces the value and restarts the
    timeout, [delete] removes the key.  The cache is volatile and shared by
    all requests; nothing makes [get] followed by [set] atomic. *)

From S2P Require Import Prelude.

Module Cache.

Record Cache := mkCache { entries : gmap string (Z * Time) }.

Definition empty : Cache := mkCache ∅.

(** [cache.get(key)] *)
Definition get (c : Cache) (key : string) (now : Time) : option Z :=
  match entries c !! key with
  | Some (v, e) => if now <? e then Some v else None
  | None => None
  end.

(** [cache.set(key, value, timeout)] *)
Definition set (c : Cache) (key : string) (v : Z) (timeout : Z) (now : Time) : Cache :=
  mkCache (<[key := (v, now + timeout)]> (entries c)).

(** [cache.delete(key)] *)
Definition delete (c : Cache) (key : string) : Cache :=
  mkCache (base.delete key (entries c)).

Lemma get_set c key v timeout now now' :
  now' < now + timeout -> get (set c key v timeout now) key now' = Some v.
Proof. intros H. unfold get, set. simpl. rewrite lookup_insert_eq. zcase; [done|lia]. Qed.

Lemma get_set_expired c key v timeout now now' :
  now + timeout <= now' -> get (set c key v timeout now) key now' = None.
Proof. intros H. unfold get, set. simpl. rewrite lookup_insert_eq. zcase; [lia|done]. Qed.

Lemma get_set_ne c key key' v timeout now now' :
  key <> key' -> get (set c key v timeout now) key' now' = get c key' now'.
Proof. intros H. unfold get, set. simpl. by rewrite lookup_insert_ne. Qed.

Lemma get_delete c key now : get (delete c key) key now = None.
Proof. unfold get, delete. simpl. by rewrite lookup_delete_eq. Qed.

Lemma get_delete_ne c key key' now :
  key <> key' -> get (delete c key) key' now = get c key' now.
Proof. intros H. unfold get, delete. simpl. by rewrite lookup_delete_ne. Qed.

End Cache.
