(* ===== verification/Tasks.v ===== *)
(** * The service state and the Celery jobs ([apps/customer/tasks.py],
    [utils.py] [send_email])

    [World] is everything a request or a job can read or change: the
    database, the token service, the cache, the queue of Celery jobs that
    [.delay] enqueued and the outbox of e-mails handed to SMTP.  The two
    jobs create the verification tickets; they run after the request that
    enqueued them, possibly interleaved with other requests.  [Response] is
    what a handler answers: a status code and the kind of its body; an
    exception the handler does not catch becomes a 404 ([Http404]) or a
    500 response ([respond]). *)

From S2P Require Import Prelude Store Settings Session Cache.
Import Store Settings Session.

Module Tasks.

Inductive Job :=
  | SendEmailVerification (contact_id : nat)
  | SendMobileVerificationCode (contact_id : nat).

#[export] Instance Job_eq_dec : EqDecision Job.
Proof. solve_decision. Defined.

(** An e-mail of the [customer/email_verification] template, whose
    [verification_url] names the customer and the ticket
    ([EMAIL_VERIFICATION_URL_TEMPLATE] of [ui_settings.py]). *)
Record Mail := mkMail {
  mail_recipient : string;
  mail_customer : nat;
  mail_temp : nat;
}.

Record World (S : Type) := mkWorld {
  db : DB;
  tokens : S;
  cache : Cache.Cache;
  queue : list Job;
  outbox : list Mail;
}.
Arguments mkWorld {S}.
Arguments db {S}.
Arguments tokens {S}.
Arguments cache {S}.
Arguments queue {S}.
Arguments outbox {S}.

(** ** Responses *)

Inductive Status :=
  | HTTP_200_OK | HTTP_201_CREATED | HTTP_205_RESET_CONTENT
  | HTTP_400_BAD_REQUEST | HTTP_401_UNAUTHORIZED | HTTP_404_NOT_FOUND
  | HTTP_500_INTERNAL_SERVER_ERROR.

(** The message of each [Response(...)] of [views.py]. *)
Inductive Body :=
  | ValidationFailed (fields : list string)
  | EmailAlreadyActivated
  | EmailVerificationRequestNotFound
  | Expired
  | TokenIssued (p : TokenPair)
  | AccessIssued (access : Token)
  | YouMustSignupFirst
  | YouMustWait (remaining : Z)
  | EmailResent
  | MaxEmailChangeRequestExceeded
  | EmailSent
  | MobileAlreadyVerified
  | CodeExpired
  | InvalidCode
  | CodeResent
  | CodeSent
  | CustomerDetail (id : nat)
  | WrongCaptcha
  | LockedOut (minutes : Z)
  | InvalidUsernamePassword (failures : Z)
  | CustomerAccountDisabled
  | SuccessfulLogOut
  | TokenInvalidOrExpiredMsg
  | IncorrectPassword
  | PasswordUpdated
  | NotFound
  | NotAuthenticated
  | JsonData (data : list (string * PyValue))
  | JsonPage (items : list PyValue) (x_result_count : option nat)
  | ServerError (e : Exception).

Record Response := mkResponse { status : Status; body : Body }.

(** Django and DRF turn an uncaught exception into a response. *)
Definition respond {S} (h : ST (World S) Exception Response) (w : World S) : World S * Response :=
  match h w with
  | (w', Ok r) => (w', r)
  | (w', Err Http404) => (w', mkResponse HTTP_404_NOT_FOUND NotFound)
  | (w', Err e) => (w', mkResponse HTTP_500_INTERNAL_SERVER_ERROR (ServerError e))
  end.

Section Jobs.
Context {S : Type}.

Definition with_db (w : World S) (d : DB) : World S :=
  mkWorld d (tokens w) (cache w) (queue w) (outbox w).
Definition with_tokens (w : World S) (t : S) : World S :=
  mkWorld (db w) t (cache w) (queue w) (outbox w).
Definition with_cache (w : World S) (c : Cache.Cache) : World S :=
  mkWorld (db w) (tokens w) c (queue w) (outbox w).
Definition with_queue (w : World S) (q : list Job) : World S :=
  mkWorld (db w) (tokens w) (cache w) q (outbox w).
Definition with_outbox (w : World S) (o : list Mail) : World S :=
  mkWorld (db w) (tokens w) (cache w) (queue w) o.

(** A database query of the current state. *)
Definition query {A} (f : DB -> result A Exception) : ST (World S) Exception A :=
  fun w => (w, f (db w)).

(** [obj.save()] and the other writes of the handlers, on the world. *)
Definition save_customer_st (id : nat) (cu : Customer) : ST (World S) Exception unit :=
  modify (fun w => with_db w (save_customer (db w) id cu)).
Definition save_contact_st (id : nat) (c : Contact) : ST (World S) Exception unit :=
  fun w => match save_contact (db w) id c with
           | Ok d => (with_db w d, Ok tt)
           | Err e => (w, Err e)
           end.
Definition save_email_change_st (r : EmailChange) : ST (World S) Exception unit :=
  modify (fun w => with_db w (save_email_change (db w) r)).
Definition save_phone_change_st (r : PhoneChange) : ST (World S) Exception unit :=
  modify (fun w => with_db w (save_phone_change (db w) r)).
Definition delete_email_temps_st (cid : nat) : ST (World S) Exception unit :=
  modify (fun w => with_db w (delete_email_temps (db w) cid)).
Definition delete_otp_temps_st (cid : nat) : ST (World S) Exception unit :=
  modify (fun w => with_db w (delete_otp_temps (db w) cid)).

Definition save_people_st (id : nat) (p : People) : ST (World S) Exception unit :=
  fun w => match save_people (db w) id p with
           | Ok d => (with_db w d, Ok tt)
           | Err e => (w, Err e)
           end.
Definition create_email_change_st (cid : nat) (old new : option string) (now : Time)
  : ST (World S) Exception unit :=
  modify (fun w => with_db w (create_email_change (db w) cid old new now)).
Definition create_phone_change_st (cid : nat) (old new : option string) (now : Time)
  : ST (World S) Exception unit :=
  modify (fun w => with_db w (create_phone_change (db w) cid old new now)).

(** [task.delay(...)] *)
Definition delay (j : Job) : ST (World S) Exception unit :=
  modify (fun w => with_queue w (queue w ++ [j])).

(** [send_email("customer", "email_verification", context, recipients)] *)
Definition send_email (recipients : list string) (cid temp : nat) : ST (World S) Exception unit :=
  modify (fun w => with_outbox w (outbox w ++ map (fun r => mkMail r cid temp) recipients)).

(** [contact.customer]: the reverse side of the one-to-one [username]. *)
Definition contact_customer (d : DB) (contact_id : nat) : result (nat * Customer) Exception :=
  match list_find (fun '(_, cu) => username cu = contact_id) (map_to_list (customers d)) with
  | Some (_, (k, cu)) => Ok (k, cu)
  | None => Err (DoesNotExist "Customer")
  end.

Definition create_email_temp_st (cid : nat) (e : string) (now : Time) : ST (World S) Exception nat :=
  fun w => let '(d, id) := create_email_temp (db w) cid e now in (with_db w d, Ok id).

Definition create_otp_temp_st (cid : nat) (c : Z) (now : Time) : ST (World S) Exception nat :=
  fun w => let '(d, id) := create_otp_temp (db w) cid c now in (with_db w d, Ok id).

(** [send_email_verification(contact_id)] *)
(** [EmailTemp.email] is NOT NULL: creating a ticket for a contact whose
    email is NULL raises. *)
Definition send_email_verification (contact_id : nat) (now : Time) : ST (World S) Exception unit :=
  contact ← query (fun d => get_contact d contact_id);
  '(k, cu) ← query (fun d => contact_customer d contact_id);
  e ← lift (match email contact with
            | Some e => Ok e
            | None => Err (IntegrityError "email_temp.email")
            end);
  temp ← create_email_temp_st k e now;
  ec ← query (fun d => latest_email_change d k);
  match email_verify cu, new_email ec with
  | None, Some ne => if String.eqb ne "" then send_email [e] k temp else send_email [ne] k temp
  | _, _ => send_email [e] k temp
  end.

(** [code = 1234]: the random generator is commented out in the source. *)
Definition OTP_CODE : Z := 1234.

(** [send_mobile_verification_code(contact_id)]: no SMS is sent ("Send To
    Phone Here" is a placeholder). *)
Definition send_mobile_verification_code (contact_id : nat) (now : Time) : ST (World S) Exception unit :=
  _ ← query (fun d => get_contact d contact_id);
  '(k, _) ← query (fun d => contact_customer d contact_id);
  _ ← create_otp_temp_st k OTP_CODE now;
  mret tt.

Definition run_job (j : Job) (now : Time) : ST (World S) Exception unit :=
  match j with
  | SendEmailVerification c => send_email_verification c now
  | SendMobileVerificationCode c => send_mobile_verification_code c now
  end.

End Jobs.

(** Run an [ST] computation of the world one bind at a time. *)
Ltac st_unfold :=
  unfold mbind, ST_bind, mret, ST_ret, query, gets, modify, lift, raise; cbn.

(** ** What the jobs do *)

Section JobLemmas.
Context {S : Type}.

(** C22. What the change limit counts: running [send_email_verification]
    adds exactly one ticket to the customer's tickets, at the end, with a
    fresh identifier, the contact's current address and the current time,
    whether or not that address already had one; so the number of distinct
    addresses grows by one exactly when the address is new, and asking
    again for the same address does not use up the limit. *)
Theorem send_email_verification_counts (w : World S) contact_id k cu c e ec now :
  contacts (db w) !! contact_id = Some c ->
  email c = Some e ->
  contact_customer (db w) contact_id = Ok (k, cu) ->
  latest_email_change (db w) k = Ok ec ->
  let '(w', r) := send_email_verification contact_id now w in
  r = Ok tt /\
  email_temps_of (db w') k = email_temps_of (db w) k ++ [mkEmailTemp (next_id (db w)) k e now] /\
  distinct_count email_temp_email (email_temps_of (db w') k) =
    (distinct_count email_temp_email (email_temps_of (db w) k) +
     if decide (e ∈ map email_temp_email (email_temps_of (db w) k)) then 0 else 1)%nat.
Proof.
  intros Hc He Hcc Hec.
  unfold send_email_verification, get_contact. st_unfold.
  rewrite Hc, Hcc, He. cbn. erewrite (latest_email_change_ext _ (db w)) by reflexivity.
  rewrite Hec. cbn.
  assert (Hcount : distinct_count email_temp_email
      (filter (fun t => email_temp_customer t = k) (email_temp (db w) ++ [mkEmailTemp (next_id (db w)) k e now])) =
    (distinct_count email_temp_email (email_temps_of (db w) k) +
     if decide (e ∈ map email_temp_email (email_temps_of (db w) k)) then 0 else 1)%nat).
  { rewrite filter_app, filter_cons_True, filter_nil by done. apply distinct_count_snoc. }
  assert (Htemps : filter (fun t => email_temp_customer t = k) (email_temp (db w) ++ [mkEmailTemp (next_id (db w)) k e now]) =
    email_temps_of (db w) k ++ [mkEmailTemp (next_id (db w)) k e now]).
  { by rewrite filter_app, filter_cons_True, filter_nil by done. }
  destruct (email_verify cu), (new_email ec) as [ne|]; try destruct (String.eqb ne "");
    cbn; split_and!; done.
Qed.


(** C27. [send_email_verification] for a contact whose email is NULL raises
    [IntegrityError] (the ticket's [email] column is NOT NULL) before it
    creates a ticket or sends anything. *)
Theorem send_email_verification_null_email (w : World S) contact_id k cu c now :
  contacts (db w) !! contact_id = Some c ->
  email c = None ->
  contact_customer (db w) contact_id = Ok (k, cu) ->
  send_email_verification contact_id now w = (w, Err (IntegrityError "email_temp.email")).
Proof.
  intros Hc He Hcc. unfold send_email_verification, get_contact. st_unfold.
  by rewrite Hc, Hcc, He.
Qed.

End JobLemmas.

(** ** Witnesses *)

(** Customer [1] of contact [0], with three tickets naming three addresses
    (or none), and its empty change request [2]; the token state plays no
    part in the jobs. *)
Definition jobs_customer : Customer := mkCustomer 0 "pbkdf2$hash" false None None 0 None.
Definition jobs_change : EmailChange := mkEmailChange 2 1 None None 0.
Definition jobs_contact (addr : option string) : Contact := mkContact addr None None.
Definition jobs_world (addr : option string) (tickets : list EmailTemp) : World unit :=
  mkWorld (mkDB (<[0%nat := jobs_contact addr]> ∅) (<[1%nat := jobs_customer]> ∅) ∅ tickets []
             [jobs_change] [] 8) tt Cache.empty [] [].
Definition jobs_w_three : World unit :=
  jobs_world (Some "c@mail.test"%string)
    [mkEmailTemp 3 1 "a@mail.test" 0; mkEmailTemp 4 1 "b@mail.test" 1; mkEmailTemp 5 1 "c@mail.test" 2].
Definition jobs_w_mobile : World unit := jobs_world None [].

Lemma send_email_verification_counts_witness :
  let '(w', r) := send_email_verification 0 10 jobs_w_three in
  r = Ok tt /\
  email_temps_of (db w') 1 = email_temps_of (db jobs_w_three) 1 ++
    [mkEmailTemp (next_id (db jobs_w_three)) 1 "c@mail.test" 10] /\
  distinct_count email_temp_email (email_temps_of (db w') 1) =
    (distinct_count email_temp_email (email_temps_of (db jobs_w_three) 1) +
     if decide ("c@mail.test"%string ∈ map email_temp_email (email_temps_of (db jobs_w_three) 1))
     then 0 else 1)%nat.
Proof.
  apply (send_email_verification_counts jobs_w_three 0 1 jobs_customer
           (jobs_contact (Some "c@mail.test"%string)) "c@mail.test" jobs_change 10); reflexivity.
Defined.


Lemma send_email_verification_null_email_witness :
  send_email_verification 0 10 jobs_w_mobile = (jobs_w_mobile, Err (IntegrityError "email_temp.email")).
Proof.
  apply (send_email_verification_null_email jobs_w_mobile 0 1 jobs_customer (jobs_contact None));
    reflexivity.
Defined.


End Tasks.
