(* ===== verification/Views.v ===== *)
(** * The project views ([authentication/views.py])

    [Info] answers the service's name, version, provider and the local
    time to anyone ([authentication_classes = []],
    [permission_classes = []]).  [Config] sits behind [IsAuthenticated]
    and answers the entries of [AUTHENTICATION_CUSTOMER] named in
    [PUBLIC_APP_SETTING], built by a loop of [dict.update].  Neither view
    reads or writes the world. *)

From S2P Require Import Prelude Store Settings Session Cache Tasks.
Import Store Settings Tasks.

Module Views.

Section Views.
Context {S : Type}.

(** [Info.get] (views.py 10-21). *)
Definition info (now : Time) : ST (World S) Exception Response :=
  mret (mkResponse HTTP_200_OK (JsonData [
    ("name", PStr "Authentication"); ("time", PDatetime now);
    ("version", PStr "0.0.1"); ("provider", PStr "Khallagh Borhan")]%string)).

(** The loop of [Config.get] (views.py 30-33):
    [public_settings.update({setting: all_app_settings.get(setting, None)})]. *)
Definition public_settings (all_app_settings : Dict) (public : list string) : Dict :=
  foldl (fun acc setting => dict_update acc setting (default PNone (dict_get all_app_settings setting)))
    [] public.

(** [Config.get] (views.py 24-35); [requester] is the user [JWTAuthentication]
    authenticated, and [IsAuthenticated] refuses a request without one. *)
Definition config (all_app_settings : Dict) (public : list string) (requester : option nat)
  : ST (World S) Exception Response :=
  match requester with
  | None => mret (mkResponse HTTP_401_UNAUTHORIZED NotAuthenticated)
  | Some _ => mret (mkResponse HTTP_200_OK (JsonData (public_settings all_app_settings public)))
  end.

End Views.

End Views.
