(* ===== verification/Profile.v ===== *)
(** * The customer's own profile and the customer list ([views.py] [me],
    [ListModelMixin.list]; [CustomerDetailSerializer] and
    [CustomerSerializer] of [serializers.py]; [paginations.py])

    [me] answers the requester's customer as [CustomerDetailSerializer]
    renders it: its fields, its contact, the [People] row that owns it
    ([obj.people.all()[0]], an [IndexError] when there is none) and the
    latest email and mobile change requests ([.latest("created_at")], a
    [DoesNotExist] when there is none), evaluated in the order of
    [Meta.fields].  [customer_list] is [GET customer/]: every customer,
    rendered by [CustomerSerializer] and paginated by [HeaderPagination]
    (the [DEFAULT_PAGINATION_CLASS] of [base_settings.py]), with DRF's
    [PageNumberPagination] and Django's [Paginator] written out: without a
    valid [page_size] parameter nothing is paginated ([PAGE_SIZE] is not
    set), a page size is capped at [max_page_size = 100], and a page
    number outside the pages raises [NotFound]. *)

From S2P Require Import Prelude Store Settings Session Cache Tasks.
From stdpp Require Import pretty.
Import Store Settings Tasks.

Module Profile.

#[local] Open Scope Z_scope.
#[local] Open Scope auth_scope.

(** ** [HeaderPagination] and DRF's [PageNumberPagination] *)

(** A query parameter as [int()] reads it. *)
Inductive QueryInt :=
  | QAbsent
  | QInt (z : Z)
  | QNotInt.

(** The [page] parameter: absent (page 1), a number, ["last"], or a
    string [int()] rejects. *)
Inductive PageArg :=
  | PageDefault
  | PageNum (z : Z)
  | PageLast
  | PageNotInt.

(** [page_size_query_param = "page_size"], [max_page_size = 100]
    (paginations.py 6-7); [REST_FRAMEWORK] sets no [PAGE_SIZE]. *)
Definition max_page_size : nat := 100.
Definition PAGE_SIZE : option nat := None.

(** [get_page_size]: [_positive_int(..., strict=True, cutoff=max_page_size)],
    falling back to [PAGE_SIZE] on [KeyError] or [ValueError]. *)
Definition get_page_size (q : QueryInt) : option nat :=
  match q with
  | QInt z => if z <=? 0 then PAGE_SIZE else Some (Nat.min (Z.to_nat z) max_page_size)
  | _ => PAGE_SIZE
  end.

(** [Paginator.num_pages] with [orphans = 0]: [ceil(max(1, count) / per_page)]. *)
Definition num_pages (count per_page : nat) : nat :=
  ((Nat.max 1 count + per_page - 1) / per_page)%nat.

(** [Paginator.validate_number], after [get_page_number] replaced
    ["last"] by [num_pages]. *)
Definition validate_number (np : nat) (p : PageArg) : option nat :=
  let number := match p with
                | PageDefault => Some 1
                | PageNum z => Some z
                | PageLast => Some (Z.of_nat np)
                | PageNotInt => None
                end in
  match number with
  | None => None
  | Some z => if z <? 1 then None
              else if (Z.of_nat np <? z) && negb (z =? 1) then None
              else Some (Z.to_nat z)
  end.

(** [Paginator.page(number)]: [object_list[bottom:top]]. *)
Definition page {A} (l : list A) (per_page number : nat) : list A :=
  let bottom := ((number - 1) * per_page)%nat in
  let top := (bottom + per_page)%nat in
  let top := if (length l <=? top)%nat then length l else top in
  take (top - bottom)%nat (drop bottom l).

(** [PageNumberPagination.paginate_queryset]: [None] when the request
    asks for no pagination, [NotFound] (a 404) for an invalid page. *)
Definition paginate_queryset {A} (l : list A) (ps : QueryInt) (p : PageArg)
  : result (option (list A)) Exception :=
  match get_page_size ps with
  | None => Ok None
  | Some per_page =>
      match validate_number (num_pages (length l) per_page) p with
      | Some n => Ok (Some (page l per_page n))
      | None => Err Http404
      end
  end.

(** ** Serializers *)

Definition opt_str (v : option string) : PyValue := match v with Some s => PStr s | None => PNone end.
Definition opt_time (v : option Time) : PyValue := match v with Some t => PDatetime t | None => PNone end.

(** [CustomerSerializer] (serializers.py 133-146); the [url] of the
    [customer-detail] route, [host] being what [build_absolute_uri] adds. *)
Definition customer_summary (host : string) (kc : nat * Customer) : PyValue :=
  PDict [("url", PStr (host +:+ "/customer/" +:+ pretty kc.1 +:+ "/"));
         ("is_active", PBool (is_active kc.2));
         ("email_verify", opt_time (email_verify kc.2));
         ("mobile_verify", opt_time (mobile_verify kc.2));
         ("total_credit", PInt (total_credit kc.2))]%string.

(** [obj.people.all()[0]]: the [People] row the customer's owner names. *)
Definition first_people (d : DB) (cu : Customer) : result People Exception :=
  match customer_owner cu with
  | Some k => match people d !! k with Some p => Ok p | None => Err IndexError end
  | None => Err IndexError
  end.

(** [CustomerDetailSerializer(customer).data] (serializers.py 104-189):
    the fields in the order of [Meta.fields]; the nested
    [ContactSerializer], [PeopleSerilizer], [EmailChangeSerializer] and
    [MobileChangeSerializer]. *)
Definition customer_detail (d : DB) (id : nat) (cu : Customer) : result Dict Exception :=
  let? c := get_contact d (username cu) in
  let? p := first_people d cu in
  let? ec := latest_email_change d id in
  let? pc := latest_phone_change d id in
  Ok [("id", PInt (Z.of_nat id)); ("is_active", PBool (is_active cu));
      ("email_verify", opt_time (email_verify cu)); ("mobile_verify", opt_time (mobile_verify cu));
      ("total_credit", PInt (total_credit cu));
      ("contact", PDict [("email", opt_str (email c)); ("mobile", opt_str (mobile c))]);
      ("people", PDict [("name", PStr (name p)); ("last_name", PStr (last_name p));
                        ("national_code", PStr (national_code p))]);
      ("email_change", PDict [("old_email", opt_str (old_email ec)); ("new_email", opt_str (new_email ec))]);
      ("mobile_change", PDict [("old_mobile", opt_str (old_mobile pc)); ("new_mobile", opt_str (new_mobile pc))])]%string.

(** ** The handlers *)

Section Handlers.
Context {S : Type}.

(** [me] (views.py 58-65) behind [IsAuthenticated]:
    [Customer.objects.get(id=request.user.id)] raises [DoesNotExist]. *)
Definition me (requester : option nat) : ST (World S) Exception Response :=
  match requester with
  | None => mret (mkResponse HTTP_401_UNAUTHORIZED NotAuthenticated)
  | Some id =>
      customer ← query (fun d => match customers d !! id with
                                 | Some cu => Ok cu
                                 | None => Err (DoesNotExist "Customer")
                                 end);
      data ← query (fun d => customer_detail d id customer);
      mret (mkResponse HTTP_200_OK (JsonData data))
  end.

(** [ListModelMixin.list] behind [IsAuthenticated], with
    [HeaderPagination.get_paginated_response] (paginations.py 9-15) adding
    [X-Result-Count]; [Customer.objects.all()] has no ordering, its order
    is the store's. *)
Definition customer_list (requester : option nat) (host : string) (ps : QueryInt) (p : PageArg)
  : ST (World S) Exception Response :=
  match requester with
  | None => mret (mkResponse HTTP_401_UNAUTHORIZED NotAuthenticated)
  | Some _ =>
      queryset ← gets (fun w => map_to_list (customers (db w)));
      pg ← lift (paginate_queryset queryset ps p);
      match pg with
      | Some items =>
          mret (mkResponse HTTP_200_OK (JsonPage (customer_summary host <$> items) (Some (length queryset))))
      | None => mret (mkResponse HTTP_200_OK (JsonPage (customer_summary host <$> queryset) None))
      end
  end.

End Handlers.

End Profile.
