(* ===== verification/Auth.v ===== *)
(** * Credentials ([authentication.py] [EmailMobileAuthentication]; the
    password methods of Django's [AbstractBaseUser])

    [PasswordHasher] is the interface of Django's [PASSWORD_HASHERS]:
    [make_password] encodes a raw password with a salt, [check_password]
    compares a raw password with an encoding.  [authenticate] is the
    backend's [authenticate]: it resolves the email (or else the mobile) to
    one [Contact] with [Contact.objects.get], follows [contact.customer] and
    checks the password and [user_can_authenticate].  That check is given
    [customer.username], the [Contact], which has no [is_active] attribute:
    [getattr] answers [None] and the check always passes.  [get_user] makes
    the same call. *)

From S2P Require Import Prelude Store Tasks.
Import Store Tasks.

Module Auth.

Class PasswordHasher := {
  (** [make_password(raw)] with the salt [salt] *)
  make_password : nat -> string -> string;
  (** [check_password(raw, encoded)] *)
  check_password : string -> string -> bool;
}.

(** An encoding checks against the password it encodes and no other. *)
Class PasswordHasherLaws `{PasswordHasher} := {
  check_make salt raw : check_password raw (make_password salt raw) = true;
  check_make_inv salt raw raw' : check_password raw' (make_password salt raw) = true -> raw' = raw;
}.

Section Backend.
Context `{PasswordHasher}.

(** [customer.set_password(raw)]: the salt is drawn like a [uuid4]. *)
Definition set_password_salted (d : DB) (cu : Customer) (raw : string) : Customer * DB :=
  let '(salt, d1) := fresh_id d in (set_password cu (make_password salt raw), d1).

(** [ModelBackend.user_can_authenticate]: [is_active = getattr(user,
    "is_active", None)]; [return is_active or is_active is None]. *)
Definition user_can_authenticate (is_active : option bool) : bool :=
  match is_active with Some b => b | None => true end.

(** [getattr(contact, "is_active", None)]: [Contact] declares no such field. *)
Definition contact_is_active (c : Contact) : option bool := None.

(** The contacts whose [field] holds [v]. *)
Definition contacts_with (field : Contact -> option string) (v : string) (d : DB) : list (nat * Contact) :=
  filter (fun p => field p.2 = Some v) (map_to_list (contacts d)).

(** [Contact.objects.get(field=v)] *)
Definition get_contact_by (field : Contact -> option string) (v : string) (d : DB)
  : result (nat * Contact) Exception :=
  match contacts_with field v d with
  | [] => Err (DoesNotExist "Contact")
  | [p] => Ok p
  | _ => Err (MultipleObjectsReturned "Contact")
  end.

(** One branch of [authenticate]: the [try] catches [ObjectDoesNotExist],
    raised by the lookup or by [contact.customer]; a failed check falls off
    the end of the function, which returns [None]. *)
Definition authenticate_by (field : Contact -> option string) (v raw : string) (d : DB)
  : result (option (nat * Customer)) Exception :=
  match get_contact_by field v d with
  | Err (DoesNotExist _) => Ok None
  | Err e => Err e
  | Ok (cid, c) =>
      match contact_customer d cid with
      | Err (DoesNotExist _) => Ok None
      | Err e => Err e
      | Ok (k, cu) =>
          Ok (if check_password raw (password cu) && user_can_authenticate (contact_is_active c)
              then Some (k, cu) else None)
      end
  end.

(** [EmailMobileAuthentication.authenticate(request, mobile=, email=,
    password=)]: [if email:] ... [elif mobile:]; [prep] is Python's
    truthiness of a string ([value or None]). *)
Definition authenticate (email mobile : option string) (raw : string) (d : DB)
  : result (option (nat * Customer)) Exception :=
  match prep email with
  | Some e => authenticate_by Store.email e raw d
  | None =>
      match prep mobile with
      | Some m => authenticate_by Store.mobile m raw d
      | None => Ok None
      end
  end.

(** [EmailMobileAuthentication.get_user(contact_id)]: [customer.username]
    fetches the contact. *)
Definition get_user (d : DB) (k : nat) : result (option Customer) Exception :=
  match customers d !! k with
  | None => Ok None
  | Some cu =>
      match get_contact d (username cu) with
      | Ok c => Ok (if user_can_authenticate (contact_is_active c) then Some cu else None)
      | Err e => Err e
      end
  end.

End Backend.

Section Lemmas.
Context `{PasswordHasher}.

(** [contact.customer] finds the customer bound to the contact. *)
Lemma contact_customer_Ok_inv d cid k cu :
  contact_customer d cid = Ok (k, cu) -> customers d !! k = Some cu /\ username cu = cid.
Proof.
  unfold contact_customer. destruct (list_find _ _) as [[i [k' cu']]|] eqn:E; [|done].
  intros [= -> ->]. apply list_find_Some in E as (Hi & Hu & _).
  split; [|done]. apply elem_of_map_to_list. eapply list_elem_of_lookup_2. exact Hi.
Qed.

Lemma contact_customer_Ok d cid k cu :
  customer_contacts d -> customers d !! k = Some cu -> username cu = cid ->
  contact_customer d cid = Ok (k, cu).
Proof.
  intros [_ H11] Hk Hu. unfold contact_customer.
  destruct (list_find _ _) as [[i [k' cu']]|] eqn:E.
  - apply list_find_Some in E as (Hi & Hu' & _).
    apply list_elem_of_lookup_2, elem_of_map_to_list in Hi.
    assert (k' = k) as -> by (eapply H11; eauto; congruence). congruence.
  - apply list_find_None in E. eapply Forall_forall in E; [|by apply elem_of_map_to_list].
    simpl in E. congruence.
Qed.

(** Under a unique index on [field], [Contact.objects.get(field=v)] finds
    the one contact holding [v]. *)
Lemma get_contact_by_found (field : Contact -> option string) v d cid c :
  (forall i j ci cj, contacts d !! i = Some ci -> contacts d !! j = Some cj -> i <> j ->
     clashes (field ci) (field cj) = false) ->
  contacts d !! cid = Some c -> field c = Some v -> get_contact_by field v d = Ok (cid, c).
Proof.
  intros Huniq Hc Hf. unfold get_contact_by, contacts_with.
  rewrite (list_at_most_one _ (cid, c)); [done| | |].
  - apply NoDup_filter, NoDup_map_to_list.
  - apply list_elem_of_filter. split; [done|]. by apply elem_of_map_to_list.
  - intros [i ci] [j cj] [Hi Hci]%list_elem_of_filter [Hj Hcj]%list_elem_of_filter.
    apply elem_of_map_to_list in Hci, Hcj. simpl in *.
    destruct (decide (i = j)) as [->|Hne]; [congruence|].
    specialize (Huniq _ _ _ _ Hci Hcj Hne). rewrite Hi, Hj in Huniq. simpl in Huniq.
    by rewrite String.eqb_refl in Huniq.
Qed.

Lemma get_contact_by_missing (field : Contact -> option string) v d :
  (forall cid c, contacts d !! cid = Some c -> field c <> Some v) ->
  get_contact_by field v d = Err (DoesNotExist "Contact").
Proof.
  intros Hn. unfold get_contact_by, contacts_with.
  destruct (filter _ _) as [|[i ci] l'] eqn:E; [done|]. exfalso.
  assert ((i, ci) ∈ filter (fun p => field p.2 = Some v) (map_to_list (contacts d)))
    as [Hf Hi]%list_elem_of_filter by (rewrite E; set_solver).
  apply elem_of_map_to_list in Hi. eapply Hn; eauto.
Qed.

Lemma unique_field_email d : wf d ->
  forall i j ci cj, contacts d !! i = Some ci -> contacts d !! j = Some cj -> i <> j ->
    clashes (email ci) (email cj) = false.
Proof. intros Hw i j ci cj Hi Hj Hne. eapply (wf_unique_contacts _ Hw); eauto. Qed.

Lemma unique_field_mobile d : wf d ->
  forall i j ci cj, contacts d !! i = Some ci -> contacts d !! j = Some cj -> i <> j ->
    clashes (mobile ci) (mobile cj) = false.
Proof. intros Hw i j ci cj Hi Hj Hne. eapply (wf_unique_contacts _ Hw); eauto. Qed.

(** The backend never looks at [is_active]. *)
Lemma authenticate_by_found field v raw d cid c k cu :
  wf d ->
  (forall i j ci cj, contacts d !! i = Some ci -> contacts d !! j = Some cj -> i <> j ->
     clashes (field ci) (field cj) = false) ->
  contacts d !! cid = Some c -> field c = Some v ->
  customers d !! k = Some cu -> username cu = cid ->
  authenticate_by field v raw d = Ok (if check_password raw (password cu) then Some (k, cu) else None).
Proof.
  intros Hw Hu Hc Hf Hk Hun. unfold authenticate_by.
  rewrite (get_contact_by_found _ _ _ cid c) by done.
  rewrite (contact_customer_Ok _ _ k cu) by (done || apply Hw).
  by rewrite andb_true_r.
Qed.

(** C12. [authenticate] resolves the identifier it is given, the email when
    one is given and the mobile otherwise, to the one contact holding it (the
    unique indexes of the store guarantee there is at most one), and returns
    the customer of that contact exactly when the password checks.  It raises
    nothing, and neither [is_active] nor the other identifier plays a part:
    an inactive customer is returned too. *)
Theorem authenticate_resolves d email mobile v raw cid c k cu :
  wf d ->
  (prep email = Some v /\ Store.email c = Some v) \/
  (prep email = None /\ prep mobile = Some v /\ Store.mobile c = Some v) ->
  contacts d !! cid = Some c -> customers d !! k = Some cu -> username cu = cid ->
  authenticate email mobile raw d =
    Ok (if check_password raw (password cu) then Some (k, cu) else None).
Proof.
  intros Hw Hsel Hc Hk Hun. unfold authenticate.
  destruct Hsel as [[-> Hf]|(-> & -> & Hf)];
    eapply authenticate_by_found; eauto using unique_field_email, unique_field_mobile.
Qed.

(** An identifier that no contact holds authenticates nobody, whatever
    the password. *)
Theorem authenticate_unknown d email mobile v raw :
  (prep email = Some v /\ forall cid c, contacts d !! cid = Some c -> Store.email c <> Some v) \/
  (prep email = None /\ prep mobile = Some v /\
     forall cid c, contacts d !! cid = Some c -> Store.mobile c <> Some v) ->
  authenticate email mobile raw d = Ok None.
Proof.
  unfold authenticate, authenticate_by. intros [[-> Hn]|(-> & -> & Hn)];
    by rewrite get_contact_by_missing.
Qed.

(** C17. [get_user] returns every stored customer, an inactive one included:
    [user_can_authenticate] is asked about the contact, which has no
    [is_active] field, so it never rejects. *)
Theorem get_user_ignores_is_active d k cu :
  wf d -> customers d !! k = Some cu -> get_user d k = Ok (Some cu).
Proof.
  intros Hw Hk. unfold get_user, get_contact. rewrite Hk.
  destruct (proj1 (wf_customer_contacts _ Hw) _ _ Hk) as [c ->]. done.
Qed.

End Lemmas.

(** ** Witnesses *)

(** A hasher that keeps the raw password behind a prefix; it satisfies the
    laws, which is all the theorems use. *)
#[export] Instance plain_hasher : PasswordHasher := {|
  make_password _ raw := ("plain$" ++ raw)%string;
  check_password raw enc := String.eqb ("plain$" ++ raw) enc;
|}.

#[export] Instance plain_hasher_laws : PasswordHasherLaws.
Proof.
  split.
  - intros salt raw. apply String.eqb_refl.
  - intros salt raw raw' Hc%String.eqb_eq. exact (String.app_inj "plain$" _ _ Hc).
Qed.

(** Contact [0] holds [a@mail.test] and is bound to the inactive customer
    [1]; contact [2] holds a mobile and has no customer. *)
Definition auth_db : DB :=
  mkDB (<[0%nat := mkContact (Some "a@mail.test"%string) None None]>
        (<[2%nat := mkContact None (Some "09121234567"%string) None]> ∅))
       (<[1%nat := mkCustomer 0 "plain$secret1" false None None 0 None]> ∅)
       ∅ [] [] [] [] 3.

Lemma authenticate_resolves_witness :
  authenticate (Some "a@mail.test"%string) None "secret1" auth_db =
    Ok (Some (1%nat, mkCustomer 0 "plain$secret1" false None None 0 None)).
Proof.
  rewrite (authenticate_resolves auth_db (Some "a@mail.test"%string) None "a@mail.test" "secret1" 0
           (mkContact (Some "a@mail.test"%string) None None) 1
           (mkCustomer 0 "plain$secret1" false None None 0 None)).
  - reflexivity.
  - wf_by_computation.
  - left. split; reflexivity.
  - reflexivity.
  - reflexivity.
  - reflexivity.
Defined.

Lemma authenticate_unknown_witness :
  authenticate None (Some "09350000000"%string) "secret1" auth_db = Ok None.
Proof.
  apply (authenticate_unknown auth_db None (Some "09350000000"%string) "09350000000").
  right. split_and!; [reflexivity|reflexivity|].
  intros cid c Hc. cbn [auth_db contacts] in Hc.
  apply lookup_insert_Some in Hc as [[_ <-]|[_ Hc]]; [discriminate|].
  apply lookup_insert_Some in Hc as [[_ <-]|[_ Hc]]; [discriminate|done].
Defined.

Lemma get_user_ignores_is_active_witness :
  get_user auth_db 1 = Ok (Some (mkCustomer 0 "plain$secret1" false None None 0 None)).
Proof.
  apply (get_user_ignores_is_active auth_db 1); [wf_by_computation|reflexivity].
Defined.

End Auth.
