(* ===== verification/Verification.v ===== *)
(** * The verification workflow ([views.py] [verify_email], [resend_email],
    [change_email], [verify_mobile], [resend_mobile_code], [change_mobile],
    [update]; the serializers they use)

    Each handler is an [ST] computation on the [World]: it reads the
    customer with [get_object], returns early with the responses of the
    source, and otherwise performs the source's writes in the source's
    order.  A write that raises leaves the earlier writes in place.  The
    handlers are written against the [TokenService] interface; the
    configuration [cfg] is the [AUTHENTICATION_CUSTOMER] setting and
    [is_email] is Django's [EmailValidator], which is not modelled. *)

From S2P Require Import Prelude Validators Store Session Tasks.
Import Store Session Tasks.

Module Verification.

Section Handlers.
Context {S : Type} `{TokenService S}.
Context (cfg : Config) (is_email : string -> bool).

Definition ok200 (b : Body) : Response := mkResponse HTTP_200_OK b.
Definition bad400 (b : Body) : Response := mkResponse HTTP_400_BAD_REQUEST b.

(** ** Queries and effects shared by the handlers *)

(** [self.refresh_token(customer)] *)
Definition refresh_token_st (cid : nat) (now : Time) : ST (World S) Exception TokenPair :=
  fun w => let '(t, p) := for_user (tokens w) cid now in (with_tokens w t, Ok p).

(** [customer.email_temp.filter(id=...)], its first row. *)
Definition find_email_temp (d : DB) (cid tid : nat) : option EmailTemp :=
  head (filter (fun t => email_temp_id t = tid) (email_temps_of d cid)).

(** [customer.email_temp.order_by("-created_at")[0]] *)
Definition newest_email_temp (d : DB) (cid : nat) : option EmailTemp :=
  latest email_temp_created_at (email_temps_of d cid).
(** [customer.otp_temp.all().order_by("-created_at")[0]]; [IndexError] on
    an empty queryset. *)
Definition newest_otp_temp (d : DB) (cid : nat) : result OTPTemp Exception :=
  match latest otp_temp_created_at (otp_temps_of d cid) with
  | Some t => Ok t
  | None => Err IndexError
  end.

Definition email_taken (d : DB) (v : string) : bool :=
  existsb (fun '(_, c) => bool_decide (email c = Some v)) (map_to_list (contacts d)).
Definition mobile_taken (d : DB) (v : string) : bool :=
  existsb (fun '(_, c) => bool_decide (mobile c = Some v)) (map_to_list (contacts d)).

(** [EmailField(max_length=75, required=False, validators=[UniqueValidator])]:
    [None] is an absent key. *)
Definition email_field (d : DB) (input : option string) : result (option string) (list string) :=
  match input with
  | None => Ok None
  | Some raw =>
      let v := Mobile.strip raw in
      if String.eqb v "" || (75 <? String.length v)%nat || negb (is_email v) || email_taken d v
      then Err ["email"%string] else Ok (Some v)
  end.

(** The mobile [CharField] with its [RegexValidator] and [UniqueValidator]. *)
Definition mobile_unique_field (d : DB) (input : option string) : result (option string) (list string) :=
  match input with
  | None => Ok None
  | Some raw =>
      match Mobile.mobile_field raw with
      | Ok v => if mobile_taken d v then Err ["mobile"%string] else Ok (Some v)
      | Err _ => Err ["mobile"%string]
      end
  end.

(** If the latest change request names a new value, write it to the contact. *)
Definition apply_new_email (cu : Customer) (ec : EmailChange) : ST (World S) Exception unit :=
  match new_email ec with
  | Some ne =>
      if String.eqb ne "" then mret tt
      else contact ← query (fun d => get_contact d (username cu));
           save_contact_st (username cu) (set_email contact (Some ne))
  | None => mret tt
  end.

Definition apply_new_mobile (cu : Customer) (pc : PhoneChange) : ST (World S) Exception unit :=
  match new_mobile pc with
  | Some nm =>
      if String.eqb nm "" then mret tt
      else contact ← query (fun d => get_contact d (username cu));
           save_contact_st (username cu) (set_mobile contact (Some nm))
  | None => mret tt
  end.

(** ** Email channel *)

(** [verify_email] (views.py 92-131); [temp_id] is the validated [id] of
    the [UUIDSerializer], [None] when it does not validate. *)
Definition verify_email (id : nat) (temp_id : option nat) (now : Time) : ST (World S) Exception Response :=
  match temp_id with
  | None => mret (bad400 (ValidationFailed ["id"%string]))
  | Some tid =>
      customer ← query (fun d => get_customer d id);
      email_change ← query (fun d => latest_email_change d id);
      match email_verify customer with
      | Some _ => mret (ok200 EmailAlreadyActivated)
      | None =>
          temp ← gets (fun w => find_email_temp (db w) id tid);
          match temp with
          | None => mret (bad400 EmailVerificationRequestNotFound)
          | Some t =>
              if email_verification_expire_time cfg <? now - email_temp_created_at t
              then mret (bad400 Expired)
              else
                _ ← save_customer_st id (set_is_active (set_email_verify customer (Some now)) true);
                _ ← apply_new_email customer email_change;
                _ ← save_email_change_st (set_new_email email_change (Some ""%string));
                _ ← delete_email_temps_st id;
                token ← refresh_token_st id now;
                mret (ok200 (TokenIssued token))
          end
      end
  end.

(** [resend_email] (views.py 139-170) *)
Definition resend_email (id : nat) (now : Time) : ST (World S) Exception Response :=
  customer ← query (fun d => get_customer d id);
  match email_verify customer with
  | Some _ => mret (ok200 EmailAlreadyActivated)
  | None =>
      temp ← gets (fun w => newest_email_temp (db w) id);
      match temp with
      | None => mret (bad400 YouMustSignupFirst)
      | Some t =>
          if now - email_temp_created_at t <? email_verification_resend_time_limit cfg
          then mret (bad400 (YouMustWait
                   (email_verification_resend_time_limit cfg - (now - email_temp_created_at t))))
          else
            _ ← delay (SendEmailVerification (username customer));
            mret (ok200 EmailResent)
      end
  end.

(** [change_email] (views.py 178-205) *)
Definition change_email (id : nat) (input : option string) (now : Time) : ST (World S) Exception Response :=
  v ← gets (fun w => email_field (db w) input);
  match v with
  | Err fields => mret (bad400 (ValidationFailed fields))
  | Ok validated =>
      customer ← query (fun d => get_customer d id);
      match email_verify customer with
      | Some _ => mret (ok200 EmailAlreadyActivated)
      | None =>
          n ← gets (fun w => distinct_count email_temp_email (email_temps_of (db w) id));
          if (email_verification_change_limit cfg <=? n)%nat
          then mret (bad400 MaxEmailChangeRequestExceeded)
          else
            e ← lift (match validated with Some e => Ok e | None => Err (KeyError "email") end);
            contact ← query (fun d => get_contact d (username customer));
            _ ← save_contact_st (username customer) (set_email contact (Some e));
            _ ← delay (SendEmailVerification (username customer));
            mret (ok200 EmailSent)
      end
  end.

(** ** Mobile channel *)

(** [verify_mobile] (views.py 344-382); [input_code] is the validated
    [code] of the [OTPSerializer] ([IntegerField(min_value=1000,
    max_value=9999)]), [None] when it is missing or not an integer. *)
Definition verify_mobile (id : nat) (input_code : option Z) (now : Time) : ST (World S) Exception Response :=
  match input_code with
  | None => mret (bad400 (ValidationFailed ["code"%string]))
  | Some c =>
      if negb ((1000 <=? c) && (c <=? 9999)) then mret (bad400 (ValidationFailed ["code"%string]))
      else
        customer ← query (fun d => get_customer d id);
        mobile_change ← query (fun d => latest_phone_change d id);
        match mobile_verify customer with
        | Some _ => mret (ok200 MobileAlreadyVerified)
        | None =>
            temp ← query (fun d => newest_otp_temp d id);
            if otp_expire_time cfg <? now - otp_temp_created_at temp
            then mret (bad400 CodeExpired)
            else if c =? code temp then
              _ ← delete_otp_temps_st id;
              _ ← save_customer_st id (set_is_active (set_mobile_verify customer (Some now)) true);
              _ ← apply_new_mobile customer mobile_change;
              _ ← save_phone_change_st (set_new_mobile mobile_change (Some ""%string));
              token ← refresh_token_st id now;
              mret (ok200 (TokenIssued token))
            else mret (bad400 InvalidCode)
        end
  end.

(** [resend_mobile_code] (views.py 385-407): the cool-down is
    [OTP_EXPIRE_TIME]. *)
Definition resend_mobile_code (id : nat) (now : Time) : ST (World S) Exception Response :=
  customer ← query (fun d => get_customer d id);
  match mobile_verify customer with
  | Some _ => mret (ok200 MobileAlreadyVerified)
  | None =>
      temp ← query (fun d => newest_otp_temp d id);
      if now - otp_temp_created_at temp <? otp_expire_time cfg
      then mret (bad400 (YouMustWait (otp_expire_time cfg - (now - otp_temp_created_at temp))))
      else
        _ ← delay (SendMobileVerificationCode (username customer));
        mret (ok200 CodeResent)
  end.

(** [change_mobile] (views.py 410-426): the [MobileSerializer] field is
    required. *)
Definition change_mobile (id : nat) (input : option string) (now : Time) : ST (World S) Exception Response :=
  v ← gets (fun w => match input with
                     | None => Err ["mobile"%string]
                     | Some _ => mobile_unique_field (db w) input
                     end);
  match v with
  | Err fields => mret (bad400 (ValidationFailed fields))
  | Ok validated =>
      customer ← query (fun d => get_customer d id);
      match mobile_verify customer with
      | Some _ => mret (ok200 MobileAlreadyVerified)
      | None =>
          contact ← query (fun d => get_contact d (username customer));
          _ ← save_contact_st (username customer) (set_mobile contact validated);
          _ ← delay (SendMobileVerificationCode (username customer));
          mret (ok200 CodeSent)
      end
  end.

(** ** Profile update *)

(** The fields of a [PATCH]: [None] is an absent key. *)
Record UpdateInput := mkUpdateInput {
  upd_email : option string;
  upd_mobile : option string;
  upd_national_code : option string;
  upd_name : option string;
  upd_last_name : option string;
}.

Definition national_code_taken (d : DB) (v : string) : bool :=
  existsb (fun '(_, p) => String.eqb (national_code p) v) (map_to_list (people d)).

(** [CharField(max_length=10, validators=[validate_national_code,
    UniqueValidator])] *)
Definition national_code_field (d : DB) (input : option string) : result (option string) (list string) :=
  match input with
  | None => Ok None
  | Some raw =>
      let v := Mobile.strip raw in
      match NationalCode.validate_national_code v with
      | Ok _ => if String.eqb v "" || (10 <? String.length v)%nat || national_code_taken d v
                then Err ["national_code"%string] else Ok (Some v)
      | Err _ => Err ["national_code"%string]
      end
  end.

(** [CharField(required=False)]: trimmed, not blank. *)
Definition char_field (field : string) (input : option string) : result (option string) (list string) :=
  match input with
  | None => Ok None
  | Some raw => let v := Mobile.strip raw in
                if String.eqb v "" then Err [field] else Ok (Some v)
  end.

Definition field_errors {A} (r : result A (list string)) : list string :=
  match r with Ok _ => [] | Err fs => fs end.

(** [CustomerUpdateSerializer.is_valid]: every field is checked, the
    errors of all fields are reported together. *)
Definition validate_update (d : DB) (i : UpdateInput) : result UpdateInput (list string) :=
  let e := email_field d (upd_email i) in
  let m := mobile_unique_field d (upd_mobile i) in
  let nc := national_code_field d (upd_national_code i) in
  let n := char_field "name" (upd_name i) in
  let ln := char_field "last_name" (upd_last_name i) in
  match e, m, nc, n, ln with
  | Ok e', Ok m', Ok nc', Ok n', Ok ln' => Ok (mkUpdateInput e' m' nc' n' ln')
  | _, _, _, _, _ =>
      Err (field_errors e ++ field_errors m ++ field_errors nc ++ field_errors n ++ field_errors ln)
  end.

Definition default_to {A} (o : option A) (a : A) : A := match o with Some x => x | None => a end.

(** [CustomerUpdateSerializer.update] (serializers.py 258-284) *)
Definition update_instance (id : nat) (instance : Customer) (vd : UpdateInput) (now : Time)
  : ST (World S) Exception unit :=
  inst1 ← (match upd_email vd with
           | Some e =>
               let inst := set_email_verify instance None in
               _ ← save_customer_st id inst;
               contact ← query (fun d => get_contact d (username instance));
               _ ← create_email_change_st id (email contact) (Some e) now;
               mret inst
           | None => mret instance
           end);
  _ ← (match upd_mobile vd with
       | Some m =>
           let inst := set_mobile_verify inst1 None in
           _ ← save_customer_st id inst;
           contact ← query (fun d => get_contact d (username instance));
           create_phone_change_st id (mobile contact) (Some m) now
       | None => mret tt
       end);
  owner ← query (fun d => get_owner d (customer_owner instance));
  let owner' := mkPeople (default_to (upd_name vd) (name owner))
                  (default_to (upd_last_name vd) (last_name owner))
                  (default_to (upd_national_code vd) (national_code owner)) in
  save_people_st (default_to (customer_owner instance) 0%nat) owner'.

(** [CustomerViewSet.update] (views.py 36-56).  [requester] is the
    authenticated user of the request ([IsAuthenticated]); nothing compares
    it with [id]. *)
Definition update (requester : option nat) (id : nat) (input : UpdateInput) (now : Time)
  : ST (World S) Exception Response :=
  match requester with
  | None => mret (mkResponse HTTP_401_UNAUTHORIZED NotAuthenticated)
  | Some _ =>
      instance ← query (fun d => get_customer d id);
      v ← gets (fun w => validate_update (db w) input);
      match v with
      | Err fields => mret (bad400 (ValidationFailed fields))
      | Ok vd =>
          _ ← update_instance id instance vd now;
          email_change ← query (fun d => latest_email_change d id);
          mobile_change ← query (fun d => latest_phone_change d id);
          _ ← (match new_email email_change with
               | Some ne => if String.eqb ne "" then mret tt
                            else delay (SendEmailVerification (username instance))
               | None => mret tt
               end);
          _ ← (match new_mobile mobile_change with
               | Some nm => if String.eqb nm "" then mret tt
                            else delay (SendMobileVerificationCode (username instance))
               | None => mret tt
               end);
          mret (mkResponse HTTP_201_CREATED (CustomerDetail id))
      end
  end.

End Handlers.

(** ** Lemmas *)

Section Lemmas.
Context {S : Type} `{TokenService S} (cfg : Config) (is_email : string -> bool).

(** A value the [EmailField] accepts is non-empty and held by no contact. *)
Lemma email_field_Some d raw v :
  email_field is_email d (Some raw) = Ok (Some v) -> v <> ""%string /\ email_taken d v = false.
Proof.
  unfold email_field. case_match eqn:E; [done|]. intros [= <-].
  apply orb_false_iff in E as [E Ht]. apply orb_false_iff in E as [E _].
  apply orb_false_iff in E as [E _]. split; [|done]. intros Hv. by rewrite Hv in E.
Qed.

(** The new value a change request still waits to write, if any. *)
Definition pending_email (ec : EmailChange) : option string :=
  match new_email ec with
  | Some ne => if String.eqb ne "" then None else Some ne
  | None => None
  end.

Lemma save_contact_ok d id c :
  clash_with email d id c = false -> clash_with mobile d id c = false ->
  save_contact d id c = Ok (with_contacts d (<[id := c]> (contacts d))).
Proof. intros He Hm. unfold save_contact. by rewrite He, Hm. Qed.

Lemma email_temps_of_delete d id : email_temps_of (delete_email_temps d id) id = [].
Proof. apply filter_filter_neg. Qed.

Lemma otp_temps_of_delete d id : otp_temps_of (delete_otp_temps d id) id = [].
Proof. apply filter_filter_neg. Qed.

(** A handler that returns before writing leaves the world as it was. *)
Definition answers_unchanged (m : ST (World S) Exception Response) (w : World S) (r : Response) : Prop :=
  m w = (w, Ok r).

Lemma latest_email_change_customer d id ec :
  latest_email_change d id = Ok ec -> email_change_customer ec = id.
Proof.
  unfold latest_email_change. case_match eqn:E; intros [= <-].
  by apply latest_elem, list_elem_of_filter in E as [? _].
Qed.

(** Updating a change request of a customer keeps the customer's log non
    empty. *)
Lemma latest_email_change_save d id ec r :
  latest_email_change d id = Ok ec -> email_change_customer r = id ->
  exists ec', latest_email_change (save_email_change d r) id = Ok ec'.
Proof.
  intros Hec Hr. pose proof (latest_email_change_customer _ _ _ Hec) as Hc.
  unfold latest_email_change in *. destruct (latest _ (email_changes_of d id)) eqn:E; [|done].
  injection Hec as <-. apply latest_elem, list_elem_of_filter in E as [_ Hin].
  case_match eqn:E'; [eauto|]. exfalso. apply latest_None in E'.
  set (f := fun r' => if Nat.eqb (email_change_id r') (email_change_id r) then r else r').
  eapply filter_nil_not_elem_of with (x := f e); [exact E'| |].
  - unfold f. by case_match.
  - by apply list_elem_of_fmap_2.
Qed.

Lemma verify_email_ok (w : World S) id tid cu ec t c now :
  customers (db w) !! id = Some cu ->
  latest_email_change (db w) id = Ok ec ->
  email_verify cu = None ->
  find_email_temp (db w) id tid = Some t ->
  now - email_temp_created_at t <= email_verification_expire_time cfg ->
  contacts (db w) !! username cu = Some c ->
  (forall ne, pending_email ec = Some ne ->
     clash_with email (db w) (username cu) (set_email c (Some ne)) = false /\
     clash_with mobile (db w) (username cu) (set_email c (Some ne)) = false) ->
  let '(w', r) := verify_email cfg id (Some tid) now w in
  r = Ok (ok200 (TokenIssued (snd (for_user (tokens w) id now)))) /\
  customers (db w') !! id = Some (set_is_active (set_email_verify cu (Some now)) true) /\
  email_temps_of (db w') id = [] /\
  contacts (db w') !! username cu =
    Some (match pending_email ec with Some ne => set_email c (Some ne) | None => c end) /\
  (exists ec', latest_email_change (db w') id = Ok ec') /\
  cache w' = cache w.
Proof.
  intros Hcu Hec Hv Ht Hexp Hc Hclash.
  unfold verify_email, get_customer. st_unfold. rewrite Hcu, Hec, Hv, Ht. cbn. zcase; [lia|]. cbn.
  unfold apply_new_email, pending_email in *.
  unfold refresh_token_st, save_email_change_st, delete_email_temps_st, save_customer_st.
  destruct (new_email ec) as [ne|]; [destruct (String.eqb ne "")|]; st_unfold.
  all: unfold get_contact; cbn; rewrite ?Hc; cbn.
  all: try (destruct (Hclash ne eq_refl) as [He Hm]; unfold save_contact_st;
             rewrite save_contact_ok by done; cbn).
  all: cbn [tokens with_db]; destruct (for_user _ id now) as [ts p] eqn:Ef; cbn; split_and!;
    [done | by rewrite lookup_insert_eq | apply filter_filter_neg
    | by rewrite ?lookup_insert_eq | | reflexivity].
  all: eapply latest_email_change_save; [exact Hec|].
  all: apply latest_email_change_customer in Hec; done.
Qed.


(** ** Theorems on the email channel *)

(** C5. Confirming an email ticket: for a customer whose email is not yet
    verified, a ticket of this customer that is not older than
    [EMAIL_VERIFICATION_EXPIRE_TIME] is accepted.  The response carries a
    fresh token pair; the customer is stored with [email_verify = now] and
    [is_active = true]; every email ticket of the customer is deleted; the
    contact's email becomes the pending new email of the latest change
    request, if there is one (and the write does not break a unique
    constraint). *)
Theorem verify_email_success (w : World S) id tid cu ec t c now :
  customers (db w) !! id = Some cu ->
  latest_email_change (db w) id = Ok ec ->
  email_verify cu = None ->
  find_email_temp (db w) id tid = Some t ->
  now - email_temp_created_at t <= email_verification_expire_time cfg ->
  contacts (db w) !! username cu = Some c ->
  (forall ne, pending_email ec = Some ne ->
     clash_with email (db w) (username cu) (set_email c (Some ne)) = false /\
     clash_with mobile (db w) (username cu) (set_email c (Some ne)) = false) ->
  let '(w', r) := verify_email cfg id (Some tid) now w in
  r = Ok (ok200 (TokenIssued (snd (for_user (tokens w) id now)))) /\
  customers (db w') !! id = Some (set_is_active (set_email_verify cu (Some now)) true) /\
  email_temps_of (db w') id = [] /\
  contacts (db w') !! username cu =
    Some (match pending_email ec with Some ne => set_email c (Some ne) | None => c end).
Proof.
  intros. pose proof (verify_email_ok w id tid cu ec t c now) as Hok.
  destruct (verify_email cfg id (Some tid) now w). naive_solver.
Qed.

Lemma verify_email_verified_noop (w : World S) id tid cu ec now v :
  customers (db w) !! id = Some cu -> latest_email_change (db w) id = Ok ec ->
  email_verify cu = Some v ->
  verify_email cfg id (Some tid) now w = (w, Ok (ok200 EmailAlreadyActivated)).
Proof.
  intros Hcu Hec Hv. unfold verify_email, get_customer. st_unfold. by rewrite Hcu, Hec, Hv.
Qed.

(** C14. A confirmed email cannot be confirmed again: after a successful
    [verify_email], a second [verify_email] of the same customer, with any
    ticket and at any time, answers 200 "Email already activated" and
    changes nothing: no second activation, no new token, no email. *)
Theorem verify_email_twice (w : World S) id tid tid' cu ec t c now now' :
  customers (db w) !! id = Some cu ->
  latest_email_change (db w) id = Ok ec ->
  email_verify cu = None ->
  find_email_temp (db w) id tid = Some t ->
  now - email_temp_created_at t <= email_verification_expire_time cfg ->
  contacts (db w) !! username cu = Some c ->
  (forall ne, pending_email ec = Some ne ->
     clash_with email (db w) (username cu) (set_email c (Some ne)) = false /\
     clash_with mobile (db w) (username cu) (set_email c (Some ne)) = false) ->
  let '(w1, _) := verify_email cfg id (Some tid) now w in
  verify_email cfg id (Some tid') now' w1 = (w1, Ok (ok200 EmailAlreadyActivated)).
Proof.
  intros. pose proof (verify_email_ok w id tid cu ec t c now) as Hok.
  destruct (verify_email cfg id (Some tid) now w) as [w1 r1].
  destruct Hok as (_ & Hcu1 & _ & _ & [ec' Hec'] & _); [done..|].
  by eapply verify_email_verified_noop.
Qed.

(** C15. A ticket older than [EMAIL_VERIFICATION_EXPIRE_TIME] is refused
    with 400 "Expired", and the refusal changes nothing. *)
Theorem verify_email_expired (w : World S) id tid cu ec t now :
  customers (db w) !! id = Some cu ->
  latest_email_change (db w) id = Ok ec ->
  email_verify cu = None ->
  find_email_temp (db w) id tid = Some t ->
  email_verification_expire_time cfg < now - email_temp_created_at t ->
  verify_email cfg id (Some tid) now w = (w, Ok (bad400 Expired)).
Proof.
  intros Hcu Hec Hv Ht Hexp. unfold verify_email, get_customer. st_unfold.
  rewrite Hcu, Hec, Hv, Ht. cbn. zcase; [done|lia].
Qed.

(** Changing a contact's email keeps its mobile clear of the other contacts'. *)
Lemma clash_with_mobile_kept d id c v :
  unique_contacts d -> contacts d !! id = Some c -> clash_with mobile d id (set_email c v) = false.
Proof.
  intros Hu Hc. apply not_true_iff_false. intros [[j cj] [Hin Hcl]]%existsb_exists.
  apply andb_true_iff in Hcl as [Hne Hcl]. apply negb_true_iff, Nat.eqb_neq in Hne.
  apply list_elem_of_In, elem_of_map_to_list in Hin.
  destruct (Hu j id cj c Hin Hc Hne) as [_ Hm]. rewrite clashes_sym in Hm. cbn in Hcl. congruence.
Qed.

(** [change_email] below the limit overwrites the contact's email and
    enqueues the job; it keeps the tickets, the customer and the change
    requests. *)
Lemma change_email_sent (w : World S) id raw b cu c now :
  wf (db w) -> email_field is_email (db w) (Some raw) = Ok (Some b) ->
  customers (db w) !! id = Some cu -> email_verify cu = None ->
  (distinct_count email_temp_email (email_temps_of (db w) id) < email_verification_change_limit cfg)%nat ->
  contacts (db w) !! username cu = Some c ->
  exists w1, change_email cfg is_email id (Some raw) now w = (w1, Ok (ok200 EmailSent)) /\
    contacts (db w1) = <[username cu := set_email c (Some b)]> (contacts (db w)) /\
    customers (db w1) = customers (db w) /\ email_temp (db w1) = email_temp (db w) /\
    email_change (db w1) = email_change (db w).
Proof.
  intros Hw Hf Hcu Hv Hn Hc. destruct (email_field_Some _ _ _ Hf) as [Hne Ht].
  assert (Hs : save_contact (db w) (username cu) (set_email c (Some b)) =
               Ok (with_contacts (db w) (<[username cu := set_email c (Some b)]> (contacts (db w))))).
  { unfold save_contact.
    rewrite (clash_with_taken email _ _ _ b); [|exact (prep_nonempty b Hne)|exact Ht].
    by rewrite clash_with_mobile_kept by (done || apply Hw). }
  set (input := Some raw) in *. clearbody input.
  unfold change_email, get_customer, get_contact, save_contact_st, delay. st_unfold.
  rewrite Hf. st_unfold. rewrite Hcu, Hv. cbn.
  rewrite (proj2 (Nat.leb_gt _ _) Hn). cbn. rewrite Hc. cbn. rewrite Hs. cbn.
  by eexists.
Qed.

(** C6. A ticket outlives an email change and its address is never
    compared with the contact's: after [change_email] has overwritten the
    contact's email with a new address [b], a ticket issued before the
    change (its link was mailed to an earlier address) still confirms the
    customer, who is now active with [b] marked verified, before any
    ticket was sent to [b]. *)
Theorem verify_email_stale_ticket (w : World S) id raw b cu c ec t tid now now' :
  wf (db w) ->
  customers (db w) !! id = Some cu -> email_verify cu = None ->
  contacts (db w) !! username cu = Some c ->
  latest_email_change (db w) id = Ok ec -> pending_email ec = None ->
  email_field is_email (db w) (Some raw) = Ok (Some b) ->
  (distinct_count email_temp_email (email_temps_of (db w) id) < email_verification_change_limit cfg)%nat ->
  find_email_temp (db w) id tid = Some t ->
  now' - email_temp_created_at t <= email_verification_expire_time cfg ->
  let '(w1, r1) := change_email cfg is_email id (Some raw) now w in
  let '(w2, r2) := verify_email cfg id (Some tid) now' w1 in
  r1 = Ok (ok200 EmailSent) /\
  (exists p, r2 = Ok (ok200 (TokenIssued p))) /\
  customers (db w2) !! id = Some (set_is_active (set_email_verify cu (Some now')) true) /\
  contacts (db w2) !! username cu = Some (set_email c (Some b)).
Proof.
  intros Hw Hcu Hv Hc Hec Hpend Hf Hn Ht Hexp.
  destruct (change_email_sent w id raw b cu c now Hw Hf Hcu Hv Hn Hc)
    as (w1 & -> & Hc1 & Hcu1 & Ht1 & Hec1).
  pose proof (verify_email_ok w1 id tid cu ec t (set_email c (Some b)) now') as Hok.
  destruct (verify_email cfg id (Some tid) now' w1) as [w2 r2].
  rewrite Hpend in Hok. destruct Hok as (-> & Hcu2 & _ & Hc2 & _); try done.
  - by rewrite Hcu1.
  - by rewrite (latest_email_change_ext _ (db w)).
  - unfold find_email_temp, email_temps_of in *. by rewrite Ht1.
  - rewrite Hc1. apply lookup_insert_eq.
  - split_and!; eauto.
Qed.

(** C23. Resending before the cool-down [EMAIL_VERIFICATION_RESEND_TIME_LIMIT]
    has passed since the newest ticket is refused with 400 and the exact
    remaining time [limit - (now - created_at)], and nothing changes. *)
Theorem resend_email_too_soon (w : World S) id cu t now :
  customers (db w) !! id = Some cu ->
  email_verify cu = None ->
  newest_email_temp (db w) id = Some t ->
  now - email_temp_created_at t < email_verification_resend_time_limit cfg ->
  resend_email cfg id now w =
  (w, Ok (bad400 (YouMustWait
        (email_verification_resend_time_limit cfg - (now - email_temp_created_at t))))).
Proof.
  intros Hcu Hv Ht Hlt. unfold resend_email, get_customer. st_unfold.
  rewrite Hcu, Hv, Ht. cbn. zcase; [done|lia].
Qed.

Lemma clash_with_ext f d d' i c :
  contacts d = contacts d' -> clash_with f d i c = clash_with f d' i c.
Proof. intros E. unfold clash_with. by rewrite E. Qed.

(** A new ticket appended with a time not before the customer's other
    tickets is the newest one. *)
Lemma newest_email_temp_snoc d id t :
  email_temp_customer t = id ->
  (forall t', t' ∈ email_temps_of d id -> email_temp_created_at t' <= email_temp_created_at t) ->
  latest email_temp_created_at
    (filter (fun t' => email_temp_customer t' = id) (email_temp d ++ [t])) = Some t.
Proof.
  intros Hc Hle. rewrite filter_app, filter_cons_True by done. rewrite filter_nil.
  by apply latest_snoc.
Qed.

(** C24. Resend after the cool-down, then the job: the handler answers 200
    "Email resent" and only enqueues [send_email_verification]; when the job
    runs later (at a time not before the customer's tickets) it creates a
    ticket for the contact's current address, and that ticket is the newest
    one, so it is what the next resend measures the cool-down from. *)
Theorem resend_email_new_ticket (w : World S) id cu c e ec t now now' :
  customers (db w) !! id = Some cu ->
  email_verify cu = None ->
  newest_email_temp (db w) id = Some t ->
  email_verification_resend_time_limit cfg <= now - email_temp_created_at t ->
  contacts (db w) !! username cu = Some c ->
  email c = Some e ->
  contact_customer (db w) (username cu) = Ok (id, cu) ->
  latest_email_change (db w) id = Ok ec ->
  (forall t', t' ∈ email_temps_of (db w) id -> email_temp_created_at t' <= now') ->
  let '(w1, r1) := resend_email cfg id now w in
  r1 = Ok (ok200 EmailResent) /\
  db w1 = db w /\
  queue w1 = queue w ++ [SendEmailVerification (username cu)] /\
  let '(w2, r2) := run_job (SendEmailVerification (username cu)) now' w1 in
  r2 = Ok tt /\
  newest_email_temp (db w2) id = Some (mkEmailTemp (next_id (db w)) id e now').
Proof.
  intros Hcu Hv Ht Hge Hc He Hcc Hec Hle.
  unfold resend_email, get_customer. st_unfold. rewrite Hcu, Hv, Ht. cbn. zcase; [lia|]. cbn.
  split_and!; [done..|].
  unfold run_job, send_email_verification, get_contact. st_unfold.
  rewrite Hc, Hcc, He. cbn. erewrite (latest_email_change_ext _ (db w)) by reflexivity.
  rewrite Hec. cbn.
  destruct (email_verify cu), (new_email ec) as [ne|]; try destruct (String.eqb ne "");
    cbn; (split; [done|]); apply newest_email_temp_snoc; done.
Qed.

(** C21. Once the customer's tickets name [EMAIL_VERIFICATION_CHANGE_LIMIT]
    distinct addresses, [change_email] is refused with 400 and nothing
    changes. *)
Theorem change_email_limit (w : World S) id input v cu now :
  email_field is_email (db w) input = Ok v ->
  customers (db w) !! id = Some cu ->
  email_verify cu = None ->
  (email_verification_change_limit cfg <= distinct_count email_temp_email (email_temps_of (db w) id))%nat ->
  change_email cfg is_email id input now w = (w, Ok (bad400 MaxEmailChangeRequestExceeded)).
Proof.
  intros Hf Hcu Hv Hn. unfold change_email, get_customer. st_unfold.
  rewrite Hf. st_unfold. rewrite Hcu, Hv. cbn.
  by rewrite (proj2 (Nat.leb_le _ _) Hn).
Qed.

(** C10. The writes of [verify_email] are not atomic: when the pending new
    address is already another contact's, saving the contact raises
    [IntegrityError] (a 500 response) after the customer was saved as
    verified and active; the tickets and the pending change request are
    left as they were, so the new address can never be confirmed. *)
Theorem verify_email_partial_on_conflict (w : World S) id tid cu ec t c ne now :
  customers (db w) !! id = Some cu ->
  latest_email_change (db w) id = Ok ec ->
  email_verify cu = None ->
  find_email_temp (db w) id tid = Some t ->
  now - email_temp_created_at t <= email_verification_expire_time cfg ->
  contacts (db w) !! username cu = Some c ->
  pending_email ec = Some ne ->
  clash_with email (db w) (username cu) (set_email c (Some ne)) = true ->
  let '(w', r) := verify_email cfg id (Some tid) now w in
  r = Err (IntegrityError "email") /\
  customers (db w') !! id = Some (set_is_active (set_email_verify cu (Some now)) true) /\
  email_temps_of (db w') id = email_temps_of (db w) id /\
  latest_email_change (db w') id = Ok ec.
Proof.
  intros Hcu Hec Hv Ht Hexp Hc Hpend Hclash.
  unfold verify_email, get_customer. st_unfold. rewrite Hcu, Hec, Hv, Ht. cbn. zcase; [lia|]. cbn.
  unfold apply_new_email, pending_email in *.
  destruct (new_email ec) as [ne'|]; [|done]. destruct (String.eqb ne' ""); [done|].
  injection Hpend as <-. unfold save_customer_st, get_contact. st_unfold. rewrite Hc. cbn.
  unfold save_contact_st, save_contact.
  erewrite (clash_with_ext _ _ (db w)) by reflexivity. rewrite Hclash. cbn.
  split_and!; [done|by rewrite lookup_insert_eq|done|done].
Qed.

(** ** Theorems on the mobile channel *)

Definition pending_mobile (pc : PhoneChange) : option string :=
  match new_mobile pc with
  | Some nm => if String.eqb nm "" then None else Some nm
  | None => None
  end.

Lemma newest_otp_temp_snoc d id t :
  otp_temp_customer t = id ->
  (forall t', t' ∈ otp_temps_of d id -> otp_temp_created_at t' <= otp_temp_created_at t) ->
  latest otp_temp_created_at (filter (fun t' => otp_temp_customer t' = id) (otp_temp d ++ [t])) = Some t.
Proof.
  intros Hc Hle. rewrite filter_app, filter_cons_True by done. rewrite filter_nil.
  by apply latest_snoc.
Qed.

(** C26. [verify_mobile] for a customer without any OTP ticket, for instance
    one who signed up with an email only, indexes an empty queryset
    ([temp[0]]) and fails with [IndexError], a 500 response. *)
Theorem verify_mobile_no_ticket (w : World S) id cu pc c now :
  1000 <= c <= 9999 ->
  customers (db w) !! id = Some cu ->
  latest_phone_change (db w) id = Ok pc ->
  mobile_verify cu = None ->
  otp_temps_of (db w) id = [] ->
  verify_mobile cfg id (Some c) now w = (w, Err IndexError).
Proof.
  intros Hc Hcu Hpc Hv Hnil. unfold verify_mobile, get_customer, newest_otp_temp.
  replace (negb _) with false by (symmetry; apply negb_false_iff, andb_true_iff; split; apply Z.leb_le; lia).
  st_unfold. rewrite Hcu, Hpc, Hv, Hnil. done.
Qed.

(** C20. The OTP is a constant: after [send_mobile_verification_code] ran
    (it sends no SMS), submitting [1234] within [OTP_EXPIRE_TIME] verifies
    the customer's mobile and activates the account, whoever submits it. *)
Theorem otp_code_predictable (w : World S) id cu c pc now now' :
  customers (db w) !! id = Some cu ->
  mobile_verify cu = None ->
  contacts (db w) !! username cu = Some c ->
  contact_customer (db w) (username cu) = Ok (id, cu) ->
  latest_phone_change (db w) id = Ok pc ->
  pending_mobile pc = None ->
  (forall t, t ∈ otp_temps_of (db w) id -> otp_temp_created_at t <= now) ->
  now <= now' <= now + otp_expire_time cfg ->
  let '(w1, r1) := send_mobile_verification_code (username cu) now w in
  r1 = Ok tt /\
  let '(w2, r2) := verify_mobile cfg id (Some OTP_CODE) now' w1 in
  r2 = Ok (ok200 (TokenIssued (snd (for_user (tokens w1) id now')))) /\
  customers (db w2) !! id = Some (set_is_active (set_mobile_verify cu (Some now')) true).
Proof.
  intros Hcu Hv Hc Hcc Hpc Hpend Hle Hnow.
  unfold send_mobile_verification_code, get_contact. st_unfold. rewrite Hc, Hcc. cbn.
  split; [done|].
  unfold verify_mobile, get_customer, newest_otp_temp. st_unfold. rewrite Hcu.
  erewrite (latest_phone_change_ext _ (db w)) by reflexivity. rewrite Hpc, Hv. cbn.
  rewrite newest_otp_temp_snoc by done. cbn. zcase; [lia|]. cbn.
  unfold apply_new_mobile, pending_mobile in *.
  destruct (new_mobile pc) as [nm|]; [destruct (String.eqb nm ""); [|done]|]; st_unfold;
    unfold refresh_token_st; st_unfold; destruct (for_user _ id now'); cbn;
    split; [done| |done| ]; by rewrite lookup_insert_eq.
Qed.

(** C25. [change_mobile] has no change limit: for an unverified customer and
    a valid, unused number it always writes the number to the contact and
    enqueues a new code, however many numbers were tried before. *)
Theorem change_mobile_unlimited (w : World S) id cu c raw m now :
  mobile_unique_field (db w) (Some raw) = Ok (Some m) ->
  customers (db w) !! id = Some cu ->
  mobile_verify cu = None ->
  contacts (db w) !! username cu = Some c ->
  clash_with email (db w) (username cu) (set_mobile c (Some m)) = false ->
  clash_with mobile (db w) (username cu) (set_mobile c (Some m)) = false ->
  let '(w', r) := change_mobile id (Some raw) now w in
  r = Ok (ok200 CodeSent) /\
  contacts (db w') !! username cu = Some (set_mobile c (Some m)) /\
  queue w' = queue w ++ [SendMobileVerificationCode (username cu)].
Proof.
  intros Hf Hcu Hv Hc He Hm. unfold change_mobile, get_customer, get_contact. st_unfold.
  unfold mobile_unique_field in *. destruct (Mobile.mobile_field raw); [|done].
  destruct (mobile_taken (db w) a); [done|]. injection Hf as <-. st_unfold. rewrite Hcu, Hv, Hc. cbn.
  unfold save_contact_st. rewrite save_contact_ok by done. cbn.
  split_and!; [done|by rewrite lookup_insert_eq|done].
Qed.

(** ** Theorems on the profile update *)

Lemma save_people_ok d k p :
  people_clash d k p = false -> save_people d k p = Ok (with_people d (<[k := p]> (people d))).
Proof. intros Hp. unfold save_people. by rewrite Hp. Qed.

Lemma people_clash_ext d d' k p :
  people d = people d' -> people_clash d k p = people_clash d' k p.
Proof. intros E. unfold people_clash. by rewrite E. Qed.

Lemma latest_phone_change_snoc d d0 id r :
  mobile_change d = mobile_change d0 ++ [r] -> phone_change_customer r = id ->
  (forall r', r' ∈ phone_changes_of d0 id -> phone_change_created_at r' <= phone_change_created_at r) ->
  latest_phone_change d id = Ok r.
Proof.
  intros E Hc Hle. unfold latest_phone_change, phone_changes_of. rewrite E.
  rewrite filter_app, filter_cons_True, filter_nil by done. by rewrite latest_snoc.
Qed.

Lemma latest_email_change_snoc d d0 id r :
  email_change d = email_change d0 ++ [r] -> email_change_customer r = id ->
  (forall r', r' ∈ email_changes_of d0 id -> email_change_created_at r' <= email_change_created_at r) ->
  latest_email_change d id = Ok r.
Proof.
  intros E Hc Hle. unfold latest_email_change, email_changes_of. rewrite E.
  rewrite filter_app, filter_cons_True, filter_nil by done. by rewrite latest_snoc.
Qed.

Lemma mkPeople_eta p : mkPeople (name p) (last_name p) (national_code p) = p.
Proof. by destruct p. Qed.

(** C19. Changing the mobile of a customer through the profile update clears
    [mobile_verify] and nothing else of the customer: [is_active] and
    [email_verify] keep their values, so an active account stays active
    while its new number is unverified.  The handler answers 201 and
    enqueues a code for the new number. *)
Theorem update_mobile_keeps_active (w : World S) req id cu c k p m m' ec pc now :
  customers (db w) !! id = Some cu ->
  validate_update is_email (db w) (mkUpdateInput None (Some m) None None None) =
    Ok (mkUpdateInput None (Some m') None None None) ->
  m' <> ""%string ->
  contacts (db w) !! username cu = Some c ->
  customer_owner cu = Some k ->
  people (db w) !! k = Some p ->
  people_clash (db w) k p = false ->
  latest_email_change (db w) id = Ok ec ->
  pending_email ec = None ->
  latest_phone_change (db w) id = Ok pc ->
  (forall r, r ∈ phone_changes_of (db w) id -> phone_change_created_at r <= now) ->
  let '(w', r) := update is_email (Some req) id (mkUpdateInput None (Some m) None None None) now w in
  r = Ok (mkResponse HTTP_201_CREATED (CustomerDetail id)) /\
  customers (db w') !! id = Some (set_mobile_verify cu None) /\
  queue w' = queue w ++ [SendMobileVerificationCode (username cu)].
Proof.
  intros Hcu Hval Hm' Hc Hk Hp Hclash Hec Hpend Hpc Hle.
  unfold update, update_instance, get_customer, get_contact, get_owner.
  unfold mbind, ST_bind, mret, ST_ret, query, gets, modify, lift, raise.
  cbn -[validate_update]. rewrite Hcu, Hval. cbn. rewrite Hc, Hk. cbn. rewrite Hp. cbn.
  unfold save_people_st. rewrite mkPeople_eta, save_people_ok
    by (erewrite people_clash_ext; [exact Hclash|reflexivity]).
  cbn. erewrite (latest_email_change_ext _ (db w)) by reflexivity. rewrite Hec. cbn.
  erewrite (latest_phone_change_snoc _ (db w)); [|reflexivity|reflexivity|exact Hle].
  destruct m' as [|a m'']; [done|]. cbn.
  unfold pending_email in Hpend. destruct (new_email ec) as [ne|];
    [destruct (String.eqb ne ""); [|done]|]; st_unfold;
    (split_and!; [done|by rewrite lookup_insert_eq|done]).
Qed.

(** C11. The profile update has no object-level permission check: an
    authenticated requester [req] other than the customer [id] changes the
    customer's email: the customer's [email_verify] is cleared, a change
    request to the requester's chosen address becomes the latest one, and
    the verification mail for it is enqueued (it goes to that address, and
    its link then writes that address into the customer's contact). *)
Theorem update_other_customer (w : World S) req id cu c k p e e' pc now :
  req <> id ->
  customers (db w) !! id = Some cu ->
  validate_update is_email (db w) (mkUpdateInput (Some e) None None None None) =
    Ok (mkUpdateInput (Some e') None None None None) ->
  e' <> ""%string ->
  contacts (db w) !! username cu = Some c ->
  customer_owner cu = Some k ->
  people (db w) !! k = Some p ->
  people_clash (db w) k p = false ->
  latest_phone_change (db w) id = Ok pc ->
  pending_mobile pc = None ->
  (forall r, r ∈ email_changes_of (db w) id -> email_change_created_at r <= now) ->
  let '(w', r) := update is_email (Some req) id (mkUpdateInput (Some e) None None None None) now w in
  r = Ok (mkResponse HTTP_201_CREATED (CustomerDetail id)) /\
  customers (db w') !! id = Some (set_email_verify cu None) /\
  latest_email_change (db w') id =
    Ok (mkEmailChange (next_id (db w)) id (prep (email c)) (Some e') now) /\
  queue w' = queue w ++ [SendEmailVerification (username cu)].
Proof.
  intros Hreq Hcu Hval He' Hc Hk Hp Hclash Hpc Hpend Hle.
  unfold update, update_instance, get_customer, get_contact, get_owner.
  unfold mbind, ST_bind, mret, ST_ret, query, gets, modify, lift, raise.
  cbn -[validate_update]. rewrite Hcu, Hval. cbn. rewrite Hc, Hk. cbn. rewrite Hp. cbn.
  unfold save_people_st. rewrite mkPeople_eta, save_people_ok
    by (erewrite people_clash_ext; [exact Hclash|reflexivity]).
  cbn. erewrite (latest_email_change_snoc _ (db w)); [|reflexivity|reflexivity|exact Hle].
  erewrite (latest_phone_change_ext _ (db w)) by reflexivity. rewrite Hpc.
  destruct e' as [|a e'']; [done|]. cbn.
  unfold pending_mobile in Hpend.
  destruct (new_mobile pc) as [nm|]; [destruct (String.eqb nm ""); [|done]|]; st_unfold;
    (split_and!; [done|by rewrite lookup_insert_eq
      |eapply latest_email_change_snoc; [reflexivity|reflexivity|exact Hle]|done]).
Qed.

End Lemmas.

(** ** Witnesses on a concrete store *)

Import Jwt.

(** Customer [1] of contact [0] (address [addr]), owner [7], unverified,
    with the email tickets [tickets], the email change request [change]
    and the empty phone change request [6] of signup; [others] are further
    contacts.  Identifiers below 8 are taken. *)
Definition demo_customer : Customer := mkCustomer 0 "pbkdf2$hash" false None None 0 (Some 7%nat).
Definition demo_people : People := mkPeople "" "" "0000000000".
Definition demo_ticket (id : nat) (ticket_addr : string) (at_ : Time) : EmailTemp :=
  mkEmailTemp id 1 ticket_addr at_.
Definition demo_change : EmailChange := mkEmailChange 2 1 None None 0.
Definition demo_phone_change : PhoneChange := mkPhoneChange 6 1 None None 0.
Definition demo_contact (addr : option string) : Contact := mkContact addr None None.

Definition demo_db (addr : option string) (tickets : list EmailTemp) (change : EmailChange)
    (others : gmap nat Contact) : DB :=
  mkDB (<[0%nat := demo_contact addr]> others) (<[1%nat := demo_customer]> ∅)
    (<[7%nat := demo_people]> ∅) tickets [] [change] [demo_phone_change] 8.

Definition demo_world (d : DB) : World Jwt.State :=
  mkWorld d (Jwt.mkState [] [] ∅ 0) Cache.Cache.empty [] [].

(** The usual store: address [old@mail.test] and one ticket [3] for it. *)
Definition demo_w : World Jwt.State :=
  demo_world (demo_db (Some "old@mail.test"%string) [demo_ticket 3 "old@mail.test" 0] demo_change ∅).

Definition accept_all (_ : string) : bool := true.

Lemma verify_email_success_witness :
  let '(w', r) := verify_email default_config 1 (Some 3%nat) 10 demo_w in
  r = Ok (ok200 (TokenIssued (snd (for_user (tokens demo_w) 1 10)))) /\
  customers (db w') !! 1%nat = Some (set_is_active (set_email_verify demo_customer (Some 10)) true) /\
  email_temps_of (db w') 1 = [] /\
  contacts (db w') !! 0%nat = Some (demo_contact (Some "old@mail.test"%string)).
Proof.
  apply (verify_email_success default_config _ 1 3 demo_customer demo_change
           (demo_ticket 3 "old@mail.test" 0) (demo_contact (Some "old@mail.test"%string)) 10);
    try reflexivity.
  - vm_compute. discriminate.
  - intros ne Hne. discriminate Hne.
Defined.

Lemma verify_email_twice_witness :
  let '(w1, _) := verify_email default_config 1 (Some 3%nat) 10 demo_w in
  verify_email default_config 1 (Some 9%nat) 500 w1 = (w1, Ok (ok200 EmailAlreadyActivated)).
Proof.
  apply (verify_email_twice default_config _ 1 3 9 demo_customer demo_change
           (demo_ticket 3 "old@mail.test" 0) (demo_contact (Some "old@mail.test"%string)) 10 500);
    try reflexivity.
  - vm_compute. discriminate.
  - intros ne Hne. discriminate Hne.
Defined.

Lemma verify_email_expired_witness :
  verify_email default_config 1 (Some 3%nat) (seconds 101) demo_w = (demo_w, Ok (bad400 Expired)).
Proof.
  apply (verify_email_expired default_config _ 1 3 demo_customer demo_change
           (demo_ticket 3 "old@mail.test" 0)); reflexivity.
Defined.

(** The contact of [demo_w] changes its email to [new@mail.test]; ticket
    [3], mailed to [old@mail.test], then confirms it. *)
Lemma verify_email_stale_ticket_witness :
  let '(w1, r1) := change_email default_config accept_all 1 (Some "new@mail.test"%string) 5 demo_w in
  let '(w2, r2) := verify_email default_config 1 (Some 3%nat) 10 w1 in
  r1 = Ok (ok200 EmailSent) /\
  (exists p, r2 = Ok (ok200 (TokenIssued p))) /\
  customers (db w2) !! 1%nat = Some (set_is_active (set_email_verify demo_customer (Some 10)) true) /\
  contacts (db w2) !! username demo_customer =
    Some (set_email (demo_contact (Some "old@mail.test"%string)) (Some "new@mail.test"%string)).
Proof.
  apply (verify_email_stale_ticket default_config accept_all demo_w 1 "new@mail.test" "new@mail.test"
           demo_customer (demo_contact (Some "old@mail.test"%string)) demo_change
           (demo_ticket 3 "old@mail.test" 0) 3 5 10); try reflexivity.
  - wf_by_computation.
  - apply (proj1 (Nat.ltb_lt _ _)). vm_compute. reflexivity.
  - vm_compute. discriminate.
Defined.


Lemma resend_email_too_soon_witness :
  resend_email default_config 1 (seconds 40) demo_w =
  (demo_w, Ok (bad400 (YouMustWait (seconds 100 - (seconds 40 - 0))))).
Proof.
  apply (resend_email_too_soon default_config _ 1 demo_customer (demo_ticket 3 "old@mail.test" 0));
    reflexivity.
Defined.

Lemma resend_email_new_ticket_witness :
  let '(w1, r1) := resend_email default_config 1 (seconds 200) demo_w in
  r1 = Ok (ok200 EmailResent) /\
  db w1 = db demo_w /\
  queue w1 = queue demo_w ++ [SendEmailVerification 0] /\
  let '(w2, r2) := run_job (SendEmailVerification 0) (seconds 300) w1 in
  r2 = Ok tt /\
  newest_email_temp (db w2) 1 = Some (mkEmailTemp 8 1 "old@mail.test" (seconds 300)).
Proof.
  apply (resend_email_new_ticket default_config demo_w 1 demo_customer
           (demo_contact (Some "old@mail.test"%string)) "old@mail.test" demo_change
           (demo_ticket 3 "old@mail.test" 0) (seconds 200) (seconds 300)); try reflexivity.
  - vm_compute. discriminate.
  - intros t' Ht'. vm_compute in Ht'. apply list_elem_of_singleton in Ht' as ->.
    vm_compute. discriminate.
Defined.

(** Three tickets for three different addresses. *)
Definition demo_w_three : World Jwt.State :=
  demo_world (demo_db (Some "c@mail.test"%string)
    [demo_ticket 3 "a@mail.test" 0; demo_ticket 4 "b@mail.test" 1; demo_ticket 5 "c@mail.test" 2]
    demo_change ∅).

Lemma change_email_limit_witness :
  change_email default_config accept_all 1 (Some "d@mail.test"%string) 10 demo_w_three =
  (demo_w_three, Ok (bad400 MaxEmailChangeRequestExceeded)).
Proof.
  apply (change_email_limit default_config accept_all _ 1 (Some "d@mail.test"%string)
           (Some "d@mail.test"%string) demo_customer); reflexivity.
Defined.

(** The pending change names [taken@mail.test], which contact [5] holds. *)
Definition demo_change_taken : EmailChange :=
  mkEmailChange 2 1 (Some "old@mail.test"%string) (Some "taken@mail.test"%string) 0.
Definition demo_w_taken : World Jwt.State :=
  demo_world (demo_db (Some "old@mail.test"%string) [demo_ticket 3 "taken@mail.test" 0]
    demo_change_taken (<[5%nat := demo_contact (Some "taken@mail.test"%string)]> ∅)).

Lemma verify_email_partial_on_conflict_witness :
  let '(w', r) := verify_email default_config 1 (Some 3%nat) 10 demo_w_taken in
  r = Err (IntegrityError "email") /\
  customers (db w') !! 1%nat = Some (set_is_active (set_email_verify demo_customer (Some 10)) true) /\
  email_temps_of (db w') 1 = email_temps_of (db demo_w_taken) 1 /\
  latest_email_change (db w') 1 = Ok demo_change_taken.
Proof.
  apply (verify_email_partial_on_conflict default_config _ 1 3 demo_customer demo_change_taken
           (demo_ticket 3 "taken@mail.test" 0) (demo_contact (Some "old@mail.test"%string))
           "taken@mail.test" 10); try reflexivity.
  vm_compute. discriminate.
Defined.

Lemma verify_mobile_no_ticket_witness :
  verify_mobile default_config 1 (Some 1234) 10 demo_w = (demo_w, Err IndexError).
Proof.
  apply (verify_mobile_no_ticket default_config _ 1 demo_customer demo_phone_change); try reflexivity.
  lia.
Defined.

Lemma otp_code_predictable_witness :
  let '(w1, r1) := send_mobile_verification_code 0 10 demo_w in
  r1 = Ok tt /\
  let '(w2, r2) := verify_mobile default_config 1 (Some OTP_CODE) 20 w1 in
  r2 = Ok (ok200 (TokenIssued (snd (for_user (tokens w1) 1 20)))) /\
  customers (db w2) !! 1%nat = Some (set_is_active (set_mobile_verify demo_customer (Some 20)) true).
Proof.
  apply (otp_code_predictable default_config _ 1 demo_customer
           (demo_contact (Some "old@mail.test"%string)) demo_phone_change 10 20); try reflexivity.
  - intros t Ht. vm_compute in Ht. by apply elem_of_nil in Ht.
  - unfold default_config, seconds. simpl. lia.
Defined.

Lemma change_mobile_unlimited_witness :
  let '(w', r) := change_mobile 1 (Some "09121234567"%string) 10 demo_w in
  r = Ok (ok200 CodeSent) /\
  contacts (db w') !! 0%nat =
    Some (set_mobile (demo_contact (Some "old@mail.test"%string)) (Some "09121234567"%string)) /\
  queue w' = queue demo_w ++ [SendMobileVerificationCode 0].
Proof.
  apply (change_mobile_unlimited _ 1 demo_customer (demo_contact (Some "old@mail.test"%string))
           "09121234567" "09121234567" 10); reflexivity.
Defined.

Lemma update_mobile_keeps_active_witness :
  let '(w', r) := update accept_all (Some 1%nat) 1
    (mkUpdateInput None (Some "09121234567"%string) None None None) 10 demo_w in
  r = Ok (mkResponse HTTP_201_CREATED (CustomerDetail 1)) /\
  customers (db w') !! 1%nat = Some (set_mobile_verify demo_customer None) /\
  queue w' = queue demo_w ++ [SendMobileVerificationCode 0].
Proof.
  apply (update_mobile_keeps_active accept_all demo_w 1 1 demo_customer
           (demo_contact (Some "old@mail.test"%string)) 7 demo_people "09121234567"
           "09121234567" demo_change demo_phone_change 10); try reflexivity.
  - discriminate.
  - intros r Hr. vm_compute in Hr. apply list_elem_of_singleton in Hr as ->. vm_compute. discriminate.
Defined.

Lemma update_other_customer_witness :
  let '(w', r) := update accept_all (Some 9%nat) 1
    (mkUpdateInput (Some "evil@mail.test"%string) None None None None) 10 demo_w in
  r = Ok (mkResponse HTTP_201_CREATED (CustomerDetail 1)) /\
  customers (db w') !! 1%nat = Some (set_email_verify demo_customer None) /\
  latest_email_change (db w') 1 =
    Ok (mkEmailChange 8 1 (prep (Some "old@mail.test"%string)) (Some "evil@mail.test"%string) 10) /\
  queue w' = queue demo_w ++ [SendEmailVerification 0].
Proof.
  apply (update_other_customer accept_all demo_w 9 1 demo_customer
           (demo_contact (Some "old@mail.test"%string)) 7 demo_people "evil@mail.test"
           "evil@mail.test" demo_phone_change 10); try reflexivity.
  - discriminate.
  - discriminate.
  - intros r Hr. vm_compute in Hr. apply list_elem_of_singleton in Hr as ->. vm_compute. discriminate.
Defined.

End Verification.
