(* ===== verification/Signin.v ===== *)
(** * Sign-in and its rate limiter ([views.py] [signin], [SigninSerializer]
    of [serializers.py])

    [signin] validates its input, asks reCAPTCHA when it is enabled, reads
    the failure counter of the key [LOGIN_FAILURES_OF_<identifier>_AT_<ip>]
    from the cache, refuses when it reached 4, authenticates, and then
    writes: a failure sets the counter to one more than it read with a
    fresh ten-minute timeout, a success deletes it.  The handler is written
    as its two halves, [signin_read] (everything up to [auth.authenticate])
    and [signin_write] (from [if not customer:] on), so that the requests of
    several clients can be interleaved between the read and the write as
    the threads of one server process are: the default [LocMemCache] is
    shared by the threads of a process, not across processes.  The reCAPTCHA verdict is an
    input here; [System.handle] computes it with
    [Captcha.validate_recaptcha].  Besides the lockout and the counter
    update, the theorems show that a lockout ends when its cache entry
    expires ([signin_lockout_expires]). *)

From S2P Require Import Prelude Validators Store Session Cache Tasks Auth Verification.
Import Store Session Tasks Auth Verification.

Module Signin.

(** The request body: [None] is an absent key. *)
Record SigninInput := mkSigninInput {
  si_email : option string;
  si_mobile : option string;
  si_password : option string;
  si_recaptcha : option string;
}.

(** [serializer.validated_data] *)
Record SigninData := mkSigninData {
  sd_email : option string;
  sd_mobile : option string;
  sd_password : string;
  sd_recaptcha : option string;
}.

(** [lockout_time_in_mins] and the threshold of [if auth_failures >= 4]. *)
Definition lockout_time_in_mins : Z := 10.
Definition LOCKOUT_THRESHOLD : Z := 4.

(** ["LOGIN_FAILURES_OF_%s_AT_%s" % (username, source_ip)]; a missing
    [REMOTE_ADDR] formats as [None]. *)
Definition auth_failure_key (username : string) (source_ip : option string) : string :=
  "LOGIN_FAILURES_OF_" ++ username ++ "_AT_" ++
  match source_ip with Some ip => ip | None => "None" end.

(** [username = email if email else mobile if mobile else ""] *)
Definition login_username (vd : SigninData) : string :=
  match prep (sd_email vd) with
  | Some e => e
  | None => match prep (sd_mobile vd) with Some m => m | None => "" end
  end.

Section Handler.
Context {S : Type} `{TokenService S} `{PasswordHasher}.
Context (cfg : Config) (is_email : string -> bool).

(** A [CharField] with [allow_blank=False] and [trim_whitespace=True]. *)
Definition char_field_strict (field : string) (required : bool) (check : string -> bool)
    (input : option string) : result (option string) (list string) :=
  match input with
  | None => if required then Err [field] else Ok None
  | Some raw =>
      let v := Mobile.strip raw in
      if String.eqb v "" || negb (check v) then Err [field] else Ok (Some v)
  end.

(** [SigninSerializer]: the fields in declaration order, then [validate]. *)
Definition validate_signin (i : SigninInput) : result SigninData (list string) :=
  let e := char_field_strict "email" false is_email (si_email i) in
  let m := char_field_strict "mobile" false Mobile.mobile_regex (si_mobile i) in
  let p := char_field_strict "password" true (fun _ => true) (si_password i) in
  let r := char_field_strict "recaptcha" false (fun _ => true) (si_recaptcha i) in
  match e, m, p, r with
  | Ok e, Ok m, Ok (Some p), Ok r =>
      if recaptcha_enabled cfg && bool_decide (r = None) then Err ["recaptcha"%string]
      else match e, m with
           | None, None => Err ["non_field_errors"%string]
           | Some _, Some _ => Err ["non_field_errors"%string]
           | _, _ => Ok (mkSigninData e m p r)
           end
  | _, _, _, _ =>
      Err (field_errors e ++ field_errors m ++ field_errors p ++ field_errors r)
  end.

Definition unauthorized (b : Body) : Response := mkResponse HTTP_401_UNAUTHORIZED b.

(** What a request has read when it reaches line 254. *)
Record Pending := mkPending {
  p_key : string;
  p_failures : Z;
  p_customer : option (nat * Customer);
}.

(** Lines 227-252: the counter is read, then the password is checked. *)
Definition signin_read (source_ip : option string) (vd : SigninData) (now : Time)
  : ST (World S) Exception (Response + Pending) :=
  let key := auth_failure_key (login_username vd) source_ip in
  auth_failures ← gets (fun w => default 0 (Cache.get (cache w) key now));
  if LOCKOUT_THRESHOLD <=? auth_failures
  then mret (inl (unauthorized (LockedOut lockout_time_in_mins)))
  else customer ← query (authenticate (sd_email vd) (sd_mobile vd) (sd_password vd));
       mret (inr (mkPending key auth_failures customer)).

(** Lines 254-277. *)
Definition signin_write (p : Pending) (now : Time) : ST (World S) Exception Response :=
  match p_customer p with
  | None =>
      _ ← modify (fun w => with_cache w (Cache.set (cache w) (p_key p) (p_failures p + 1)
                                           (seconds (lockout_time_in_mins * 60)) now));
      mret (unauthorized (InvalidUsernamePassword (p_failures p)))
  | Some (k, cu) =>
      _ ← modify (fun w => with_cache w (Cache.delete (cache w) (p_key p)));
      if negb (is_active cu) then mret (unauthorized CustomerAccountDisabled)
      else token ← refresh_token_st k now;
           mret (ok200 (TokenIssued token))
  end.

(** [signin] (views.py 212-277); [captcha_ok] is the verdict of
    [utils.validate_recaptcha] on the submitted token. *)
Definition signin (captcha_ok : bool) (source_ip : option string) (input : SigninInput) (now : Time)
  : ST (World S) Exception Response :=
  match validate_signin input with
  | Err fs => mret (bad400 (ValidationFailed fs))
  | Ok vd =>
      if recaptcha_enabled cfg && negb captcha_ok then mret (unauthorized WrongCaptcha)
      else r ← signin_read source_ip vd now;
           match r with
           | inl resp => mret resp
           | inr p => signin_write p now
           end
  end.

(** Several requests that all read before any of them writes. *)
Fixpoint signin_reads (source_ip : option string) (vds : list SigninData) (now : Time)
  : ST (World S) Exception (list (Response + Pending)) :=
  match vds with
  | [] => mret []
  | vd :: rest => r ← signin_read source_ip vd now; rs ← signin_reads source_ip rest now; mret (r :: rs)
  end.

Fixpoint signin_writes (rs : list (Response + Pending)) (now : Time)
  : ST (World S) Exception (list Response) :=
  match rs with
  | [] => mret []
  | inl resp :: rest => out ← signin_writes rest now; mret (resp :: out)
  | inr p :: rest => resp ← signin_write p now; out ← signin_writes rest now; mret (resp :: out)
  end.

(** [k] clients send their requests together: every request reads the
    counter and checks its password at [now], then every request writes at
    [now'] (the password hash takes time; the order of the writes does not
    matter, they all write the same value). *)
Definition signin_batch (source_ip : option string) (vds : list SigninData) (now now' : Time)
  : ST (World S) Exception (list Response) :=
  rs ← signin_reads source_ip vds now; signin_writes rs now'.

(** Requests one after the other. *)
Fixpoint signin_seq (captcha_ok : bool) (source_ip : option string) (reqs : list (SigninInput * Time))
  : ST (World S) Exception (list Response) :=
  match reqs with
  | [] => mret []
  | (i, t) :: rest =>
      r ← signin captcha_ok source_ip i t; rs ← signin_seq captcha_ok source_ip rest; mret (r :: rs)
  end.

End Handler.

Section Lemmas.
Context {S : Type} `{TokenService S} `{PasswordHasher}.
Context (cfg : Config) (is_email : string -> bool).

(** The counter [signin] reads. *)
Definition counter (c : Cache.Cache) (key : string) (now : Time) : Z :=
  default 0 (Cache.get c key now).

(** [i] validates to data whose counter key is [key]. *)
Definition keyed (source_ip : option string) (key : string) (i : SigninInput) (vd : SigninData) : Prop :=
  validate_signin cfg is_email i = Ok vd /\ auth_failure_key (login_username vd) source_ip = key.

(** ... and its credentials are refused in the store [d]. *)
Definition refused (d : DB) (vd : SigninData) : Prop :=
  authenticate (sd_email vd) (sd_mobile vd) (sd_password vd) d = Ok None.

Definition captcha_passes (captcha_ok : bool) : Prop :=
  recaptcha_enabled cfg = false \/ captcha_ok = true.

Lemma captcha_passes_eq captcha_ok :
  captcha_passes captcha_ok -> recaptcha_enabled cfg && negb captcha_ok = false.
Proof. by intros [-> | ->]; [|rewrite andb_false_r]. Qed.

Lemma signin_read_locked (w : World S) ip vd now :
  LOCKOUT_THRESHOLD <= counter (cache w) (auth_failure_key (login_username vd) ip) now ->
  signin_read ip vd now w = (w, Ok (inl (unauthorized (LockedOut lockout_time_in_mins)))).
Proof. intros Hn. unfold signin_read, counter in *. st_unfold. zcase; [done|lia]. Qed.

Lemma signin_read_open (w : World S) ip vd now c :
  counter (cache w) (auth_failure_key (login_username vd) ip) now < LOCKOUT_THRESHOLD ->
  authenticate (sd_email vd) (sd_mobile vd) (sd_password vd) (db w) = Ok c ->
  signin_read ip vd now w =
    (w, Ok (inr (mkPending (auth_failure_key (login_username vd) ip)
                   (counter (cache w) (auth_failure_key (login_username vd) ip) now) c))).
Proof. intros Hn Ha. unfold signin_read, counter in *. st_unfold. zcase; [lia|]. by rewrite Ha. Qed.

Lemma signin_write_refused (w : World S) key n now :
  signin_write (mkPending key n None) now w =
    (with_cache w (Cache.set (cache w) key (n + 1) (seconds (lockout_time_in_mins * 60)) now),
     Ok (unauthorized (InvalidUsernamePassword n))).
Proof. done. Qed.

Lemma signin_unfold (w : World S) captcha_ok ip i vd now :
  captcha_passes captcha_ok -> validate_signin cfg is_email i = Ok vd ->
  signin cfg is_email captcha_ok ip i now w =
    (r ← signin_read ip vd now;
     match r with inl resp => mret resp | inr p => signin_write p now end) w.
Proof. intros Hc Hv. unfold signin. by rewrite Hv, captcha_passes_eq. Qed.

(** One refused attempt below the threshold. *)
Lemma signin_refused_step (w : World S) captcha_ok ip key i vd now n :
  captcha_passes captcha_ok -> keyed ip key i vd -> refused (db w) vd ->
  counter (cache w) key now = n -> n < LOCKOUT_THRESHOLD ->
  signin cfg is_email captcha_ok ip i now w =
    (with_cache w (Cache.set (cache w) key (n + 1) (seconds (lockout_time_in_mins * 60)) now),
     Ok (unauthorized (InvalidUsernamePassword n))).
Proof.
  intros Hc [Hv Hk] Hr Hn Hlt. rewrite (signin_unfold _ _ _ _ vd) by done.
  subst key. rewrite ST_bind_Ok with (s' := w) (a := inr _) by (apply signin_read_open; [lia|exact Hr]).
  by rewrite Hn.
Qed.

Lemma signin_locked_step (w : World S) captcha_ok ip key i vd now :
  captcha_passes captcha_ok -> keyed ip key i vd ->
  LOCKOUT_THRESHOLD <= counter (cache w) key now ->
  signin cfg is_email captcha_ok ip i now w = (w, Ok (unauthorized (LockedOut lockout_time_in_mins))).
Proof.
  intros Hc [Hv Hk] Hn. rewrite (signin_unfold _ _ _ _ vd) by done. subst key.
  by rewrite ST_bind_Ok with (s' := w) (a := inl _) by (by apply signin_read_locked).
Qed.

Lemma counter_set (c : Cache.Cache) key v now now' :
  now <= now' < now + seconds (lockout_time_in_mins * 60) ->
  counter (Cache.set c key v (seconds (lockout_time_in_mins * 60)) now) key now' = v.
Proof. intros Ht. unfold counter. by rewrite Cache.get_set by lia. Qed.

Lemma signin_seq_cons (w w1 : World S) captcha_ok ip i t rest r :
  signin cfg is_email captcha_ok ip i t w = (w1, Ok r) ->
  snd (signin_seq cfg is_email captcha_ok ip ((i, t) :: rest) w) =
  match snd (signin_seq cfg is_email captcha_ok ip rest w1) with
  | Ok rs => Ok (r :: rs)
  | Err e => Err e
  end.
Proof.
  intros Hs. cbn [signin_seq]. rewrite (ST_bind_Ok _ _ _ _ _ Hs).
  unfold mbind, ST_bind, mret, ST_ret. by destruct (signin_seq _ _ _ _ rest w1) as [? [|]].
Qed.

Lemma signin_reads_open (w : World S) ip key vds now n :
  Forall (fun vd => auth_failure_key (login_username vd) ip = key /\ refused (db w) vd) vds ->
  counter (cache w) key now = n -> n < LOCKOUT_THRESHOLD ->
  signin_reads ip vds now w = (w, Ok (replicate (length vds) (inr (mkPending key n None)))).
Proof.
  intros Hall Hn Hlt. induction Hall as [|vd vds [Hk Hr] Hall IH]; [done|]. cbn [signin_reads].
  rewrite ST_bind_Ok with (s' := w) (a := inr (mkPending key n None)).
  - rewrite ST_bind_Ok with (s' := w) (a := replicate (length vds) (inr (mkPending key n None)))
      by exact IH. done.
  - subst key n. by apply signin_read_open.
Qed.

Lemma signin_writes_refused (w : World S) key n m now' :
  exists c, signin_writes (replicate (Nat.succ m) (inr (mkPending key n None))) now' w =
    (with_cache w (Cache.set c key (n + 1) (seconds (lockout_time_in_mins * 60)) now'),
     Ok (replicate (Nat.succ m) (unauthorized (InvalidUsernamePassword n)))).
Proof.
  revert w. induction m as [|m IH]; intros w.
  - exists (cache w). done.
  - destruct (IH (with_cache w (Cache.set (cache w) key (n + 1) (seconds (lockout_time_in_mins * 60)) now')))
      as [c Hc].
    exists c. rewrite (replicate_S (Nat.succ m)), (replicate_S (Nat.succ m) (unauthorized _)).
    cbn [signin_writes].
    rewrite ST_bind_Ok with (s' := with_cache w (Cache.set (cache w) key (n + 1)
                                   (seconds (lockout_time_in_mins * 60)) now'))
      (a := unauthorized (InvalidUsernamePassword n)) by apply signin_write_refused.
    by rewrite (ST_bind_Ok _ _ _ _ _ Hc).
Qed.

(** The second half never answers a lockout. *)
Lemma signin_write_not_locked (w : World S) p now m :
  (signin_write p now w).2 <> Ok (unauthorized (LockedOut m)).
Proof.
  unfold signin_write. destruct (p_customer p) as [[k cu]|]; st_unfold; [|done].
  destruct (is_active cu); [|done]. unfold refresh_token_st. st_unfold.
  by destruct (for_user _ _ _).
Qed.

(** An entry whose expiry has passed reads as no failure. *)
Lemma counter_expired (c : Cache.Cache) key v e now :
  Cache.entries c !! key = Some (v, e) -> e <= now -> counter c key now = 0.
Proof. intros He Ht. unfold counter, Cache.get. rewrite He. zcase; [lia|done]. Qed.

Lemma counter_live (c : Cache.Cache) key v e now :
  Cache.entries c !! key = Some (v, e) -> now < e -> counter c key now = v.
Proof. intros He Ht. unfold counter, Cache.get. rewrite He. zcase; [done|lia]. Qed.

(** C3. Four refused attempts for one identifier from one address, each
    less than [lockout_time_in_mins] after the one before, are answered
    "Invalid username/password" with the failure counts 0 to 3, and lock the
    fifth attempt out even with the right password.  The timeout restarts at
    every failure, so the four may be spread over up to forty minutes. *)
Theorem signin_lockout_after_four_failures (w : World S) captcha_ok ip key
    i1 i2 i3 i4 i5 vd1 vd2 vd3 vd4 vd5 t1 t2 t3 t4 t5 :
  captcha_passes captcha_ok -> counter (cache w) key t1 = 0 ->
  keyed ip key i1 vd1 -> keyed ip key i2 vd2 -> keyed ip key i3 vd3 ->
  keyed ip key i4 vd4 -> keyed ip key i5 vd5 ->
  refused (db w) vd1 -> refused (db w) vd2 -> refused (db w) vd3 -> refused (db w) vd4 ->
  t1 <= t2 < t1 + seconds (lockout_time_in_mins * 60) ->
  t2 <= t3 < t2 + seconds (lockout_time_in_mins * 60) ->
  t3 <= t4 < t3 + seconds (lockout_time_in_mins * 60) ->
  t4 <= t5 < t4 + seconds (lockout_time_in_mins * 60) ->
  snd (signin_seq cfg is_email captcha_ok ip [(i1, t1); (i2, t2); (i3, t3); (i4, t4); (i5, t5)] w) =
  Ok [unauthorized (InvalidUsernamePassword 0); unauthorized (InvalidUsernamePassword 1);
      unauthorized (InvalidUsernamePassword 2); unauthorized (InvalidUsernamePassword 3);
      unauthorized (LockedOut lockout_time_in_mins)].
Proof.
  intros Hc Hz K1 K2 K3 K4 K5 R1 R2 R3 R4 T2 T3 T4 T5.
  erewrite signin_seq_cons; [|eapply (signin_refused_step _ _ _ _ _ _ _ 0); eauto; done].
  erewrite signin_seq_cons; [|eapply (signin_refused_step _ _ _ _ _ _ _ 1); eauto;
    [apply counter_set; lia|done]].
  erewrite signin_seq_cons; [|eapply (signin_refused_step _ _ _ _ _ _ _ 2); eauto;
    [apply counter_set; lia|done]].
  erewrite signin_seq_cons; [|eapply (signin_refused_step _ _ _ _ _ _ _ 3); eauto;
    [apply counter_set; lia|done]].
  erewrite signin_seq_cons; [|eapply signin_locked_step; eauto;
    cbn [cache with_cache]; by rewrite counter_set by lia].
  reflexivity.
Qed.

(** C16. A successful sign-in below the threshold deletes the failure
    counter of its key and answers 200 with a new token pair; a refused one
    sets the counter to one more than it read, with a timeout of
    [lockout_time_in_mins] counted from this attempt. *)
Theorem signin_counter_update (w : World S) captcha_ok ip key i vd now :
  captcha_passes captcha_ok -> keyed ip key i vd ->
  counter (cache w) key now < LOCKOUT_THRESHOLD ->
  let '(w', r) := signin cfg is_email captcha_ok ip i now w in
  db w' = db w /\
  match authenticate (sd_email vd) (sd_mobile vd) (sd_password vd) (db w) with
  | Ok (Some (k, cu)) =>
      (forall t, Cache.get (cache w') key t = None) /\
      r = Ok (if is_active cu then ok200 (TokenIssued (snd (for_user (tokens w) k now)))
              else unauthorized CustomerAccountDisabled)
  | Ok None =>
      (forall t, now <= t < now + seconds (lockout_time_in_mins * 60) ->
                 counter (cache w') key t = counter (cache w) key now + 1) /\
      r = Ok (unauthorized (InvalidUsernamePassword (counter (cache w) key now)))
  | Err e => r = Err e
  end.
Proof.
  intros Hc [Hv Hk] Hlt. rewrite (signin_unfold _ _ _ _ vd) by done. subst key.
  destruct (authenticate _ _ _ (db w)) as [[[k cu]|]|e] eqn:Ea.
  - rewrite ST_bind_Ok with (s' := w) (a := inr _) by (apply signin_read_open; [lia|exact Ea]).
    cbn. destruct (is_active cu); unfold refresh_token_st; st_unfold.
    + destruct (for_user _ _ _) as [ts p] eqn:Ef. cbn.
      split_and!; [done| |done]. intros t. apply Cache.get_delete.
    + split_and!; [done| |done]. intros t. apply Cache.get_delete.
  - rewrite ST_bind_Ok with (s' := w) (a := inr _) by (apply signin_read_open; [lia|exact Ea]).
    cbn. st_unfold. split_and!; [done| |done]. intros t Ht. by apply counter_set.
  - unfold signin_read. st_unfold. unfold counter in Hlt. zcase; [lia|]. by rewrite Ea.
Qed.

(** C32. A lockout ends when its entry expires, however many attempts
    arrive meanwhile: while the counter of a key stands at the threshold
    or above, every attempt before the expiry instant [e] of its entry is
    answered "locked out" and changes nothing, so it does not push [e]
    back; from [e] on, no attempt for the key is answered "locked out":
    the password is checked again. *)
Theorem signin_lockout_expires (w : World S) captcha_ok ip key v e :
  captcha_passes captcha_ok -> Cache.entries (cache w) !! key = Some (v, e) -> LOCKOUT_THRESHOLD <= v ->
  (forall reqs, Forall (fun '(i, t) => t < e /\ exists vd, keyed ip key i vd) reqs ->
     signin_seq cfg is_email captcha_ok ip reqs w =
       (w, Ok (replicate (length reqs) (unauthorized (LockedOut lockout_time_in_mins))))) /\
  (forall i vd t, keyed ip key i vd -> e <= t ->
     (signin cfg is_email captcha_ok ip i t w).2 <> Ok (unauthorized (LockedOut lockout_time_in_mins))).
Proof.
  intros Hc He Hv. split.
  - induction 1 as [|[i t] reqs [Ht [vd Hk]] _ IH]; [done|]. cbn [signin_seq].
    rewrite (ST_bind_Ok _ _ _ w _ (signin_locked_step w _ _ _ _ _ _ Hc Hk ltac:(erewrite counter_live by eauto; lia))).
    by rewrite (ST_bind_Ok _ _ _ w _ IH).
  - intros i vd t [Hv' Hk] Ht. rewrite (signin_unfold _ _ _ _ vd) by done. subst key.
    destruct (authenticate (sd_email vd) (sd_mobile vd) (sd_password vd) (db w)) as [c|err] eqn:Ea.
    + rewrite ST_bind_Ok with (s' := w) (a := inr _)
        by (apply signin_read_open; [erewrite counter_expired by eauto; cbv; done|exact Ea]).
      apply signin_write_not_locked.
    + pose proof (counter_expired _ _ _ _ t He Ht) as Hn.
      unfold signin_read, counter in *. st_unfold. rewrite Hn. cbn. by rewrite Ea.
Qed.

(** C4. The counter is read and written without atomicity: when [k]
    refused attempts for one key all read the counter before any of them
    writes it, each is answered with the same count, each had its password
    checked, and the counter ends one higher, not [k] higher. *)
Theorem signin_concurrent_failures_counted_once (w : World S) ip key vds now now' n :
  vds <> [] ->
  Forall (fun vd => auth_failure_key (login_username vd) ip = key /\ refused (db w) vd) vds ->
  counter (cache w) key now = n -> n < LOCKOUT_THRESHOLD ->
  let '(w', r) := signin_batch ip vds now now' w in
  r = Ok (replicate (length vds) (unauthorized (InvalidUsernamePassword n))) /\
  db w' = db w /\
  forall t, now' <= t < now' + seconds (lockout_time_in_mins * 60) -> counter (cache w') key t = n + 1.
Proof.
  intros Hne Hall Hn Hlt. unfold signin_batch.
  rewrite ST_bind_Ok with (s' := w) (a := replicate (length vds) (inr (mkPending key n None)))
    by (eapply signin_reads_open; eauto).
  destruct vds as [|vd vds]; [done|].
  replace (length (vd :: vds)) with (Nat.succ (length vds)) by reflexivity.
  destruct (signin_writes_refused w key n (length vds) now') as [c ->].
  split_and!; [done|done|]. intros t Ht. by apply counter_set.
Qed.

End Lemmas.

(** ** Witnesses *)

Import Jwt.

(** The store [auth_db] of [Auth]: [a@mail.test] is customer [1], whose
    password is [secret1]. *)
Definition signin_w : World Jwt.State := demo_world auth_db.
Definition signin_ip : option string := Some "10.0.0.1"%string.
Definition signin_key : string := auth_failure_key "a@mail.test" signin_ip.
Definition signin_input (pw : string) : SigninInput :=
  mkSigninInput (Some "a@mail.test"%string) None (Some pw) None.
Definition signin_data (pw : string) : SigninData :=
  mkSigninData (Some "a@mail.test"%string) None pw None.

(** Solves [keyed], [refused] and [captcha_passes] on the concrete store. *)
Ltac signin_concrete :=
  lazymatch goal with
  | |- captcha_passes _ _ => left; reflexivity
  | |- keyed _ _ _ _ _ _ => split; vm_compute; reflexivity
  | |- refused _ _ => vm_compute; reflexivity
  | |- _ < LOCKOUT_THRESHOLD => vm_compute; reflexivity
  | |- _ = _ => vm_compute; reflexivity
  | |- _ => unfold seconds, lockout_time_in_mins; lia
  end.

(** Five attempts 500 s apart: the fifth, 2000 s after the first failure
    and with the right password, is locked out. *)
Lemma signin_lockout_after_four_failures_witness :
  snd (signin_seq default_config accept_all true signin_ip
         [(signin_input "wrong", seconds 0); (signin_input "wrong", seconds 500);
          (signin_input "wrong", seconds 1000); (signin_input "wrong", seconds 1500);
          (signin_input "secret1", seconds 2000)] signin_w) =
  Ok [unauthorized (InvalidUsernamePassword 0); unauthorized (InvalidUsernamePassword 1);
      unauthorized (InvalidUsernamePassword 2); unauthorized (InvalidUsernamePassword 3);
      unauthorized (LockedOut lockout_time_in_mins)].
Proof.
  apply (signin_lockout_after_four_failures default_config accept_all signin_w true signin_ip signin_key
           _ _ _ _ _ (signin_data "wrong") (signin_data "wrong") (signin_data "wrong")
           (signin_data "wrong") (signin_data "secret1")); signin_concrete.
Defined.

Lemma signin_counter_update_witness :
  let '(w', r) := signin default_config accept_all true signin_ip (signin_input "wrong") (seconds 0) signin_w in
  db w' = db signin_w /\
  match authenticate (Some "a@mail.test"%string) None "wrong" (db signin_w) with
  | Ok (Some (k, cu)) =>
      (forall t, Cache.get (cache w') signin_key t = None) /\
      r = Ok (if is_active cu then ok200 (TokenIssued (snd (for_user (tokens signin_w) k (seconds 0))))
              else unauthorized CustomerAccountDisabled)
  | Ok None =>
      (forall t, seconds 0 <= t < seconds 0 + seconds (lockout_time_in_mins * 60) ->
                 counter (cache w') signin_key t = counter (cache signin_w) signin_key (seconds 0) + 1) /\
      r = Ok (unauthorized (InvalidUsernamePassword (counter (cache signin_w) signin_key (seconds 0))))
  | Err e => r = Err e
  end.
Proof.
  apply (signin_counter_update default_config accept_all signin_w true signin_ip signin_key _
           (signin_data "wrong")); signin_concrete.
Defined.

Lemma signin_concurrent_failures_counted_once_witness :
  let '(w', r) := signin_batch signin_ip (replicate 3 (signin_data "wrong")) (seconds 0) (seconds 1) signin_w in
  r = Ok (replicate 3 (unauthorized (InvalidUsernamePassword 0))) /\
  db w' = db signin_w /\
  forall t, seconds 1 <= t < seconds 1 + seconds (lockout_time_in_mins * 60) ->
    counter (cache w') signin_key t = 0 + 1.
Proof.
  apply (signin_concurrent_failures_counted_once signin_w signin_ip signin_key
           (replicate 3 (signin_data "wrong"))); [done| |reflexivity|signin_concrete].
  repeat constructor; signin_concrete.
Defined.

(** The key locked by four failures, the last at time 0. *)
Definition locked_w : World Jwt.State :=
  with_cache signin_w (Cache.set Cache.empty signin_key 4 (seconds (lockout_time_in_mins * 60)) 0).

Lemma signin_lockout_expires_witness :
  (forall reqs, Forall (fun '(i, t) => t < seconds 600 /\ exists vd, keyed default_config accept_all signin_ip signin_key i vd) reqs ->
     signin_seq default_config accept_all true signin_ip reqs locked_w =
       (locked_w, Ok (replicate (length reqs) (unauthorized (LockedOut lockout_time_in_mins))))) /\
  (forall i vd t, keyed default_config accept_all signin_ip signin_key i vd -> seconds 600 <= t ->
     (signin default_config accept_all true signin_ip i t locked_w).2 <> Ok (unauthorized (LockedOut lockout_time_in_mins))).
Proof.
  apply (signin_lockout_expires default_config accept_all locked_w true signin_ip signin_key 4 (seconds 600));
    [left; reflexivity|reflexivity|vm_compute; discriminate].
Defined.

End Signin.
