(* ===== verification/Account.v ===== *)
(** * Session handlers ([views.py] [signout], [change_password]; the
    [token/refresh/] route of [urls.py] to simplejwt's [TokenRefreshView])

    A refresh token sent by the client is a [Token]: one the service never
    signed, or a string that does not decode, is a token [parse_refresh]
    rejects.  [signout] parses the token and blacklists it.
    [change_password] checks the old password, saves the new one, and only
    then parses and blacklists the refresh token: a bad token answers 400
    after the password was already changed.  [token_refresh] answers a new
    access token for an accepted refresh token ([ROTATE_REFRESH_TOKENS] is
    not set).  How [JWTAuthentication] accepts an access token is not
    modelled: the handlers take the authenticated requester as a
    parameter. *)

From S2P Require Import Prelude Validators Store Session Tasks Auth Verification Signin.
From Stdlib Require Import Ascii.
From Stdlib Require String.
Import Store Session Tasks Auth Verification Signin.

Module Account.

(** [ChangePasswordSerializer] input: [None] is an absent key. *)
Record ChangePasswordInput := mkChangePasswordInput {
  cp_old_password : option string;
  cp_new_password : option string;
  cp_confirm_password : option string;
  cp_refresh : option Token;
}.

Record ChangePasswordData := mkChangePasswordData {
  cpd_old_password : string;
  cpd_new_password : string;
  cpd_refresh : Token;
}.

(** [RegexValidator(r"\d")]: [re.search] finds a digit. *)
Definition has_digit (v : string) : bool := existsb NationalCode.is_digit (String.list_ascii_of_string v).

(** [RegexValidator("[a-zA-Z]")] *)
Definition is_latin (c : ascii) : bool :=
  let n := Z.of_nat (nat_of_ascii c) in ((65 <=? n) && (n <=? 90)) || ((97 <=? n) && (n <=? 122)).
Definition has_latin_letter (v : string) : bool := existsb is_latin (String.list_ascii_of_string v).

(** [new_password = CharField(min_length=8, validators=[...])] *)
Definition password_policy (v : string) : bool :=
  (8 <=? Z.of_nat (String.length v)) && has_digit v && has_latin_letter v.

Section Handlers.
Context {S : Type} `{TokenService S} `{PasswordHasher}.

(** [ChangePasswordSerializer.is_valid]: the fields, then [validate]. *)
Definition validate_change_password (i : ChangePasswordInput) : result ChangePasswordData (list string) :=
  let o := char_field_strict "old_password" true (fun _ => true) (cp_old_password i) in
  let n := char_field_strict "new_password" true password_policy (cp_new_password i) in
  let c := char_field_strict "confirm_password" true (fun _ => true) (cp_confirm_password i) in
  let r : result (option Token) (list string) :=
    match cp_refresh i with Some t => Ok (Some t) | None => Err ["refresh"%string] end in
  match o, n, c, r with
  | Ok (Some o), Ok (Some n), Ok (Some c), Ok (Some t) =>
      if String.eqb n o then Err ["non_field_errors"%string]
      else if negb (String.eqb c n) then Err ["non_field_errors"%string]
      else Ok (mkChangePasswordData o n t)
  | _, _, _, _ => Err (field_errors o ++ field_errors n ++ field_errors c ++ field_errors r)
  end.

(** [RefreshToken(refresh_token)] then [token.blacklist()]. *)
Definition blacklist_refresh (t : Token) (now : Time) : ST (World S) Exception (result unit TokenError) :=
  fun w => match parse_refresh (tokens w) t now with
           | Ok t' => (with_tokens w (blacklist (tokens w) t'), Ok (Ok tt))
           | Err e => (w, Ok (Err e))
           end.

(** [signout] (views.py 284-302); [requester] is the user of the access
    token ([IsAuthenticated]). *)
Definition signout (requester : option nat) (refresh : option Token) (now : Time)
  : ST (World S) Exception Response :=
  match requester with
  | None => mret (unauthorized NotAuthenticated)
  | Some _ =>
      match refresh with
      | None => mret (bad400 (ValidationFailed ["refresh"%string]))
      | Some t =>
          r ← blacklist_refresh t now;
          match r with
          | Ok _ => mret (mkResponse HTTP_205_RESET_CONTENT SuccessfulLogOut)
          | Err _ => mret (bad400 TokenInvalidOrExpiredMsg)
          end
      end
  end.

(** [change_password] (views.py 309-341). *)
Definition change_password (requester : option nat) (id : nat) (input : ChangePasswordInput) (now : Time)
  : ST (World S) Exception Response :=
  match requester with
  | None => mret (unauthorized NotAuthenticated)
  | Some _ =>
      customer ← query (fun d => get_customer d id);
      match validate_change_password input with
      | Err fs => mret (bad400 (ValidationFailed fs))
      | Ok vd =>
          if negb (check_password (cpd_old_password vd) (password customer))
          then mret (bad400 IncorrectPassword)
          else
            _ ← modify (fun w => let '(cu', d) := set_password_salted (db w) customer (cpd_new_password vd) in
                                 with_db w (save_customer d id cu'));
            r ← blacklist_refresh (cpd_refresh vd) now;
            match r with
            | Ok _ => mret (ok200 PasswordUpdated)
            | Err _ => mret (bad400 TokenInvalidOrExpiredMsg)
            end
      end
  end.

(** [TokenRefreshView]: [TokenRefreshSerializer.validate] parses the
    refresh token and answers [str(refresh.access_token)]. *)
Definition token_refresh (refresh : option Token) (now : Time) : ST (World S) Exception Response :=
  match refresh with
  | None => mret (bad400 (ValidationFailed ["refresh"%string]))
  | Some t =>
      fun w => match parse_refresh (tokens w) t now with
               | Ok t' => let '(s', a) := access_of (tokens w) t' now in
                          (with_tokens w s', Ok (ok200 (AccessIssued a)))
               | Err _ => (w, Ok (unauthorized TokenInvalidOrExpiredMsg))
               end
  end.

End Handlers.

Section Lemmas.
Context {S : Type} `{TokenService S} `{PasswordHasher}.
Context `{!TokenServiceLaws S}.

Lemma parse_refresh_accepts s t now :
  accepts s t now = true -> parse_refresh s t now = Ok t.
Proof using Type*.
  unfold accepts. destruct (parse_refresh s t now) as [t'|] eqn:E; [|done].
  intros _. f_equal. exact (parse_refresh_id _ _ _ _ E).
Qed.

Lemma parse_refresh_rejects s t now :
  accepts s t now = false -> exists e, parse_refresh s t now = Err e.
Proof using Type*. unfold accepts. destruct (parse_refresh s t now); [done|eauto]. Qed.

(** A blacklisted token is refused at every instant. *)
Lemma accepts_blacklist s t now' : accepts (blacklist s t) t now' = false.
Proof using Type*. apply revoked_rejects, revoked_blacklist. Qed.

Lemma blacklist_refresh_accepted (w : World S) t now :
  accepts (tokens w) t now = true ->
  blacklist_refresh t now w = (with_tokens w (blacklist (tokens w) t), Ok (Ok tt)).
Proof using Type*. intros Ha. unfold blacklist_refresh. by rewrite parse_refresh_accepts. Qed.

Lemma blacklist_refresh_rejected (w : World S) t now :
  accepts (tokens w) t now = false -> exists e, blacklist_refresh t now w = (w, Ok (Err e)).
Proof using Type*.
  intros Ha. destruct (parse_refresh_rejects _ _ _ Ha) as [e He].
  exists e. unfold blacklist_refresh. by rewrite He.
Qed.

(** C8. Signing out with a refresh token the service accepts answers 205
    and revokes that token before its expiry: at every later instant it is
    refused, and the refresh endpoint answers 401 for it and changes
    nothing.  The store is not touched. *)
Theorem signout_revokes (w : World S) u t now now' :
  accepts (tokens w) t now = true ->
  let '(w', r) := signout (Some u) (Some t) now w in
  r = Ok (mkResponse HTTP_205_RESET_CONTENT SuccessfulLogOut) /\
  db w' = db w /\
  accepts (tokens w') t now' = false /\
  token_refresh (Some t) now' w' = (w', Ok (unauthorized TokenInvalidOrExpiredMsg)).
Proof using Type*.
  intros Ha. unfold signout.
  rewrite ST_bind_Ok with (s' := with_tokens w (blacklist (tokens w) t)) (a := Ok tt)
    by (by apply blacklist_refresh_accepted).
  split_and!; [done|done|apply accepts_blacklist|].
  unfold token_refresh. destruct (parse_refresh_rejects _ t now' (accepts_blacklist (tokens w) t now'))
    as [e He]. simpl in *. by rewrite He.
Qed.

(** C9. [change_password] with a valid body and the right old password
    stores the new password before it looks at the refresh token: the new
    password checks and the old one no longer does, whether the answer is
    200 (the token was accepted, and is now revoked) or 400 "token is
    invalid or expired". *)
Theorem change_password_stores_first `{!PasswordHasherLaws} (w : World S) u id input vd cu now :
  customers (db w) !! id = Some cu ->
  validate_change_password input = Ok vd ->
  check_password (cpd_old_password vd) (password cu) = true ->
  let '(w', r) := change_password (Some u) id input now w in
  (exists cu', customers (db w') !! id = Some cu' /\ username cu' = username cu /\
     check_password (cpd_new_password vd) (password cu') = true /\
     check_password (cpd_old_password vd) (password cu') = false) /\
  (if accepts (tokens w) (cpd_refresh vd) now
   then r = Ok (ok200 PasswordUpdated) /\ accepts (tokens w') (cpd_refresh vd) now = false
   else r = Ok (bad400 TokenInvalidOrExpiredMsg)).
Proof using Type*.
  intros Hcu Hv Hold. unfold change_password, get_customer. st_unfold.
  rewrite Hcu, Hv, Hold. cbn.
  assert (Hne : cpd_old_password vd <> cpd_new_password vd).
  { revert Hv. unfold validate_change_password.
    repeat case_match; simplify_eq; try done. intros [= <-]. simpl.
    intros ->. by rewrite String.eqb_refl in *. }
  set (w1 := with_db w _).
  assert (Hpw : exists cu', customers (db w1) !! id = Some cu' /\ username cu' = username cu /\
     check_password (cpd_new_password vd) (password cu') = true /\
     check_password (cpd_old_password vd) (password cu') = false).
  { eexists. split_and!; [apply lookup_insert_eq|done|apply check_make|].
    cbn [password set_password].
    destruct (check_password (cpd_old_password vd) (make_password (next_id (db w)) (cpd_new_password vd)))
      eqn:E; [|done].
    by apply check_make_inv in E. }
  destruct (accepts (tokens w) (cpd_refresh vd) now) eqn:Ha.
  - rewrite (blacklist_refresh_accepted w1) by exact Ha. cbn. split; [exact Hpw|].
    split; [done|apply accepts_blacklist].
  - destruct (blacklist_refresh_rejected w1 _ _ Ha) as [e ->]. cbn. by split.
Qed.

End Lemmas.

(** ** Witnesses *)

Section Witnesses.
Import Jwt.

(** Customer [1] of [auth_db] signed in at time 0: [acct_r] is its refresh
    token. *)
Definition acct_w : World State := with_tokens signin_w (fst (jwt_for_user (tokens signin_w) 1 0)).
Definition acct_r : Token := refresh (snd (jwt_for_user (tokens signin_w) 1 0)).
Definition acct_cu : Customer := mkCustomer 0 "plain$secret1" false None None 0 None.
Definition acct_input : ChangePasswordInput :=
  mkChangePasswordInput (Some "secret1"%string) (Some "newpass99"%string) (Some "newpass99"%string) (Some acct_r).
Definition acct_data : ChangePasswordData := mkChangePasswordData "secret1" "newpass99" acct_r.

Lemma signout_revokes_witness :
  let '(w', r) := signout (Some 1%nat) (Some acct_r) (seconds 60) acct_w in
  r = Ok (mkResponse HTTP_205_RESET_CONTENT SuccessfulLogOut) /\
  db w' = db acct_w /\
  accepts (tokens w') acct_r (seconds 120) = false /\
  token_refresh (Some acct_r) (seconds 120) w' = (w', Ok (unauthorized TokenInvalidOrExpiredMsg)).
Proof. apply signout_revokes. vm_compute. reflexivity. Defined.

Lemma change_password_stores_first_witness :
  let '(w', r) := change_password (Some 1%nat) 1 acct_input (seconds 60) acct_w in
  (exists cu', customers (db w') !! 1%nat = Some cu' /\ username cu' = username acct_cu /\
     check_password "newpass99" (password cu') = true /\
     check_password "secret1" (password cu') = false) /\
  (if accepts (tokens acct_w) acct_r (seconds 60)
   then r = Ok (ok200 PasswordUpdated) /\ accepts (tokens w') acct_r (seconds 60) = false
   else r = Ok (bad400 TokenInvalidOrExpiredMsg)).
Proof.
  apply (change_password_stores_first acct_w 1 1 acct_input acct_data acct_cu (seconds 60));
    vm_compute; reflexivity.
Defined.

End Witnesses.

End Account.
