(* ===== verification/Registration.v ===== *)
(** * Registration ([views.py] [signup]; [SignupSerializer] of
    [serializers.py]; [ContactCustomerManager.create_customer] of
    [managers.py])

    [signup] validates the body against the store ([signup_validate]: the
    unique validators query it), then creates, one row at a time and
    without a transaction, the [People], the [Contact], the [Customer]
    (inactive, its password hashed with a fresh salt), and the empty
    [EmailChange] and [PhoneChange] requests ([signup_create]); it enqueues
    the verification job of the identifier it was given and answers 201.
    Between the validation and the creation another request may run: the
    two halves are separate computations so that such interleavings can be
    written down.  The theorems compose sign-up with the verification job
    and [verify_email], and with [Profile.me], which reads back what was
    registered ([signup_then_me]). *)

From S2P Require Import Prelude Validators Store Settings Session Tasks Profile Auth Verification Signin Account.
Import Store Settings Session Tasks Profile Auth Verification Signin Account.

Module Registration.

(** The request body: [None] is an absent key. *)
Record SignupInput := mkSignupInput {
  su_email : option string;
  su_national_code : option string;
  su_mobile : option string;
  su_password : option string;
  su_agree_with_policy : option bool;
}.

Record SignupData := mkSignupData {
  sd_email' : option string;
  sd_national_code : string;
  sd_mobile' : option string;
  sd_password' : string;
}.

(** The [password] field generated from [Customer.password]:
    [max_length=128], the two [RegexValidator]s and [MinLengthValidator(8)]. *)
Definition model_password_ok (v : string) : bool :=
  password_policy v && (Z.of_nat (String.length v) <=? 128).

Section Handler.
Context {S : Type} `{TokenService S} `{PasswordHasher}.
Context (is_email : string -> bool).

(** [SignupSerializer.is_valid] on the store [d]: the fields in the order of
    [Meta.fields], then [validate]. *)
Definition signup_validate (d : DB) (i : SignupInput) : result SignupData (list string) :=
  let e := email_field is_email d (su_email i) in
  let nc := match su_national_code i with
            | None => Err ["national_code"%string]
            | Some _ => national_code_field d (su_national_code i)
            end in
  let m := mobile_unique_field d (su_mobile i) in
  let p := char_field_strict "password" true model_password_ok (su_password i) in
  match e, nc, m, p with
  | Ok e, Ok (Some nc), Ok m, Ok (Some p) =>
      match e, m with
      | None, None => Err ["non_field_errors"%string]
      | Some _, Some _ => Err ["non_field_errors"%string]
      | _, _ =>
          if negb (default false (su_agree_with_policy i)) then Err ["agree_with_policy"%string]
          else Ok (mkSignupData e nc m p)
      end
  | _, _, _, _ => Err (field_errors e ++ field_errors nc ++ field_errors m ++ field_errors p)
  end.

(** [Model.objects.create(...)]: draw the [uuid4] primary key. *)
Definition fresh_st : ST (World S) Exception nat :=
  fun w => let '(k, d) := fresh_id (db w) in (with_db w d, Ok k).

(** [SignupSerializer.create] (serializers.py 86-103); answers the contact's
    identifier and the customer's. *)
Definition signup_create (vd : SignupData) (now : Time) : ST (World S) Exception (nat * nat) :=
  pk ← fresh_st;
  _ ← save_people_st pk (mkPeople "" "" (sd_national_code vd));
  ck ← fresh_st;
  _ ← save_contact_st ck (mkContact (prep (sd_email' vd)) (prep (sd_mobile' vd)) (Some pk));
  k ← fresh_st;
  _ ← modify (fun w => let '(cu, d) := set_password_salted (db w)
                         (mkCustomer ck "" false None None 0 (Some pk)) (sd_password' vd) in
                       with_db w (save_customer d k cu));
  _ ← create_email_change_st k None None now;
  _ ← create_phone_change_st k None None now;
  mret (ck, k).

(** [signup] (views.py 73-84). *)
Definition signup_respond (vd : SignupData) (now : Time) : ST (World S) Exception Response :=
  '(ck, k) ← signup_create vd now;
  _ ← (if bool_decide (prep (sd_email' vd) = None) then mret tt else delay (SendEmailVerification ck));
  _ ← (if bool_decide (prep (sd_mobile' vd) = None) then mret tt else delay (SendMobileVerificationCode ck));
  mret (mkResponse HTTP_201_CREATED (CustomerDetail k)).

Definition signup (i : SignupInput) (now : Time) : ST (World S) Exception Response :=
  v ← gets (fun w => signup_validate (db w) i);
  match v with
  | Err fs => mret (bad400 (ValidationFailed fs))
  | Ok vd => signup_respond vd now
  end.

End Handler.

Section Lemmas.
Context {S : Type} `{TokenService S} `{PasswordHasher}.
Context (is_email : string -> bool).

Lemma mobile_unique_field_Some d raw v :
  mobile_unique_field d (Some raw) = Ok (Some v) -> v <> ""%string /\ mobile_taken d v = false.
Proof.
  unfold mobile_unique_field. destruct (Mobile.mobile_field raw) as [v'|] eqn:Hf; [|done].
  destruct (mobile_taken d v') eqn:Ht; [done|]. intros [= <-]. split; [|done].
  revert Hf. unfold Mobile.mobile_field. destruct (String.eqb (Mobile.strip raw) "") eqn:E; [done|].
  repeat case_match; try done. intros [= <-]. by apply String.eqb_neq.
Qed.

Lemma national_code_field_Some d raw v :
  national_code_field d (Some raw) = Ok (Some v) -> national_code_taken d v = false.
Proof.
  unfold national_code_field. destruct (NationalCode.validate_national_code _); [|done].
  destruct (_ || national_code_taken d _) eqn:E; [done|]. intros [= <-].
  by apply orb_false_iff in E as [_ ?].
Qed.

Lemma field_None {A} (f : option string -> result (option A) (list string)) x :
  (forall raw, f (Some raw) <> Ok None) -> f x = Ok None -> x = None \/ f None = Ok None.
Proof. destruct x; [intros Hn Hf; by destruct (Hn s)|by right]. Qed.

(** What a validated body guarantees about the store it was checked on. *)
Lemma signup_validate_Ok d i vd :
  signup_validate is_email d i = Ok vd ->
  national_code_taken d (sd_national_code vd) = false /\
  match sd_email' vd, sd_mobile' vd with
  | Some e, None => e <> ""%string /\ email_taken d e = false
  | None, Some m => m <> ""%string /\ mobile_taken d m = false
  | _, _ => False
  end.
Proof.
  unfold signup_validate. intros Hv. repeat case_match; simplify_eq/=.
  all: split; [eapply national_code_field_Some; eassumption|].
  - destruct (su_email i); [by eapply email_field_Some|done].
  - destruct (su_mobile i); [by eapply mobile_unique_field_Some|done].
Qed.

Lemma people_clash_taken d k p :
  national_code_taken d (national_code p) = false -> people_clash d k p = false.
Proof.
  unfold national_code_taken, people_clash. intros Ht.
  apply not_true_iff_false. intros [[j pj] [Hin Hc]]%existsb_exists.
  apply andb_true_iff in Hc as [_ Hc%String.eqb_eq].
  apply not_true_iff_false in Ht. apply Ht, existsb_exists. exists (j, pj).
  split; [done|]. by apply String.eqb_eq.
Qed.

Lemma clash_with_None (f : Contact -> option string) d k c :
  f c = None -> clash_with f d k c = false.
Proof.
  unfold clash_with. intros Hf. apply not_true_iff_false. intros [[j cj] [_ Hc]]%existsb_exists.
  apply andb_true_iff in Hc as [_ Hc]. by rewrite Hf in Hc.
Qed.

(** No row references a customer identifier not drawn yet. *)
Lemma email_changes_of_fresh d k : wf d -> (next_id d <= k)%nat -> email_changes_of d k = [].
Proof.
  intros Hw Hk. apply filter_nil_Forall, Forall_forall. intros r Hr Heq.
  destruct (wf_refs _ Hw) as (_ & _ & R & _). eapply Forall_forall in R; [|done].
  rewrite Heq in R. apply (proj1 (proj2 (wf_ids _ Hw))) in R. lia.
Qed.

Lemma phone_changes_of_fresh d k : wf d -> (next_id d <= k)%nat -> phone_changes_of d k = [].
Proof.
  intros Hw Hk. apply filter_nil_Forall, Forall_forall. intros r Hr Heq.
  destruct (wf_refs _ Hw) as (_ & _ & _ & R). eapply Forall_forall in R; [|done].
  rewrite Heq in R. apply (proj1 (proj2 (wf_ids _ Hw))) in R. lia.
Qed.

(** The store [signup_create] writes, one write after the other. *)
Definition signup_rows (d : DB) (vd : SignupData) (now : Time) : DB :=
  let n := next_id d in
  let d1 := with_people (fresh_id d).2 (<[n := mkPeople "" "" (sd_national_code vd)]> (people d)) in
  let d2 := with_contacts (fresh_id d1).2
              (<[Datatypes.S n := mkContact (prep (sd_email' vd)) (prep (sd_mobile' vd)) (Some n)]> (contacts d)) in
  let d3 := (fresh_id (fresh_id d2).2).2 in
  let cu := set_password (mkCustomer (Datatypes.S n) "" false None None 0 (Some n))
              (make_password (Datatypes.S (Datatypes.S (Datatypes.S n))) (sd_password' vd)) in
  create_phone_change (create_email_change (save_customer d3 (Datatypes.S (Datatypes.S n)) cu) (Datatypes.S (Datatypes.S n)) None None now)
    (Datatypes.S (Datatypes.S n)) None None now.

Lemma signup_rows_wf d vd :
  wf d -> national_code_taken d (sd_national_code vd) = false ->
  clash_with email d (Datatypes.S (next_id d)) (mkContact (prep (sd_email' vd)) (prep (sd_mobile' vd)) (Some (next_id d))) = false ->
  clash_with mobile d (Datatypes.S (next_id d)) (mkContact (prep (sd_email' vd)) (prep (sd_mobile' vd)) (Some (next_id d))) = false ->
  forall now, wf (signup_rows d vd now).
Proof.
  intros Hw Hnc He Hm now. unfold signup_rows.
  pose proof (fresh_id_wf _ Hw) as W1.
  assert (W2 : wf (with_people (fresh_id d).2 (<[next_id d := mkPeople "" "" (sd_national_code vd)]> (people d)))).
  { eapply (save_people_wf _ (next_id d)); [exact W1| unfold fresh_id, with_people, with_contacts; cbn; lia |]. unfold save_people.
    rewrite (people_clash_ext _ d) by reflexivity.
    by rewrite (people_clash_taken d _ (mkPeople "" "" (sd_national_code vd)) Hnc). }
  pose proof (fresh_id_wf _ W2) as W3.
  set (c := mkContact _ _ _) in *.
  assert (W4 : wf (with_contacts (fresh_id (with_people (fresh_id d).2
            (<[next_id d := mkPeople "" "" (sd_national_code vd)]> (people d)))).2
            (<[Datatypes.S (next_id d) := c]> (contacts d)))).
  { eapply (save_contact_wf _ (Datatypes.S (next_id d))); [exact W3| unfold fresh_id, with_people, with_contacts; cbn; lia |]. unfold save_contact.
    by rewrite (clash_with_ext _ _ d), He, (clash_with_ext _ _ d), Hm. }
  pose proof (fresh_id_wf _ (fresh_id_wf _ W4)) as W5.
  apply create_phone_change_wf; [apply create_email_change_wf|].
  - apply save_customer_new_wf; [exact W5|unfold fresh_id, with_people, with_contacts; cbn; lia| | |].
    + simpl. destruct (customers d !! Datatypes.S (Datatypes.S (next_id d))) eqn:E; [|done].
      exfalso. assert (Hs : is_Some (customers d !! Datatypes.S (Datatypes.S (next_id d)))) by eauto.
      apply (proj1 (proj2 (wf_ids _ Hw))) in Hs. lia.
    + simpl. by rewrite lookup_insert_eq.
    + simpl. intros k' cu' Hk' Heq. destruct (proj1 (wf_customer_contacts _ Hw) _ _ Hk') as [x Hx].
      rewrite Heq in Hx. assert (Hs : is_Some (contacts d !! Datatypes.S (next_id d))) by eauto.
      apply (proj1 (wf_ids _ Hw)) in Hs. lia.
  - simpl. by rewrite lookup_insert_eq.
  - simpl. by rewrite lookup_insert_eq.
Qed.

(** The jobs [signup] enqueues. *)
Definition signup_jobs (vd : SignupData) (ck : nat) : list Job :=
  (if bool_decide (prep (sd_email' vd) = None) then [] else [SendEmailVerification ck]) ++
  (if bool_decide (prep (sd_mobile' vd) = None) then [] else [SendMobileVerificationCode ck]).

(** When no write raises, [signup_respond] writes [signup_rows]. *)
Lemma signup_respond_rows (w : World S) vd now :
  national_code_taken (db w) (sd_national_code vd) = false ->
  clash_with email (db w) (Datatypes.S (next_id (db w)))
    (mkContact (prep (sd_email' vd)) (prep (sd_mobile' vd)) (Some (next_id (db w)))) = false ->
  clash_with mobile (db w) (Datatypes.S (next_id (db w)))
    (mkContact (prep (sd_email' vd)) (prep (sd_mobile' vd)) (Some (next_id (db w)))) = false ->
  signup_respond vd now w =
    (mkWorld (signup_rows (db w) vd now) (tokens w) (cache w)
       (queue w ++ signup_jobs vd (Datatypes.S (next_id (db w)))) (outbox w),
     Ok (mkResponse HTTP_201_CREATED (CustomerDetail (Datatypes.S (Datatypes.S (next_id (db w))))))).
Proof.
  intros Hnc He Hm.
  unfold signup_respond, signup_create, fresh_st, save_people_st, save_contact_st,
    create_email_change_st, create_phone_change_st. st_unfold.
  unfold save_people. rewrite (people_clash_ext _ (db w)) by reflexivity.
  rewrite (people_clash_taken (db w) _ (mkPeople "" "" (sd_national_code vd)) Hnc). cbn.
  unfold save_contact. rewrite (clash_with_ext _ _ (db w)), He by reflexivity.
  rewrite (clash_with_ext _ _ (db w)), Hm by reflexivity. cbn.
  unfold signup_jobs, delay.
  destruct (bool_decide (prep (sd_email' vd) = None)), (bool_decide (prep (sd_mobile' vd) = None));
    st_unfold; unfold with_db, with_queue; cbn; rewrite ?app_nil_r, <- ?app_assoc; reflexivity.
Qed.

Lemma latest_fresh_row {A} (f : A -> Z) (P : A -> Prop) `{!forall x, Decision (P x)} l x :
  filter P l = [] -> P x -> latest f (filter P (l ++ [x])) = Some x.
Proof. intros Hl Hx. rewrite filter_app, Hl, filter_cons_True, filter_nil by done. reflexivity. Qed.

(** The contact [signup] creates breaks no unique index. *)
Lemma signup_contact_clash d vd :
  match sd_email' vd, sd_mobile' vd with
  | Some e, None => e <> ""%string /\ email_taken d e = false
  | None, Some m => m <> ""%string /\ mobile_taken d m = false
  | _, _ => False
  end ->
  forall k o, clash_with email d k (mkContact (prep (sd_email' vd)) (prep (sd_mobile' vd)) o) = false /\
              clash_with mobile d k (mkContact (prep (sd_email' vd)) (prep (sd_mobile' vd)) o) = false.
Proof.
  intros Hid k o. destruct (sd_email' vd) as [e|], (sd_mobile' vd) as [m|]; try done;
    destruct Hid as [Hne Ht]; rewrite prep_nonempty by done; simpl.
  - split; [eapply clash_with_taken; [reflexivity|exact Ht]|by apply clash_with_None].
  - split; [by apply clash_with_None|eapply clash_with_taken; [reflexivity|exact Ht]].
Qed.

(** What [signup_rows] writes, read back by the queries. *)
Lemma signup_rows_reads d vd now :
  wf d ->
  let n := next_id d in
  people (signup_rows d vd now) !! n = Some (mkPeople "" "" (sd_national_code vd)) /\
  contacts (signup_rows d vd now) !! (1 + n)%nat =
    Some (mkContact (prep (sd_email' vd)) (prep (sd_mobile' vd)) (Some n)) /\
  customers (signup_rows d vd now) !! (2 + n)%nat =
    Some (set_password (mkCustomer (1 + n) "" false None None 0 (Some n))
            (make_password (3 + n) (sd_password' vd))) /\
  latest_email_change (signup_rows d vd now) (2 + n) = Ok (mkEmailChange (4 + n) (2 + n) None None now) /\
  latest_phone_change (signup_rows d vd now) (2 + n) = Ok (mkPhoneChange (5 + n) (2 + n) None None now).
Proof.
  intros Hw n. split_and!; [cbn; by rewrite lookup_insert_eq..| |].
  - unfold latest_email_change, email_changes_of. cbn.
    rewrite latest_fresh_row; [done| |done].
    apply (email_changes_of_fresh d); [done|lia].
  - unfold latest_phone_change, phone_changes_of. cbn.
    rewrite latest_fresh_row; [done| |done].
    apply (phone_changes_of_fresh d); [done|lia].
Qed.

(** C7. Registration with a body the serializer accepts on a well-formed
    store answers 201 with the new customer's identifier and creates, at
    the next fresh identifiers, the [People] row with the national code,
    the contact holding the one identifier given, an inactive unverified
    customer bound to it whose password hash checks against the given
    password, and empty email and phone change requests; it enqueues the
    verification job of that identifier, and the store stays well formed. *)
Theorem signup_registers `{!PasswordHasherLaws} (w : World S) i vd now :
  wf (db w) -> signup_validate is_email (db w) i = Ok vd ->
  let n := next_id (db w) in
  let '(w', r) := signup is_email i now w in
  r = Ok (mkResponse HTTP_201_CREATED (CustomerDetail (2 + n))) /\
  wf (db w') /\
  people (db w') !! n = Some (mkPeople "" "" (sd_national_code vd)) /\
  contacts (db w') !! (1 + n)%nat = Some (mkContact (sd_email' vd) (sd_mobile' vd) (Some n)) /\
  (exists cu, customers (db w') !! (2 + n)%nat = Some cu /\
     username cu = (1 + n)%nat /\ is_active cu = false /\
     email_verify cu = None /\ mobile_verify cu = None /\
     check_password (sd_password' vd) (password cu) = true) /\
  latest_email_change (db w') (2 + n) = Ok (mkEmailChange (4 + n) (2 + n) None None now) /\
  latest_phone_change (db w') (2 + n) = Ok (mkPhoneChange (5 + n) (2 + n) None None now) /\
  queue w' = queue w ++ [match sd_email' vd with
                         | Some _ => SendEmailVerification (1 + n)
                         | None => SendMobileVerificationCode (1 + n)
                         end].
Proof.
  intros Hw Hv n. pose proof (signup_validate_Ok _ _ _ Hv) as [Hnc Hid].
  destruct (signup_contact_clash _ _ Hid (Datatypes.S n) (Some n)) as [He Hm].
  unfold signup. st_unfold. rewrite Hv. rewrite signup_respond_rows by done.
  destruct (signup_rows_reads (db w) vd now Hw) as (Hp & Hc & Hk & He' & Hm').
  split_and!; [done|by apply signup_rows_wf|exact Hp| | |exact He'|exact Hm'|].
  - etrans; [exact Hc|]. f_equal.
    destruct (sd_email' vd), (sd_mobile' vd); try done; destruct Hid; by rewrite prep_nonempty.
  - eexists. split_and!; [exact Hk|done..|]. apply check_make.
  - cbn. unfold signup_jobs. f_equal.
    destruct (sd_email' vd), (sd_mobile' vd); try done; destruct Hid; by rewrite prep_nonempty.
Qed.

Lemma national_code_taken_lookup d k p :
  people d !! k = Some p -> national_code_taken d (national_code p) = true.
Proof.
  intros Hk. apply existsb_exists. exists (k, p).
  split; [by apply list_elem_of_In, elem_of_map_to_list|]. apply String.eqb_refl.
Qed.

Lemma national_code_taken_insert d k p v :
  national_code_taken d v = false -> national_code p <> v ->
  national_code_taken (with_people d (<[k := p]> (people d))) v = false.
Proof.
  intros Ht Hne. apply not_true_iff_false. intros [[j pj] [Hin Hc]]%existsb_exists.
  apply list_elem_of_In, elem_of_map_to_list in Hin. simpl in Hin.
  apply String.eqb_eq in Hc. apply lookup_insert_Some in Hin as [[_ <-]|[_ Hj]]; [done|].
  apply not_true_iff_false in Ht. apply Ht. rewrite <- Hc. by eapply national_code_taken_lookup.
Qed.

Lemma national_code_field_taken d k p raw :
  people d !! k = Some p -> Mobile.strip raw = national_code p ->
  national_code_field d (Some raw) = Err ["national_code"%string].
Proof.
  intros Hk Hraw. unfold national_code_field. rewrite Hraw.
  rewrite (national_code_taken_lookup _ _ _ Hk), orb_true_r. by case_match.
Qed.

Lemma clash_with_true f d id c j cj :
  contacts d !! j = Some cj -> j <> id -> clashes (f c) (f cj) = true -> clash_with f d id c = true.
Proof.
  intros Hj Hne Hc. apply existsb_exists. exists (j, cj).
  split; [by apply list_elem_of_In, elem_of_map_to_list|].
  rewrite Hc, andb_true_r. by apply negb_true_iff, Nat.eqb_neq.
Qed.

(** C13. Registration is not atomic.  Two sign-ups with the same email and
    different national codes both pass validation when they are validated
    before either writes; the one that writes second raises
    [IntegrityError] on the contact's unique email (a 500 response) after
    it created its [People] row, which stays: no contact or customer was
    made for it, and from then on every sign-up with that national code is
    refused with a "national_code" error. *)
Theorem signup_race_orphan_people (w : World S) iA iB vdA vdB e now now' :
  wf (db w) ->
  signup_validate is_email (db w) iA = Ok vdA -> signup_validate is_email (db w) iB = Ok vdB ->
  sd_email' vdA = Some e -> sd_email' vdB = Some e ->
  sd_national_code vdA <> sd_national_code vdB ->
  let '(w1, rA) := signup_respond vdA now w in
  let '(w2, rB) := signup_respond vdB now' w1 in
  rA = Ok (mkResponse HTTP_201_CREATED (CustomerDetail (2 + next_id (db w)))) /\
  rB = Err (IntegrityError "email") /\
  people (db w2) !! next_id (db w1) = Some (mkPeople "" "" (sd_national_code vdB)) /\
  contacts (db w2) = contacts (db w1) /\ customers (db w2) = customers (db w1) /\
  forall i' raw, su_national_code i' = Some raw -> Mobile.strip raw = sd_national_code vdB ->
    exists fs, signup_validate is_email (db w2) i' = Err fs /\ "national_code"%string ∈ fs.
Proof.
  intros Hw HvA HvB HeA HeB Hne.
  pose proof (signup_validate_Ok _ _ _ HvA) as [HncA HidA].
  pose proof (signup_validate_Ok _ _ _ HvB) as [HncB HidB].
  rewrite HeA in HidA. rewrite HeB in HidB.
  destruct (sd_mobile' vdA) eqn:HmA; [done|]. destruct (sd_mobile' vdB) eqn:HmB; [done|].
  destruct HidA as [HneA _].
  destruct (signup_contact_clash (db w) vdA ltac:(by rewrite HeA, HmA) (Datatypes.S (next_id (db w)))
    (Some (next_id (db w)))) as [He Hm].
  rewrite signup_respond_rows by done.
  set (d1 := signup_rows (db w) vdA now).
  assert (Hnc1 : national_code_taken d1 (sd_national_code vdB) = false).
  { unfold national_code_taken. cbn. apply (national_code_taken_insert (db w)); done. }
  unfold signup_respond, signup_create, fresh_st, save_people_st, save_contact_st. st_unfold.
  unfold save_people. rewrite (people_clash_ext _ d1) by reflexivity.
  rewrite (people_clash_taken d1 _ (mkPeople "" "" (sd_national_code vdB)) Hnc1). cbn.
  unfold save_contact. rewrite (clash_with_true _ _ _ _ (Datatypes.S (next_id (db w)))
    (mkContact (Some e) None (Some (next_id (db w))))).
  2: { subst d1. unfold signup_rows. rewrite HeA, HmA, (prep_nonempty e HneA). cbn.
       by rewrite lookup_insert_eq. }
  2: { cbn. lia. }
  2: { rewrite HeB, (prep_nonempty e HneA). apply String.eqb_refl. }
  cbn. split_and!; [done|done|by rewrite lookup_insert_eq|done|done|].
  intros i' raw Hi' Hraw. unfold signup_validate. rewrite Hi'.
  erewrite (national_code_field_taken _ (next_id d1) (mkPeople "" "" (sd_national_code vdB)))
    by (done || (cbn; apply lookup_insert_eq)).
  destruct (email_field is_email _ (su_email i')) as [?|?],
    (mobile_unique_field _ (su_mobile i')) as [?|?],
    (char_field_strict _ _ _ (su_password i')) as [[?|]|?];
    (eexists; split; [reflexivity|]); cbn; set_solver.
Qed.

Lemma email_temps_of_fresh d k : wf d -> (next_id d <= k)%nat -> email_temps_of d k = [].
Proof.
  intros Hw Hk. apply filter_nil_Forall, Forall_forall. intros t Ht Heq.
  destruct (wf_refs _ Hw) as (R & _). eapply Forall_forall in R; [|done].
  rewrite Heq in R. apply (proj1 (proj2 (wf_ids _ Hw))) in R. lia.
Qed.

(** A ticket created for a customer that had none is the one found by its id. *)
Lemma find_email_temp_fresh d k e now :
  email_temps_of d k = [] ->
  find_email_temp (create_email_temp d k e now).1 k (next_id d) = Some (mkEmailTemp (next_id d) k e now).
Proof.
  unfold find_email_temp, email_temps_of. cbn. intros He.
  rewrite filter_app, He, app_nil_l, !filter_cons_True, filter_nil by done. reflexivity.
Qed.

(** The job for a contact whose customer has no pending email change. *)
Lemma send_email_verification_plain (w : World S) ck k cu c e ec now :
  contacts (db w) !! ck = Some c -> email c = Some e -> contact_customer (db w) ck = Ok (k, cu) ->
  latest_email_change (db w) k = Ok ec -> new_email ec = None ->
  send_email_verification ck now w =
    (with_outbox (with_db w (create_email_temp (db w) k e now).1)
       (outbox w ++ [mkMail e k (next_id (db w))]), Ok tt).
Proof.
  intros Hc He Hcc Hec Hne. unfold send_email_verification, get_contact. st_unfold.
  rewrite Hc, Hcc, He. cbn. erewrite (latest_email_change_ext _ (db w)) by reflexivity.
  rewrite Hec. cbn. rewrite Hne. by destruct (email_verify cu).
Qed.

(** The three steps of a sign-up with an email, step by step: the store
    and the world each step leaves. *)
Lemma signup_verify_run (cfg : Config) (w : World S) i vd e now t1 t2 :
  wf (db w) -> signup_validate is_email (db w) i = Ok vd -> sd_email' vd = Some e ->
  t2 - t1 <= email_verification_expire_time cfg ->
  let n := next_id (db w) in
  exists w1 w2 w3 p,
    signup is_email i now w = (w1, Ok (mkResponse HTTP_201_CREATED (CustomerDetail (2 + n)))) /\
    run_job (SendEmailVerification (1 + n)) t1 w1 = (w2, Ok tt) /\
    outbox w2 = outbox w1 ++ [mkMail e (2 + n) (6 + n)] /\
    verify_email cfg (2 + n) (Some (6 + n)%nat) t2 w2 = (w3, Ok (ok200 (TokenIssued p))) /\
    e <> ""%string /\ db w1 = signup_rows (db w) vd now /\ cache w1 = cache w /\ cache w3 = cache w /\
    contacts (db w1) !! (1 + n)%nat = Some (mkContact (Some e) None (Some n)) /\
    contacts (db w3) !! (1 + n)%nat = Some (mkContact (Some e) None (Some n)) /\
    exists cu, customers (db w1) !! (2 + n)%nat = Some cu /\
      customers (db w3) !! (2 + n)%nat = Some (set_is_active (set_email_verify cu (Some t2)) true) /\
      username cu = (1 + n)%nat /\ is_active cu = false /\
      password cu = make_password (3 + n) (sd_password' vd).
Proof.
  intros Hw Hv He Ht n. pose proof (signup_validate_Ok _ _ _ Hv) as [Hnc Hid].
  destruct (signup_contact_clash _ _ Hid (Datatypes.S n) (Some n)) as [Hce Hcm].
  assert (E1 : signup is_email i now w =
    (mkWorld (signup_rows (db w) vd now) (tokens w) (cache w) (queue w ++ signup_jobs vd (Datatypes.S n)) (outbox w),
     Ok (mkResponse HTTP_201_CREATED (CustomerDetail (2 + n))))).
  { unfold signup. st_unfold. by rewrite Hv, signup_respond_rows. }
  assert (W1 : wf (signup_rows (db w) vd now)) by (by apply signup_rows_wf).
  set (d1 := signup_rows (db w) vd now) in *.
  set (w1 := mkWorld d1 (tokens w) (cache w) (queue w ++ signup_jobs vd (Datatypes.S n)) (outbox w)) in *.
  rewrite He in Hid. destruct (sd_mobile' vd) eqn:Hm; cbn in Hid; [done|]. destruct Hid as [Hne _].
  set (cu := set_password (mkCustomer (Datatypes.S n) "" false None None 0 (Some n))
               (make_password (Datatypes.S (Datatypes.S (Datatypes.S n))) (sd_password' vd))).
  set (c := mkContact (Some e) None (Some n)).
  assert (Hc : contacts d1 !! Datatypes.S n = Some c).
  { subst d1 c. unfold signup_rows. rewrite He, Hm, (prep_nonempty e Hne). cbn. apply lookup_insert_eq. }
  assert (Hk : customers d1 !! Datatypes.S (Datatypes.S n) = Some cu).
  { subst d1. cbn. apply lookup_insert_eq. }
  set (ec := mkEmailChange (4 + n) (2 + n) None None now).
  assert (Hec : latest_email_change d1 (2 + n) = Ok ec).
  { unfold latest_email_change, email_changes_of. subst d1. cbn.
    rewrite latest_fresh_row; [done| |done]. apply (email_changes_of_fresh (db w)); [done|lia]. }
  set (d2 := (create_email_temp d1 (2 + n) e t1).1).
  set (w2 := with_outbox (with_db w1 d2) (outbox w1 ++ [mkMail e (2 + n) (next_id d1)])).
  assert (E2 : run_job (SendEmailVerification (1 + n)) t1 w1 = (w2, Ok tt)).
  { cbn [run_job]. apply (send_email_verification_plain w1 (Datatypes.S n) (2 + n) cu c e ec t1); try done.
    apply contact_customer_Ok; [apply W1|exact Hk|done]. }
  set (t := mkEmailTemp (next_id d1) (2 + n) e t1).
  assert (Hnext : next_id d1 = (6 + n)%nat) by (subst d1; reflexivity).
  assert (Ht2 : find_email_temp d2 (2 + n) (6 + n) = Some t).
  { rewrite <- Hnext. apply find_email_temp_fresh, (email_temps_of_fresh (db w)); [done|lia]. }
  pose proof (verify_email_ok cfg w2 (2 + n) (6 + n) cu ec t c t2 Hk) as Hok.
  destruct (verify_email cfg (2 + n) (Some (6 + n)%nat) t2 w2) as [w3 r3] eqn:E3.
  destruct Hok as (Hr & Hcu & _ & Hc3 & _ & Hcache); [|done|done|subst t; cbn; lia|exact Hc|by intros ? ?|].
  { by rewrite (latest_email_change_ext _ d1) by reflexivity. }
  exists w1, w2, w3, (snd (for_user (tokens w2) (2 + n) t2)).
  split_and!; try done.
  - by rewrite E3, Hr.
  - eexists. split_and!; [exact Hk|exact Hcu|done..].
Qed.

(** C2. Registration, the verification job and the confirmation compose:
    after a sign-up with an email on a well-formed store, the job enqueued
    by the sign-up mails a link for the ticket it creates to that address,
    and confirming that ticket within [EMAIL_VERIFICATION_EXPIRE_TIME]
    answers a token pair and leaves the new customer active with its email
    verified at the confirmation time. *)
Theorem signup_then_verify_email (cfg : Config) (w : World S) i vd e now t1 t2 :
  wf (db w) -> signup_validate is_email (db w) i = Ok vd -> sd_email' vd = Some e ->
  t2 - t1 <= email_verification_expire_time cfg ->
  let n := next_id (db w) in
  let '(w1, r1) := signup is_email i now w in
  let '(w2, r2) := run_job (SendEmailVerification (1 + n)) t1 w1 in
  let '(w3, r3) := verify_email cfg (2 + n) (Some (6 + n)%nat) t2 w2 in
  r1 = Ok (mkResponse HTTP_201_CREATED (CustomerDetail (2 + n))) /\
  r2 = Ok tt /\ outbox w2 = outbox w1 ++ [mkMail e (2 + n) (6 + n)] /\
  (exists p, r3 = Ok (ok200 (TokenIssued p))) /\
  exists cu, customers (db w3) !! (2 + n)%nat = Some cu /\ is_active cu = true /\ email_verify cu = Some t2.
Proof.
  intros Hw Hv He Ht. cbv zeta.
  destruct (signup_verify_run cfg w i vd e now t1 t2 Hw Hv He Ht)
    as (w1 & w2 & w3 & p & E1 & E2 & Ho & E3 & _ & _ & _ & _ & _ & _ & cu & _ & Hcu & _).
  rewrite E1. cbv beta iota. rewrite E2. cbv beta iota. rewrite E3. cbv beta iota.
  split_and!; [done..|eauto|]. eexists. split; [exact Hcu|done].
Qed.

(** The answer of [me] for the customer a sign-up creates. *)
Definition registered_detail (n : nat) (vd : SignupData) : Dict :=
  [("id", PInt (Z.of_nat (2 + n))); ("is_active", PBool false);
   ("email_verify", PNone); ("mobile_verify", PNone); ("total_credit", PInt 0);
   ("contact", PDict [("email", opt_str (prep (sd_email' vd))); ("mobile", opt_str (prep (sd_mobile' vd)))]);
   ("people", PDict [("name", PStr ""); ("last_name", PStr ""); ("national_code", PStr (sd_national_code vd))]);
   ("email_change", PDict [("old_email", PNone); ("new_email", PNone)]);
   ("mobile_change", PDict [("old_mobile", PNone); ("new_mobile", PNone)])]%string.

(** C18. What a client registers is what its profile reads back: after a
    sign-up on a well-formed store, [GET customer/me/] by the new customer
    answers 200 with the identifier, inactive and unverified, no credit,
    the email and mobile it gave, the national code of its [People] row,
    and empty email and mobile change requests, and changes nothing. *)
Theorem signup_then_me (w : World S) i vd now :
  wf (db w) -> signup_validate is_email (db w) i = Ok vd ->
  let n := next_id (db w) in
  let '(w1, r1) := signup is_email i now w in
  r1 = Ok (mkResponse HTTP_201_CREATED (CustomerDetail (2 + n))) /\
  me (Some (2 + n)%nat) w1 = (w1, Ok (mkResponse HTTP_200_OK (JsonData (registered_detail n vd)))).
Proof.
  intros Hw Hv. cbv zeta. set (n := next_id (db w)). pose proof (signup_validate_Ok _ _ _ Hv) as [Hnc Hid].
  destruct (signup_contact_clash _ _ Hid (Datatypes.S n) (Some n)) as [He Hm].
  unfold signup. st_unfold. rewrite Hv. rewrite signup_respond_rows by done.
  destruct (signup_rows_reads (db w) vd now Hw) as (Hp & Hc & Hk & He' & Hm').
  set (d' := signup_rows (db w) vd now) in *. clearbody d'.
  split; [done|].
  change (2 + next_id (db w))%nat with (Datatypes.S (Datatypes.S n)) in Hk, He', Hm'.
  change (1 + next_id (db w))%nat with (Datatypes.S n) in Hc.
  change (next_id (db w)) with n in Hp, Hk, Hc, He', Hm'. clearbody n.
  unfold me, customer_detail, first_people, get_contact. st_unfold.
  rewrite Hk. cbn. rewrite Hc, Hp. cbn. rewrite He', Hm'. reflexivity.
Qed.

End Lemmas.

(** ** Witnesses *)

Section Witnesses.
Import Jwt.

(** Sign-ups on the store [auth_db] (next identifier 3) with the email
    [b@mail.test] and the national codes [0000000000] and [1000000001]. *)
Definition reg_input (nc : string) : SignupInput :=
  mkSignupInput (Some "b@mail.test"%string) (Some nc) None (Some "newpass99"%string) (Some true).
Definition reg_data (nc : string) : SignupData :=
  mkSignupData (Some "b@mail.test"%string) nc None "newpass99".

Lemma signup_registers_witness :
  let n := next_id (db signin_w) in
  let '(w', r) := signup accept_all (reg_input "0000000000") 0 signin_w in
  r = Ok (mkResponse HTTP_201_CREATED (CustomerDetail (2 + n))) /\
  Store.wf (db w') /\
  people (db w') !! n = Some (mkPeople "" "" "0000000000") /\
  contacts (db w') !! (1 + n)%nat = Some (mkContact (Some "b@mail.test"%string) None (Some n)) /\
  (exists cu, customers (db w') !! (2 + n)%nat = Some cu /\
     username cu = (1 + n)%nat /\ is_active cu = false /\
     email_verify cu = None /\ mobile_verify cu = None /\
     check_password "newpass99" (password cu) = true) /\
  latest_email_change (db w') (2 + n) = Ok (mkEmailChange (4 + n) (2 + n) None None 0) /\
  latest_phone_change (db w') (2 + n) = Ok (mkPhoneChange (5 + n) (2 + n) None None 0) /\
  queue w' = queue signin_w ++ [SendEmailVerification (1 + n)].
Proof.
  apply (signup_registers accept_all signin_w (reg_input "0000000000") (reg_data "0000000000") 0).
  - wf_by_computation.
  - vm_compute. reflexivity.
Defined.

Lemma signup_race_orphan_people_witness :
  let '(w1, rA) := signup_respond (reg_data "0000000000") 0 signin_w in
  let '(w2, rB) := signup_respond (reg_data "1000000001") 1 w1 in
  rA = Ok (mkResponse HTTP_201_CREATED (CustomerDetail (2 + next_id (db signin_w)))) /\
  rB = Err (IntegrityError "email") /\
  people (db w2) !! next_id (db w1) = Some (mkPeople "" "" "1000000001") /\
  contacts (db w2) = contacts (db w1) /\ customers (db w2) = customers (db w1) /\
  forall i' raw, su_national_code i' = Some raw -> Mobile.strip raw = "1000000001"%string ->
    exists fs, signup_validate accept_all (db w2) i' = Err fs /\ "national_code"%string ∈ fs.
Proof.
  apply (signup_race_orphan_people accept_all signin_w (reg_input "0000000000") (reg_input "1000000001")
           (reg_data "0000000000") (reg_data "1000000001") "b@mail.test");
    [wf_by_computation|vm_compute; reflexivity..|discriminate].
Defined.

Lemma signup_then_verify_email_witness :
  let n := next_id (db signin_w) in
  let '(w1, r1) := signup accept_all (reg_input "0000000000") 0 signin_w in
  let '(w2, r2) := run_job (SendEmailVerification (1 + n)) (seconds 1) w1 in
  let '(w3, r3) := verify_email default_config (2 + n) (Some (6 + n)%nat) (seconds 50) w2 in
  r1 = Ok (mkResponse HTTP_201_CREATED (CustomerDetail (2 + n))) /\
  r2 = Ok tt /\ outbox w2 = outbox w1 ++ [mkMail "b@mail.test" (2 + n) (6 + n)] /\
  (exists p, r3 = Ok (ok200 (TokenIssued p))) /\
  exists cu, customers (db w3) !! (2 + n)%nat = Some cu /\ is_active cu = true /\
    email_verify cu = Some (seconds 50).
Proof.
  apply (signup_then_verify_email accept_all default_config signin_w (reg_input "0000000000")
           (reg_data "0000000000") "b@mail.test" 0 (seconds 1) (seconds 50)).
  - wf_by_computation.
  - vm_compute. reflexivity.
  - reflexivity.
  - cbn. unfold seconds. lia.
Defined.

Lemma signup_then_me_witness :
  let n := next_id (db signin_w) in
  let '(w1, r1) := signup accept_all (reg_input "0000000000") 0 signin_w in
  r1 = Ok (mkResponse HTTP_201_CREATED (CustomerDetail (2 + n))) /\
  me (Some (2 + n)%nat) w1 = (w1, Ok (mkResponse HTTP_200_OK (JsonData (registered_detail n (reg_data "0000000000"))))).
Proof.
  apply (signup_then_me accept_all signin_w (reg_input "0000000000") (reg_data "0000000000") 0).
  - wf_by_computation.
  - vm_compute. reflexivity.
Defined.

End Witnesses.

End Registration.
