(* ===== verification/Hoare.v ===== *)
(** * A program logic for the handlers' world monad

    [triple P m Q] says of a computation [m] of [ST (World S) Exception]:
    run on a world that satisfies the invariant [world_ok] (the store is
    well-formed, [Store.wf]; the token service's state is, [ts_wf]; no
    failure counter of the cache exceeds [LOCKOUT_THRESHOLD]) and whose
    store satisfies [P], it leaves a world that satisfies [world_ok], a
    store that has [grows] from the old one (no contact or customer
    disappears, no customer changes its [username], the identifier
    generator only moves forward), and when it returns [a] a store that
    satisfies [Q a].  An exception ends the request with the writes made
    so far kept, so the invariant is also established on that path.

    Preconditions are predicates on the store.  A write keeps a
    precondition that is [Stable] under [grows] ([StableC] for the writes
    that leave the customers alone); reads turn what they found into such
    stable facts ([customer_at], an identifier below [next_id]).  The rules
    follow the shape of the code: [triple_bind] for [x <- m; k], one rule
    per read and per write of [Tasks], [triple_nostore] for computations
    that do not touch the store.  [tstep] applies them one step of the code
    at a time. *)

From S2P Require Import Prelude Store Session Cache Tasks Auth Verification Signin.
Import Store Session Tasks Auth Verification Signin.

Module Hoare.

(** ** Growth of the store *)

Record grows (d d' : DB) : Prop := {
  grows_contacts : forall k, is_Some (contacts d !! k) -> is_Some (contacts d' !! k);
  grows_customers : forall k cu, customers d !! k = Some cu ->
    exists cu', customers d' !! k = Some cu' /\ username cu' = username cu;
  grows_next : (next_id d <= next_id d')%nat;
}.

#[export] Instance grows_preorder : PreOrder grows.
Proof.
  split.
  - intros d. split; [done|eauto|lia].
  - intros d1 d2 d3 [C1 K1 N1] [C2 K2 N2]. split; [eauto| |lia].
    intros k cu (cu' & Hk & <-)%K1. destruct (K2 _ _ Hk) as (cu'' & ? & ?). eauto.
Qed.

(** Customer [k] exists and is bound to the contact [u]. *)
Definition customer_at (d : DB) (k u : nat) : Prop :=
  exists cu, customers d !! k = Some cu /\ username cu = u.

Lemma customer_at_is_Some d k u : customer_at d k u -> is_Some (customers d !! k).
Proof. intros (cu & -> & _). eauto. Qed.

(** A fact about the store that every write of the handlers keeps. *)
Class Stable (P : DB -> Prop) := stable : forall d d', grows d d' -> P d -> P d'.

#[export] Instance stable_True : Stable (fun _ => True).
Proof. by intros d d' _ _. Qed.
#[export] Instance stable_pure (φ : Prop) : Stable (fun _ => φ).
Proof. intros d d' _ Hφ. exact Hφ. Qed.
#[export] Instance stable_and P Q : Stable P -> Stable Q -> Stable (fun d => P d /\ Q d).
Proof. intros HP HQ d d' Hg [? ?]. split; [eapply HP|eapply HQ]; eauto. Qed.
#[export] Instance stable_customer_at k u : Stable (fun d => customer_at d k u).
Proof. intros d d' Hg (cu & Hk & <-). by apply (grows_customers _ _ Hg) in Hk. Qed.
#[export] Instance stable_below k : Stable (fun d => k < next_id d)%nat.
Proof. intros d d' Hg ?. pose proof (grows_next _ _ Hg). lia. Qed.
#[export] Instance stable_exists {A} (P : A -> DB -> Prop) :
  (forall x, Stable (P x)) -> Stable (fun d => exists x, P x d).
Proof. intros HP d d' Hg [x Hx]. exists x. by eapply HP. Qed.

(** Writes that leave the contacts and the customers as they are. *)
Lemma grows_same d d' :
  contacts d' = contacts d -> customers d' = customers d -> (next_id d <= next_id d')%nat -> grows d d'.
Proof. intros Hc Hk Hn. split; [by rewrite Hc|rewrite Hk; eauto|done]. Qed.

Lemma grows_fresh_id d : grows d (fresh_id d).2.
Proof. apply grows_same; cbn; auto. Qed.

Lemma grows_save_contact d k c d' : save_contact d k c = Ok d' -> grows d d'.
Proof.
  unfold save_contact. repeat case_match; intros [= <-]. split; cbn; [|eauto|done].
  intros j [x Hj]. destruct (decide (j = k)) as [->|]; [rewrite lookup_insert_eq|rewrite lookup_insert_ne]; eauto.
Qed.

Lemma grows_save_people d k p d' : save_people d k p = Ok d' -> grows d d'.
Proof. unfold save_people. case_match; intros [= <-]. by apply grows_same. Qed.

Lemma grows_save_customer d id cu : customer_at d id (username cu) -> grows d (save_customer d id cu).
Proof.
  intros (cu0 & Hk & Hu). split; cbn; [done| |done].
  intros j cuj Hj. destruct (decide (j = id)) as [->|]; simplify_eq.
  - rewrite lookup_insert_eq. eauto.
  - rewrite lookup_insert_ne by done. eauto.
Qed.

#[export] Hint Resolve grows_fresh_id grows_save_contact grows_save_people grows_save_customer : auth.

(** Every customer and the contact it is bound to were created before [k]
    was drawn. *)
Definition customers_below (d : DB) (k : nat) : Prop :=
  forall j cu, customers d !! j = Some cu -> (j < k /\ username cu < k)%nat.

(** A fact kept by the writes that leave the customers alone (a new
    contact or [People] row, a fresh identifier). *)
Class StableC (P : DB -> Prop) := stable_c : forall d d', grows d d' -> customers d' = customers d -> P d -> P d'.

#[export] Instance stable_c_of_stable P : Stable P -> StableC P | 10.
Proof. intros HP d d' Hg _. by apply HP. Qed.
#[export] Instance stable_c_and P Q : StableC P -> StableC Q -> StableC (fun d => P d /\ Q d).
Proof. intros HP HQ d d' Hg Hc [? ?]. split; [eapply HP|eapply HQ]; eauto. Qed.
#[export] Instance stable_c_customers_below k : StableC (fun d => customers_below d k).
Proof. intros d d' _ Hc Hb j cu Hj. rewrite Hc in Hj. eauto. Qed.
#[export] Instance stable_contact k : Stable (fun d => is_Some (contacts d !! k)).
Proof. intros d d' Hg. apply (grows_contacts _ _ Hg). Qed.

(** ** Triples *)

(** Every failure counter of the cache is at most [LOCKOUT_THRESHOLD]. *)
Definition counters_ok (c : Cache.Cache) : Prop :=
  map_Forall (fun _ ve => ve.1 <= LOCKOUT_THRESHOLD) (Cache.entries c).

Section Triple.
Context {S : Type} `{TokenService S} `{PasswordHasher}.

(** The invariant of a world: the store is well-formed, the token
    service's state is, and no failure counter exceeds the threshold. *)
Definition world_ok (w : World S) : Prop :=
  wf (db w) /\ ts_wf (tokens w) /\ counters_ok (cache w).

Definition triple {A} (P : DB -> Prop) (m : ST (World S) Exception A) (Q : A -> DB -> Prop) : Prop :=
  forall w, world_ok w -> P (db w) ->
    world_ok (m w).1 /\ grows (db w) (db (m w).1) /\ forall a, (m w).2 = Ok a -> Q a (db (m w).1).

Lemma triple_ret {A} (P : DB -> Prop) (Q : A -> DB -> Prop) a :
  (forall d, P d -> Q a d) -> triple P (mret a) Q.
Proof. intros HQ w Hw HP. split_and!; [done|reflexivity|]. intros ? [= <-]. auto. Qed.

Lemma triple_bind {A B} P (m : ST (World S) Exception A) (k : A -> ST (World S) Exception B) R Q :
  triple P m R -> (forall a, triple (R a) (k a) Q) -> triple P (m ≫= k) Q.
Proof.
  intros Hm Hk w Hw HP. destruct (Hm w Hw HP) as (Hw1 & Hg1 & HR).
  unfold mbind, ST_bind. destruct (m w) as [w1 [a|e]]; cbn in *.
  - destruct (Hk a w1 Hw1 (HR a eq_refl)) as (Hw2 & Hg2 & HQ).
    split_and!; [done|by etrans|done].
  - done.
Qed.

Lemma triple_assoc {A B C} P (m : ST (World S) Exception A) (k : A -> ST (World S) Exception B)
    (k' : B -> ST (World S) Exception C) Q :
  triple P (m ≫= fun x => k x ≫= k') Q -> triple P ((m ≫= k) ≫= k') Q.
Proof.
  intros Hm w Hw HP. specialize (Hm w Hw HP). unfold mbind, ST_bind in *.
  destruct (m w) as [w1 [a|e]]; [|done]. exact Hm.
Qed.

Lemma triple_ret_bind {A B} P a (k : A -> ST (World S) Exception B) Q :
  triple P (k a) Q -> triple P (mret a ≫= k) Q.
Proof. done. Qed.

Lemma triple_weaken {A} P P' (m : ST (World S) Exception A) Q Q' :
  triple P m Q -> (forall d, P' d -> P d) -> (forall a d, Q a d -> Q' a d) -> triple P' m Q'.
Proof.
  intros Hm HP HQ w Hw HP'. destruct (Hm w Hw (HP _ HP')) as (? & ? & HQ1). eauto.
Qed.

(** Computations that leave the store as it is and keep the rest of the
    invariant: the token service, the cache, the job queue, the outbox. *)
Lemma triple_nostore {A} P (m : ST (World S) Exception A) :
  (forall w, world_ok w -> P (db w) ->
     db (m w).1 = db w /\ ts_wf (tokens (m w).1) /\ counters_ok (cache (m w).1)) ->
  triple P m (fun _ => P).
Proof.
  intros Hm w Hw HP. destruct (Hm w Hw HP) as (Hd & Ht & Hc). rewrite Hd.
  split_and!; [|reflexivity|auto]. split_and!; [rewrite Hd; apply Hw|done|done].
Qed.

(** ... in particular those that only read or touch the queue and the
    outbox. *)
Lemma triple_nodb {A} P (m : ST (World S) Exception A) :
  (forall w, db (m w).1 = db w /\ tokens (m w).1 = tokens w /\ cache (m w).1 = cache w) ->
  triple P m (fun _ => P).
Proof.
  intros Hm. apply triple_nostore. intros w (? & ? & ?) _.
  destruct (Hm w) as (Hd & Ht & Hc). rewrite Ht, Hc. done.
Qed.

Lemma triple_query {A} P (f : DB -> result A Exception) :
  triple P (query f) (fun a d => P d /\ f d = Ok a).
Proof. intros w Hw HP. split_and!; [done|reflexivity|]. cbn. by intros a ->. Qed.

(** A write of the store only, that keeps [wf] and [grows] the store when
    its side condition holds. *)
Definition store_only {A} (m : ST (World S) Exception A) : Prop :=
  forall w, tokens (m w).1 = tokens w /\ cache (m w).1 = cache w.

Ltac store_only := intros ?w;
  unfold save_customer_st, save_contact_st, save_people_st, save_email_change_st, save_phone_change_st,
    delete_email_temps_st, delete_otp_temps_st, create_email_change_st, create_phone_change_st,
    create_email_temp_st, create_otp_temp_st, modify;
  cbn; repeat case_match; split; reflexivity.

Lemma world_ok_store {A} (m : ST (World S) Exception A) w :
  store_only m -> world_ok w -> wf (db (m w).1) -> world_ok (m w).1.
Proof. intros Hm (_ & Ht & Hc) Hw. unfold world_ok. destruct (Hm w) as [-> ->]. done. Qed.

Lemma triple_write {A} P (side : DB -> Prop) (m : ST (World S) Exception A) :
  Stable P -> (forall d, P d -> side d) -> store_only m ->
  (forall w, wf (db w) -> side (db w) -> wf (db (m w).1) /\ grows (db w) (db (m w).1)) ->
  triple P m (fun _ => P).
Proof.
  intros HS Hside Hso Hm w Hw HP. destruct (Hm w (proj1 Hw) (Hside _ HP)) as [Hw' Hg].
  split_and!; [by apply world_ok_store|done|]. intros _ _. by apply (stable _ _ Hg).
Qed.

(** *** Reads that yield stable facts *)

(** A customer that exists is bound to a contact, whose identifier was
    drawn before. *)
Lemma triple_get_customer P id :
  triple P (query (fun d => get_customer d id))
    (fun cu d => P d /\ customer_at d id (username cu) /\ username cu < next_id d)%nat.
Proof.
  intros w Hw HP. split_and!; [done|reflexivity|]. intros cu Hc. cbn in Hc.
  unfold get_customer in Hc. case_match eqn:E; simplify_eq. split_and!; [done|by eexists|].
  apply (proj1 (wf_ids _ (proj1 Hw))), (proj1 (wf_customer_contacts _ (proj1 Hw)) id cu E).
Qed.

(** A contact that exists has an identifier drawn before ([ids_below]). *)
Lemma triple_get_contact P k :
  triple P (query (fun d => get_contact d k)) (fun _ d => P d /\ k < next_id d)%nat.
Proof.
  intros w Hw HP. split_and!; [done|reflexivity|]. intros c Hc. split; [done|].
  cbn in Hc. unfold get_contact in Hc. case_match eqn:E; simplify_eq.
  apply (proj1 (wf_ids _ (proj1 Hw))). eauto.
Qed.

Lemma triple_get_owner P o :
  triple P (query (fun d => get_owner d o)) (fun _ d => P d /\ exists k, o = Some k /\ k < next_id d)%nat.
Proof.
  intros w Hw HP. split_and!; [done|reflexivity|]. intros p Hp. split; [done|].
  cbn in Hp. unfold get_owner in Hp. repeat case_match; simplify_eq.
  eexists; split; [done|]. apply (proj1 (proj2 (proj2 (wf_ids _ (proj1 Hw))))). eauto.
Qed.

Lemma triple_latest_email_change P id :
  triple P (query (fun d => latest_email_change d id)) (fun ec d => P d /\ email_change_customer ec = id).
Proof.
  eapply triple_weaken; [apply triple_query|done|]. intros ec d [HP Hl]. split; [done|].
  unfold latest_email_change in Hl. case_match eqn:E; simplify_eq.
  apply latest_elem, list_elem_of_filter in E. apply E.
Qed.

Lemma triple_latest_phone_change P id :
  triple P (query (fun d => latest_phone_change d id)) (fun pc d => P d /\ phone_change_customer pc = id).
Proof.
  eapply triple_weaken; [apply triple_query|done|]. intros pc d [HP Hl]. split; [done|].
  unfold latest_phone_change in Hl. case_match eqn:E; simplify_eq.
  apply latest_elem, list_elem_of_filter in E. apply E.
Qed.

Lemma triple_contact_customer P c :
  triple P (query (fun d => contact_customer d c)) (fun r d => P d /\ customer_at d r.1 (username r.2)).
Proof.
  eapply triple_weaken; [apply triple_query|done|]. intros [k cu] d [HP Hc]. split; [done|].
  apply contact_customer_Ok_inv in Hc as [Hk _]. by exists cu.
Qed.

(** *** Writes *)

Lemma triple_save_customer P id cu :
  Stable P -> (forall d, P d -> customer_at d id (username cu)) ->
  triple P (save_customer_st id cu) (fun _ => P).
Proof.
  intros HS Hs. eapply triple_write; [done|exact Hs|store_only|]. intros w Hw Hc. cbn.
  split; [|by apply grows_save_customer]. destruct Hc as (cu0 & ? & ?). by eapply save_customer_wf.
Qed.

(** [user.set_password(raw); user.save()] *)
Lemma triple_set_password P id cu raw :
  Stable P -> (forall d, P d -> customer_at d id (username cu)) ->
  triple P (modify (fun w => let '(cu', d) := set_password_salted (db w) cu raw in
                            with_db w (save_customer d id cu'))) (fun _ => P).
Proof.
  intros HS Hs. eapply triple_write; [done|exact Hs|store_only|]. intros w Hw Hc. cbn.
  pose proof (stable_customer_at _ _ _ _ (grows_fresh_id (db w)) Hc) as Hc'.
  split; [|etrans; [apply grows_fresh_id|by apply grows_save_customer]].
  destruct Hc' as (cu0 & ? & ?). eapply save_customer_wf; [by apply fresh_id_wf|done|done].
Qed.

(** A write that leaves the customers alone keeps every [StableC] fact. *)
Lemma triple_write_c {A} P (side : DB -> Prop) (m : ST (World S) Exception A) :
  StableC P -> (forall d, P d -> side d) -> store_only m ->
  (forall w, wf (db w) -> side (db w) ->
     wf (db (m w).1) /\ grows (db w) (db (m w).1) /\ customers (db (m w).1) = customers (db w)) ->
  triple P m (fun _ => P).
Proof.
  intros HS Hside Hso Hm w Hw HP. destruct (Hm w (proj1 Hw) (Hside _ HP)) as (Hw' & Hg & Hc).
  split_and!; [by apply world_ok_store|done|]. intros _ _. by apply (stable_c _ _ Hg Hc).
Qed.

Lemma triple_save_contact P k c :
  StableC P -> (forall d, P d -> k < next_id d)%nat ->
  triple P (save_contact_st k c) (fun _ d => P d /\ is_Some (contacts d !! k)).
Proof.
  intros HS Hs w Hw HP. unfold save_contact_st.
  destruct (save_contact (db w) k c) as [d'|e] eqn:E; cbn; [|split_and!; [done|reflexivity|done]].
  pose proof (grows_save_contact _ _ _ _ E) as Hg.
  pose proof (save_contact_wf _ _ _ _ (proj1 Hw) (Hs _ HP) E) as Hwf.
  unfold save_contact in E. repeat case_match; simplify_eq.
  split_and!; [exact (conj Hwf (proj2 Hw))|done|].
  intros _ _. split; [by apply (stable_c _ _ Hg)|cbn; rewrite lookup_insert_eq; eauto].
Qed.

Lemma triple_save_people P k p :
  StableC P -> (forall d, P d -> k < next_id d)%nat -> triple P (save_people_st k p) (fun _ => P).
Proof.
  intros HS Hs. eapply (triple_write_c _ (fun d => k < next_id d)%nat); [done|exact Hs|store_only|].
  intros w Hw Hk. unfold save_people_st.
  destruct (save_people _ _ _) eqn:E; cbn; [|split_and!; [done|reflexivity|done]].
  split_and!; [exact (save_people_wf _ _ _ _ Hw Hk E)|by eapply grows_save_people|].
  unfold save_people in E. case_match; by simplify_eq.
Qed.

(** The writes of rows that hang off a customer: [side] names the
    customer. *)
Lemma triple_row_write {A} P (cid : DB -> nat) (m : ST (World S) Exception A) :
  Stable P -> (forall d, P d -> is_Some (customers d !! cid d)) -> store_only m ->
  (forall w, wf (db w) -> is_Some (customers (db w) !! cid (db w)) ->
     wf (db (m w).1) /\ contacts (db (m w).1) = contacts (db w) /\
     customers (db (m w).1) = customers (db w) /\ (next_id (db w) <= next_id (db (m w).1))%nat) ->
  triple P m (fun _ => P).
Proof.
  intros HS Hs Hso Hm. eapply triple_write; [done|exact Hs|done|]. intros w Hw Hc.
  destruct (Hm w Hw Hc) as (? & ? & ? & ?). split; [done|by apply grows_same].
Qed.

Ltac row_write L := intros ?w ?Hw ?Hc; cbn beta in Hc;
  split_and!; [by apply L|cbn; done|cbn; done|cbn; lia].

Lemma triple_save_email_change P r :
  Stable P -> (forall d, P d -> is_Some (customers d !! email_change_customer r)) ->
  triple P (save_email_change_st r) (fun _ => P).
Proof. intros HS Hs. eapply (triple_row_write _ (fun _ => _)); [done|exact Hs|store_only|row_write save_email_change_wf]. Qed.

Lemma triple_save_phone_change P r :
  Stable P -> (forall d, P d -> is_Some (customers d !! phone_change_customer r)) ->
  triple P (save_phone_change_st r) (fun _ => P).
Proof. intros HS Hs. eapply (triple_row_write _ (fun _ => _)); [done|exact Hs|store_only|row_write save_phone_change_wf]. Qed.

Lemma triple_create_email_change P cid old new now :
  Stable P -> (forall d, P d -> is_Some (customers d !! cid)) ->
  triple P (create_email_change_st cid old new now) (fun _ => P).
Proof. intros HS Hs. eapply (triple_row_write _ (fun _ => _)); [done|exact Hs|store_only|row_write create_email_change_wf]. Qed.

Lemma triple_create_phone_change P cid old new now :
  Stable P -> (forall d, P d -> is_Some (customers d !! cid)) ->
  triple P (create_phone_change_st cid old new now) (fun _ => P).
Proof. intros HS Hs. eapply (triple_row_write _ (fun _ => _)); [done|exact Hs|store_only|row_write create_phone_change_wf]. Qed.

Lemma triple_create_email_temp P cid e now :
  Stable P -> (forall d, P d -> is_Some (customers d !! cid)) ->
  triple P (create_email_temp_st cid e now) (fun _ => P).
Proof. intros HS Hs. eapply (triple_row_write _ (fun _ => _)); [done|exact Hs|store_only|row_write create_email_temp_wf]. Qed.

Lemma triple_create_otp_temp P cid c now :
  Stable P -> (forall d, P d -> is_Some (customers d !! cid)) ->
  triple P (create_otp_temp_st cid c now) (fun _ => P).
Proof. intros HS Hs. eapply (triple_row_write _ (fun _ => _)); [done|exact Hs|store_only|row_write create_otp_temp_wf]. Qed.

Lemma triple_delete_email_temps P cid : Stable P -> triple P (delete_email_temps_st cid) (fun _ => P).
Proof.
  intros HS. eapply (triple_write _ (fun _ => True)); [done|done|store_only|]. intros w Hw _. cbn.
  split; [eauto with auth|by apply grows_same].
Qed.

Lemma triple_delete_otp_temps P cid : Stable P -> triple P (delete_otp_temps_st cid) (fun _ => P).
Proof.
  intros HS. eapply (triple_write _ (fun _ => True)); [done|done|store_only|]. intros w Hw _. cbn.
  split; [eauto with auth|by apply grows_same].
Qed.

End Triple.

(** ** Symbolic execution of a handler

    [tstep] takes one step of the code: a bind is split at its first
    operation, which is discharged by the rule of that operation; a
    [match] or an [if] of the code is split into its branches; a [mret]
    ends the branch.  [side] proves the side conditions of the writes from
    the facts the reads established. *)

Ltac side := intros ?d ?HP; cbn beta in HP;
  repeat match goal with H : _ /\ _ |- _ => destruct H | H : ex _ |- _ => destruct H end;
  simplify_eq/=; repeat match goal with H : ?x = Some _ |- context [?x] => rewrite H end; cbn;
  first [done | by eapply customer_at_is_Some | naive_solver eauto using customer_at_is_Some].

Ltac nodb := intros ?w; cbn; repeat case_match; split_and!; reflexivity.

(** Rules of the components built on this file; extended with [::=]. *)
Ltac tatom_ext := fail.

Ltac tatom :=
  first
  [ apply triple_get_customer | apply triple_get_contact | apply triple_get_owner
  | apply triple_latest_email_change | apply triple_latest_phone_change | apply triple_contact_customer
  | apply triple_save_customer; [tc_solve|side]
  | apply triple_set_password; [tc_solve|side]
  | apply triple_save_contact; [tc_solve|side]
  | apply triple_save_people; [tc_solve|side]
  | apply triple_save_email_change; [tc_solve|side]
  | apply triple_save_phone_change; [tc_solve|side]
  | apply triple_create_email_change; [tc_solve|side]
  | apply triple_create_phone_change; [tc_solve|side]
  | apply triple_create_email_temp; [tc_solve|side]
  | apply triple_create_otp_temp; [tc_solve|side]
  | apply triple_delete_email_temps; tc_solve
  | apply triple_delete_otp_temps; tc_solve
  | tatom_ext
  | apply triple_nodb; nodb ].

Ltac tstep :=
  lazymatch goal with
  | |- triple _ (mbind _ (mbind _ _)) _ => apply triple_assoc
  | |- triple _ (mbind _ (mret _)) _ => apply triple_ret_bind
  | |- triple _ (mbind _ (match ?x with _ => _ end)) _ => destruct x
  | |- triple _ (mbind _ _) _ => eapply triple_bind; [tatom|intros ?]
  | |- triple _ (mret _) _ => apply triple_ret; intros ?d ?HP; cbn beta in *; naive_solver
  | |- triple _ (match ?x with _ => _ end) _ => destruct x
  | |- triple ?P ?m ?Q =>
      eapply (triple_weaken P P m _ Q); [tatom|by intros|intros ?a ?d ?HQ; cbn beta in *; naive_solver]
  end.

End Hoare.
