(* ===== verification/System.v ===== *)
(** * The whole service as a transition system

    [handle] routes a [Request] to its handler as [urls.py] does.  The
    server state is the world and the sign-ins that have read their
    failure counter but not yet written it.  [step] is one request handled
    from start to end, the first or the second half of a sign-in, or a
    Celery worker running any job of the queue; [reachable] is its
    reflexive-transitive closure, so it covers every interleaving.

    Every handler and job is proved to keep [Hoare.world_ok] by symbolic
    execution ([tstep]); sign-up needs its own rules for fresh
    identifiers and the new customer.  Hence every reachable state of a
    server started in a good state is good ([reachable_server_ok]): among
    other facts, no failure counter of the cache exceeds
    [LOCKOUT_THRESHOLD], and every sign-in in flight has read one below
    it.

    A sign-in request carries Google's answer to the reCAPTCHA check;
    [captcha_verdict] runs [Captcha.validate_recaptcha] on it.  The
    round trip [signup_verify_signin] composes four handlers and a job:
    sign-up, the verification job, the confirmation and sign-in. *)

From S2P Require Import Prelude Validators Store Settings Captcha Session Cache Tasks Views Profile Auth Verification Signin Account Registration Hoare.
Import Store Settings Captcha Session Tasks Views Profile Auth Verification Signin Account Registration Hoare.

Module System.

(** The lemmas of a section use its token-service laws. *)
#[local] Set Default Proof Using "Type*".

Section Handlers.
Context {S : Type} `{TokenService S} `{PasswordHasher} `{!TokenServiceLaws S}.

Lemma apply_new_email_triple P cu ec :
  Stable P -> (forall d, P d -> username cu < next_id d)%nat -> triple (S:=S) P (apply_new_email cu ec) (fun _ => P).
Proof. intros HS Hu. unfold apply_new_email. repeat tstep. Qed.

Lemma apply_new_mobile_triple P cu pc :
  Stable P -> (forall d, P d -> username cu < next_id d)%nat -> triple (S:=S) P (apply_new_mobile cu pc) (fun _ => P).
Proof. intros HS Hu. unfold apply_new_mobile. repeat tstep. Qed.

(** [signin_read] reads the cache and the store only, and lets a request
    through to its write only below the threshold. *)
Lemma signin_read_triple P ip vd now :
  triple (S:=S) P (signin_read ip vd now)
    (fun r d => P d /\ forall p, r = inr p -> p_failures p < LOCKOUT_THRESHOLD).
Proof.
  intros w Hw HP. unfold signin_read. st_unfold.
  destruct (LOCKOUT_THRESHOLD <=? _) eqn:E; cbn.
  - split_and!; [done|reflexivity|]. by intros ? [= <-].
  - destruct (authenticate _ _ _ _); cbn; split_and!; try done; try reflexivity.
    intros ? [= <-]. split; [done|]. intros p [= <-]. cbn. lia.
Qed.

Lemma update_instance_triple P id instance vd now :
  Stable P -> (forall d, P d -> customer_at d id (username instance) /\ username instance < next_id d)%nat ->
  triple (S:=S) P (update_instance id instance vd now) (fun _ => P).
Proof. intros HS Hc. unfold update_instance. repeat tstep. Qed.

(** ** Sign-up: fresh identifiers and the new customer *)

(** [Model.objects.create] draws an identifier above every row. *)
Lemma triple_fresh P :
  StableC P -> triple (S:=S) P fresh_st (fun k d => P d /\ k < next_id d /\ customers_below d k)%nat.
Proof.
  intros HS w Hw HP. unfold fresh_st. cbn.
  pose proof (grows_fresh_id (db w)) as Hg. destruct Hw as (Hw & Hrest).
  split_and!; [exact (conj (fresh_id_wf _ Hw) Hrest)|done|]. intros k [= <-]. split_and!.
  - by apply (stable_c _ _ Hg).
  - cbn. lia.
  - intros j cu Hj. cbn in Hj. split.
    + apply (proj1 (proj2 (wf_ids _ Hw))). eauto.
    + apply (proj1 (wf_ids _ Hw)), (proj1 (wf_customer_contacts _ Hw) j cu Hj).
Qed.

(** [Customer.objects.create(username=contact, ...)] with its password:
    the new customer takes an identifier no customer has and a contact no
    customer is bound to. *)
Lemma triple_create_customer P (F : DB -> Prop) k cu raw :
  Stable P ->
  (forall d, P d -> F d -> k < next_id d /\ customers d !! k = None /\
     is_Some (contacts d !! username cu) /\
     forall j cu', customers d !! j = Some cu' -> username cu' <> username cu)%nat ->
  triple (S:=S) (fun d => P d /\ F d)
    (modify (fun w => let '(cu', d) := set_password_salted (db w) cu raw in
                      with_db w (save_customer d k cu')))
    (fun _ d => P d /\ customer_at d k (username cu)).
Proof.
  intros HS Hs w [Hw Hrest] [HP HF]. destruct (Hs _ HP HF) as (Hk & Hnone & Hc & Hfree). cbn.
  pose proof (grows_fresh_id (db w)) as Hg1.
  assert (Hg2 : grows (fresh_id (db w)).2
                  (save_customer (fresh_id (db w)).2 k (set_password cu (make_password (next_id (db w)) raw)))).
  { split; cbn; [done| |lia]. intros j cuj Hj. rewrite lookup_insert_ne; [eauto|congruence]. }
  split_and!.
  - split; [|exact Hrest]. apply save_customer_new_wf; cbn; [by apply fresh_id_wf|lia|done|done|done].
  - by etrans.
  - intros _ _. split; [by apply (stable _ _ (transitivity Hg1 Hg2))|].
    eexists. cbn. by rewrite lookup_insert_eq.
Qed.

(** ** The token service and the cache *)


Lemma refresh_token_triple P cid now : triple (S:=S) P (refresh_token_st cid now) (fun _ => P).
Proof.
  apply triple_nostore. intros w (Hw & Ht & Hc) _. unfold refresh_token_st.
  pose proof (for_user_wf (tokens w) cid now Ht) as Ht'.
  destruct (for_user (tokens w) cid now) as [s' p]. cbn. done.
Qed.

Lemma blacklist_refresh_triple P t now : triple (S:=S) P (blacklist_refresh t now) (fun _ => P).
Proof.
  apply triple_nostore. intros w (Hw & Ht & Hc) _. unfold blacklist_refresh.
  destruct (parse_refresh (tokens w) t now) as [t'|e] eqn:E; cbn; [|done].
  pose proof (parse_refresh_id _ _ _ _ E) as <-.
  split_and!; [done|apply (blacklist_wf _ _ now Ht)|done]. unfold accepts. by rewrite E.
Qed.

Lemma token_refresh_triple P r now : triple (S:=S) P (token_refresh r now) (fun _ => P).
Proof.
  apply triple_nostore. intros w (Hw & Ht & Hc) _. unfold token_refresh.
  destruct r as [t|]; cbn; [|done]. destruct (parse_refresh (tokens w) t now) as [t'|e]; cbn; [|done].
  pose proof (access_of_wf (tokens w) t' now Ht) as Ht'.
  destruct (access_of (tokens w) t' now) as [s' a]. done.
Qed.

(** [cache.set(key, auth_failures + 1, ...)] with a value below the
    threshold, and [cache.delete(key)]. *)
Lemma cache_set_triple P key v timeout now :
  (forall d, P d -> v <= LOCKOUT_THRESHOLD) ->
  triple (S:=S) P (modify (fun w => with_cache w (Cache.set (cache w) key v timeout now))) (fun _ => P).
Proof.
  intros Hv. apply triple_nostore. intros w (Hw & Ht & Hc) HP. cbn. split_and!; [done|done|].
  apply map_Forall_insert_2; [cbn; by apply (Hv _ HP)|done].
Qed.

Lemma cache_delete_triple P key :
  triple (S:=S) P (modify (fun w => with_cache w (Cache.delete (cache w) key))) (fun _ => P).
Proof.
  apply triple_nostore. intros w (Hw & Ht & Hc) HP. cbn. split_and!; [done|done|]. by apply map_Forall_delete.
Qed.


Lemma signup_create_triple P vd now :
  Stable P -> triple (S:=S) P (signup_create vd now) (fun _ => P).
Proof.
  intros HS. unfold signup_create.
  eapply triple_bind; [apply triple_fresh; tc_solve|intros pk].
  eapply triple_bind; [apply triple_save_people; [tc_solve|side]|intros ?].
  eapply triple_bind; [apply triple_fresh; tc_solve|intros ck].
  eapply triple_bind; [apply triple_save_contact; [tc_solve|side]|intros ?].
  eapply triple_bind; [apply triple_fresh; tc_solve|intros k].
  set (F := fun d => (k < next_id d /\ customers_below d k /\
              is_Some (contacts d !! ck) /\ customers_below d ck)%nat).
  eapply triple_bind.
  { eapply (triple_weaken (fun d => P d /\ F d)).
    - apply triple_create_customer; [done|].
      intros d HP (Hk & Hbk & Hc & Hbc). cbn. split_and!; [done| |done|].
      + destruct (customers d !! k) as [cu|] eqn:E; [|done]. apply Hbk in E. lia.
      + intros j cu' Hj. apply Hbc in Hj. lia.
    - intros d. subst F. cbn. naive_solver.
    - intros a1 d. exact id. }
  intros ?. repeat tstep.
Qed.

Ltac tatom_ext ::= first
  [ apply signin_read_triple
  | apply refresh_token_triple
  | apply blacklist_refresh_triple
  | apply cache_set_triple; intros ?d ?HP; cbn beta in HP; destruct_and? HP;
    repeat match goal with H : forall _, _ = _ -> _ |- _ => specialize (H _ eq_refl) end; lia
  | apply cache_delete_triple
  | apply signup_create_triple; tc_solve
  | apply update_instance_triple; [tc_solve|side]
  | apply apply_new_email_triple; [tc_solve|side]
  | apply apply_new_mobile_triple; [tc_solve|side] ].

Lemma verify_email_triple cfg id tid now :
  triple (S:=S) (fun _ => True) (verify_email cfg id tid now) (fun _ _ => True).
Proof. unfold verify_email. repeat tstep. Qed.

Lemma resend_email_triple cfg id now :
  triple (S:=S) (fun _ => True) (resend_email cfg id now) (fun _ _ => True).
Proof. unfold resend_email. repeat tstep. Qed.

Lemma change_email_triple cfg is_email id input now :
  triple (S:=S) (fun _ => True) (change_email cfg is_email id input now) (fun _ _ => True).
Proof. unfold change_email. repeat tstep. Qed.

Lemma verify_mobile_triple cfg id code now :
  triple (S:=S) (fun _ => True) (verify_mobile cfg id code now) (fun _ _ => True).
Proof. unfold verify_mobile. repeat tstep. Qed.

Lemma resend_mobile_code_triple cfg id now :
  triple (S:=S) (fun _ => True) (resend_mobile_code cfg id now) (fun _ _ => True).
Proof. unfold resend_mobile_code. repeat tstep. Qed.

Lemma change_mobile_triple id input now :
  triple (S:=S) (fun _ => True) (change_mobile id input now) (fun _ _ => True).
Proof. unfold change_mobile. repeat tstep. Qed.

Lemma send_email_verification_triple c now :
  triple (S:=S) (fun _ => True) (send_email_verification c now) (fun _ _ => True).
Proof. unfold send_email_verification. repeat tstep. Qed.

Lemma send_mobile_verification_code_triple c now :
  triple (S:=S) (fun _ => True) (send_mobile_verification_code c now) (fun _ _ => True).
Proof. unfold send_mobile_verification_code. repeat tstep. Qed.

Lemma signin_triple cfg is_email captcha_ok ip i now :
  triple (S:=S) (fun _ => True) (signin cfg is_email captcha_ok ip i now) (fun _ _ => True).
Proof. unfold signin, signin_write. repeat tstep. Qed.

Lemma signout_triple u r now :
  triple (S:=S) (fun _ => True) (signout u r now) (fun _ _ => True).
Proof. unfold signout. repeat tstep. Qed.

Lemma change_password_triple u id input now :
  triple (S:=S) (fun _ => True) (change_password u id input now) (fun _ _ => True).
Proof. unfold change_password. repeat tstep. Qed.


Lemma update_triple is_email u id input now :
  triple (S:=S) (fun _ => True) (update is_email u id input now) (fun _ _ => True).
Proof. unfold update. repeat tstep. Qed.

Lemma signup_triple is_email i now :
  triple (S:=S) (fun _ => True) (signup is_email i now) (fun _ _ => True).
Proof. unfold signup, signup_respond. repeat tstep. Qed.

Lemma info_triple now : triple (S:=S) (fun _ => True) (info now) (fun _ _ => True).
Proof. unfold info. repeat tstep. Qed.

Lemma config_triple all public u :
  triple (S:=S) (fun _ => True) (config all public u) (fun _ _ => True).
Proof. unfold config. repeat tstep. Qed.

Lemma me_triple u : triple (S:=S) (fun _ => True) (me u) (fun _ _ => True).
Proof. unfold me. repeat tstep. Qed.

Lemma customer_list_triple u host ps p :
  triple (S:=S) (fun _ => True) (customer_list u host ps p) (fun _ _ => True).
Proof. unfold customer_list. repeat tstep. Qed.

Lemma signin_write_triple p now :
  p_failures p < LOCKOUT_THRESHOLD -> triple (S:=S) (fun _ => True) (signin_write p now) (fun _ _ => True).
Proof. intros Hp. unfold signin_write. repeat tstep. Qed.

End Handlers.

(** ** Requests, jobs and the server *)

(** A request to one of the endpoints of [urls.py], with what its handler
    takes from the HTTP request besides the body: the authenticated user
    ([IsAuthenticated]), [REMOTE_ADDR], and Google's answer to the
    reCAPTCHA check the sign-in makes. *)
Inductive Request :=
  | RSignup (i : SignupInput)
  | RSignin (google : PyValue -> Dict -> PostResult) (source_ip : option string) (i : SigninInput)
  | RSignout (requester : option nat) (refresh : option Token)
  | RChangePassword (requester : option nat) (id : nat) (i : ChangePasswordInput)
  | RTokenRefresh (refresh : option Token)
  | RUpdate (requester : option nat) (id : nat) (i : UpdateInput)
  | RVerifyEmail (id : nat) (temp_id : option nat)
  | RResendEmail (id : nat)
  | RChangeEmail (id : nat) (email : option string)
  | RVerifyMobile (id : nat) (code : option Z)
  | RResendMobileCode (id : nat)
  | RChangeMobile (id : nat) (mobile : option string)
  | RInfo
  | RConfig (requester : option nat)
  | RMe (requester : option nat)
  | RList (requester : option nat) (host : string) (page_size : QueryInt) (page : PageArg).

Section Server.
Context {S : Type} `{TokenService S} `{PasswordHasher}.
Context (cfg : Config) (is_email : string -> bool).

(** [utils.validate_recaptcha(serializer.validated_data["recaptcha"])]:
    [signin] asks for it only on valid data with reCAPTCHA enabled, when the
    token is present and the deployed settings make the function total
    ([Captcha.validate_recaptcha_deployed]). *)
Definition captcha_verdict (google : PyValue -> Dict -> PostResult) (i : SigninInput) : bool :=
  match validate_signin cfg is_email i with
  | Ok vd =>
      match validate_recaptcha AUTHENTICATION_CUSTOMER google (default "" (sd_recaptcha vd)) with
      | Ok b => b
      | Err _ => false
      end
  | Err _ => false
  end.

(** The handler [urls.py] routes a request to. *)
Definition handle (r : Request) (now : Time) : ST (World S) Exception Response :=
  match r with
  | RSignup i => signup is_email i now
  | RSignin g ip i => signin cfg is_email (captcha_verdict g i) ip i now
  | RSignout u t => signout u t now
  | RChangePassword u id i => change_password u id i now
  | RTokenRefresh t => token_refresh t now
  | RUpdate u id i => update is_email u id i now
  | RVerifyEmail id t => verify_email cfg id t now
  | RResendEmail id => resend_email cfg id now
  | RChangeEmail id e => change_email cfg is_email id e now
  | RVerifyMobile id c => verify_mobile cfg id c now
  | RResendMobileCode id => resend_mobile_code cfg id now
  | RChangeMobile id m => change_mobile id m now
  | RInfo => info now
  | RConfig u => config AUTHENTICATION_CUSTOMER PUBLIC_APP_SETTING u
  | RMe u => me u
  | RList u host ps p => customer_list u host ps p
  end.

(** The shared state and the sign-in requests that have read the failure
    counter and checked the password but not yet written the counter. *)
Record Server := mkServer { world : World S; inflight : list Pending }.

(** One step of the deployment: a request handled from start to end; the
    first half of a sign-in; the second half of any sign-in in flight; a
    Celery worker taking any job of the queue.  Any interleaving of these
    is a run of the server. *)
Inductive step : Server -> Server -> Prop :=
  | step_request r now s :
      step s (mkServer (handle r now (world s)).1 (inflight s))
  | step_signin_read google ip i vd now s w' p :
      validate_signin cfg is_email i = Ok vd ->
      recaptcha_enabled cfg && negb (captcha_verdict google i) = false ->
      signin_read ip vd now (world s) = (w', Ok (inr p)) ->
      step s (mkServer w' (p :: inflight s))
  | step_signin_write l1 p l2 now s :
      inflight s = l1 ++ p :: l2 ->
      step s (mkServer (signin_write p now (world s)).1 (l1 ++ l2))
  | step_job q1 j q2 now s :
      queue (world s) = q1 ++ j :: q2 ->
      step s (mkServer (run_job j now (with_queue (world s) (q1 ++ q2))).1 (inflight s)).

Definition reachable (s0 s : Server) : Prop := rtc step s0 s.

(** The invariant of the server. *)
Definition server_ok (s : Server) : Prop :=
  world_ok (world s) /\ Forall (fun p => p_failures p < LOCKOUT_THRESHOLD) (inflight s).

End Server.

(** ** The invariant of every run *)

Section Invariant.
Context {S : Type} `{TokenService S} `{PasswordHasher} `{!TokenServiceLaws S}.
Context (cfg : Config) (is_email : string -> bool).

Lemma handle_triple r now :
  triple (fun _ => True) (handle (S:=S) cfg is_email r now) (fun _ _ => True).
Proof.
  destruct r; cbn;
    [ apply signup_triple | apply signin_triple | apply signout_triple
    | apply change_password_triple | apply token_refresh_triple | apply update_triple
    | apply verify_email_triple | apply resend_email_triple | apply change_email_triple
    | apply verify_mobile_triple | apply resend_mobile_code_triple | apply change_mobile_triple
    | apply info_triple | apply config_triple | apply me_triple | apply customer_list_triple ].
Qed.

Lemma run_job_triple j now : triple (S:=S) (fun _ => True) (run_job j now) (fun _ _ => True).
Proof. destruct j; [apply send_email_verification_triple|apply send_mobile_verification_code_triple]. Qed.

Lemma triple_run {A} (m : ST (World S) Exception A) w :
  triple (fun _ => True) m (fun _ _ => True) -> world_ok w -> world_ok (m w).1.
Proof. intros Hm Hw. apply (Hm w Hw I). Qed.

Lemma step_ok s s' : step cfg is_email s s' -> server_ok s -> server_ok s'.
Proof.
  destruct 1 as [r now s|c ip i vd now s w' p Hv Hc Hr|l1 p l2 now s Hs|q1 j q2 now s Hq];
    intros [Hw Hf]; cbn.
  - split; [|done]. apply triple_run; [apply handle_triple|done].
  - destruct (signin_read_triple (fun _ => True) ip vd now (world s) Hw I) as (Hw' & _ & Hp).
    rewrite Hr in Hw', Hp. split; [done|]. constructor; [|done]. by apply (proj2 (Hp _ eq_refl)).
  - rewrite Hs in Hf. apply Forall_app in Hf as [Hf1 Hf2]. apply Forall_cons in Hf2 as [Hp Hf2].
    split; [|by apply Forall_app]. apply triple_run; [by apply signin_write_triple|done].
  - split; [|done]. apply triple_run; [apply run_job_triple|exact Hw].
Qed.

(** C1. Whatever requests arrive, in whatever order, and however the two
    halves of concurrent sign-ins and the Celery jobs interleave with
    them, every state the server reaches from a good one is good: the
    store keeps its unique indexes, its one-to-one customer-contact
    binding, its unique national codes, its identifiers below the
    generator and its foreign keys ([Store.wf]); the token service's state
    is well-formed; and no failure counter exceeds [LOCKOUT_THRESHOLD]. *)
Theorem reachable_server_ok s0 s :
  server_ok s0 -> reachable cfg is_email s0 s -> server_ok s.
Proof. intros Hs0 Hr. induction Hr as [|s1 s2 s3 Hs _ IH]; [done|]. by apply IH, (step_ok s1). Qed.

End Invariant.

(** ** reCAPTCHA refusals *)

Section Progress.
Context {S : Type} `{TokenService S} `{PasswordHasher}.
Context (cfg : Config) (is_email : string -> bool).

(** C33. With reCAPTCHA enabled, a sign-in with valid data is answered
    401 "Wrong Captcha." and changes nothing (no counter, no token)
    whenever Google cannot be reached or does not answer a true
    ["success"]. *)
Theorem signin_captcha_refused (w : World S) google ip i vd now :
  recaptcha_enabled cfg = true -> validate_signin cfg is_email i = Ok vd ->
  (forall url data, refuses (google url data)) ->
  handle cfg is_email (RSignin google ip i) now w = (w, Ok (unauthorized WrongCaptcha)).
Proof.
  intros He Hv Hg. cbn [handle].
  assert (Hc : captcha_verdict cfg is_email google i = false).
  { unfold captcha_verdict. rewrite Hv.
    destruct (validate_recaptcha _ _ _) as [[]|] eqn:E; [|done|done].
    by apply validate_recaptcha_refuses in E. }
  unfold signin. by rewrite Hv, He, Hc.
Qed.

End Progress.

(** ** Sign-up, verification and sign-in compose *)

Section RoundTrip.
Context {S : Type} `{TokenService S} `{PasswordHasher} `{!TokenServiceLaws S} `{!PasswordHasherLaws}.
Context (cfg : Config) (is_email : string -> bool).

(** A sign-in with the email of a contact and the password of its
    customer, below the threshold. *)
Lemma signin_known_customer (w : World S) google ip si e pw t cid c k cu :
  Store.wf (db w) -> recaptcha_enabled cfg = false ->
  validate_signin cfg is_email si = Ok (mkSigninData (Some e) None pw None) -> e <> ""%string ->
  counter (cache w) (auth_failure_key e ip) t < LOCKOUT_THRESHOLD ->
  contacts (db w) !! cid = Some c -> Store.email c = Some e ->
  customers (db w) !! k = Some cu -> username cu = cid -> check_password pw (password cu) = true ->
  (handle cfg is_email (RSignin google ip si) t w).2 =
    Ok (if is_active cu then ok200 (TokenIssued (for_user (tokens w) k t).2)
        else unauthorized CustomerAccountDisabled).
Proof.
  intros Hw Hr Hs Hne Hn Hc Hce Hk Hun Hpw. cbn [handle].
  rewrite (signin_unfold cfg is_email w _ ip si _ t) by (done || by left).
  assert (Ha : authenticate (Some e) None pw (db w) = Ok (Some (k, cu))).
  { unfold authenticate. rewrite prep_nonempty by done.
    rewrite (authenticate_by_found _ _ _ _ cid c k cu); [by rewrite Hpw|done|by apply unique_field_email|done..]. }
  rewrite ST_bind_Ok with (s' := w) (a := inr _)
    by (apply signin_read_open; [unfold login_username; cbn [sd_email]; by rewrite prep_nonempty|exact Ha]).
  cbn. destruct (is_active cu); unfold refresh_token_st; st_unfold; [by destruct (for_user _ _ _)|done].
Qed.

(** C31. Registration round trip: a client that signs up with an email
    and later signs in with that email and password is refused as
    disabled before it follows the link the job mails, and is issued a
    token pair once it has confirmed the link within
    [EMAIL_VERIFICATION_EXPIRE_TIME]. *)
Theorem signup_verify_signin (w : World S) i vd e now t1 t2 t3 google ip si :
  world_ok w -> recaptcha_enabled cfg = false ->
  signup_validate is_email (db w) i = Ok vd -> sd_email' vd = Some e ->
  t2 - t1 <= email_verification_expire_time cfg ->
  validate_signin cfg is_email si = Ok (mkSigninData (Some e) None (sd_password' vd) None) ->
  counter (cache w) (auth_failure_key e ip) t3 < LOCKOUT_THRESHOLD ->
  let n := next_id (db w) in
  let '(w1, r1) := handle cfg is_email (RSignup i) now w in
  let '(w2, _) := run_job (SendEmailVerification (1 + n)) t1 w1 in
  let '(w3, _) := handle cfg is_email (RVerifyEmail (2 + n) (Some (6 + n)%nat)) t2 w2 in
  r1 = Ok (mkResponse HTTP_201_CREATED (CustomerDetail (2 + n))) /\
  (handle cfg is_email (RSignin google ip si) t3 w1).2 = Ok (unauthorized CustomerAccountDisabled) /\
  exists p, (handle cfg is_email (RSignin google ip si) t3 w3).2 = Ok (ok200 (TokenIssued p)).
Proof.
  intros Hw Hr Hv He Ht Hs Hn. cbv zeta.
  destruct (signup_verify_run is_email cfg w i vd e now t1 t2 (proj1 Hw) Hv He Ht)
    as (w1 & w2 & w3 & p & E1 & E2 & _ & E3 & Hne & _ & Hc1 & Hc3 & Hk1 & Hk3 &
        cu & Hcu1 & Hcu3 & Hun & Hia & Hpw).
  pose proof (triple_run _ w (signup_triple is_email i now) Hw) as W1. rewrite E1 in W1.
  pose proof (triple_run _ w1 (run_job_triple (SendEmailVerification (1 + next_id (db w))) t1) W1) as W2. rewrite E2 in W2.
  pose proof (triple_run _ w2 (verify_email_triple cfg (2 + next_id (db w)) (Some (6 + next_id (db w))%nat) t2) W2)
    as W3. rewrite E3 in W3.
  change (handle cfg is_email (RSignup i) now w) with (signup is_email i now w).
  rewrite E1. cbv beta iota. rewrite E2. cbv beta iota.
  change (handle cfg is_email (RVerifyEmail (2 + next_id (db w)) (Some (6 + next_id (db w))%nat)) t2 w2)
    with (verify_email cfg (2 + next_id (db w)) (Some (6 + next_id (db w))%nat) t2 w2).
  rewrite E3. cbv beta iota.
  assert (Hpw' : check_password (sd_password' vd) (password cu) = true) by (rewrite Hpw; apply check_make).
  split_and!; [done| |eexists].
  - rewrite (signin_known_customer w1 google ip si e (sd_password' vd) t3 _ _ _ cu (proj1 W1) Hr Hs Hne)
      by (rewrite ?Hc1; done). by rewrite Hia.
  - by rewrite (signin_known_customer w3 google ip si e (sd_password' vd) t3 _ _ _ _ (proj1 W3) Hr Hs Hne)
      by (rewrite ?Hc3; cbn; done).
Qed.

End RoundTrip.

(** ** Witnesses *)

Section Witnesses.
Import Jwt.

Definition empty_db : DB := mkDB ∅ ∅ ∅ [] [] [] [] 0.

(** A fresh deployment: empty tables, no token, empty cache and queue. *)
Definition boot : Server := mkServer (mkWorld empty_db (mkState [] [] ∅ 0) Cache.empty [] []) [].

(** The store of [Auth] with no request in flight. *)
Definition auth_server : Server := mkServer signin_w [].

Lemma jwt_empty_ok (d : DB) : Store.wf d -> server_ok (mkServer (mkWorld d (mkState [] [] ∅ 0) Cache.empty [] []) []).
Proof.
  intros Hd. split; [|constructor]. split_and!; [done| |apply map_Forall_empty].
  split; cbn; [intros t Ht; inversion Ht|intros j Hj; set_solver].
Qed.

Definition after_signup : Server :=
  mkServer (handle default_config accept_all (RSignup (reg_input "0000000000")) 0 (world boot)).1 [].

Lemma reachable_server_ok_witness : server_ok after_signup.
Proof.
  apply (reachable_server_ok default_config accept_all boot after_signup).
  - apply jwt_empty_ok. wf_by_computation.
  - apply rtc_once, (step_request default_config accept_all (RSignup (reg_input "0000000000")) 0 boot).
Defined.

(** Two sign-ins with a wrong password for one key read the counter before
    either writes; then both write. *)

(** reCAPTCHA enabled; Google answers [{"success": false}]. *)
Definition captcha_cfg : Config := mkConfig true (seconds 100) 3 (seconds 100) (seconds 100).
Definition google_no : PyValue -> Dict -> PostResult := fun _ _ => Posted [("success", PBool false)]%string.
Definition captcha_input : SigninInput :=
  mkSigninInput (Some "a@mail.test"%string) None (Some "secret1"%string) (Some "token"%string).

Lemma signin_captcha_refused_witness :
  handle captcha_cfg accept_all (RSignin google_no signin_ip captcha_input) 0 signin_w =
  (signin_w, Ok (unauthorized WrongCaptcha)).
Proof.
  apply (signin_captcha_refused captcha_cfg accept_all signin_w google_no signin_ip captcha_input
           (mkSigninData (Some "a@mail.test"%string) None "secret1" (Some "token"%string)));
    [reflexivity|vm_compute; reflexivity|intros ? ?; reflexivity].
Defined.

(** The customer [b@mail.test] of [Registration]'s witnesses signs in. *)
Definition b_signin : SigninInput :=
  mkSigninInput (Some "b@mail.test"%string) None (Some "newpass99"%string) None.

Lemma signup_verify_signin_witness :
  let n := next_id (db signin_w) in
  let '(w1, r1) := handle default_config accept_all (RSignup (reg_input "0000000000")) 0 signin_w in
  let '(w2, _) := run_job (SendEmailVerification (1 + n)) (seconds 1) w1 in
  let '(w3, _) := handle default_config accept_all (RVerifyEmail (2 + n) (Some (6 + n)%nat)) (seconds 50) w2 in
  r1 = Ok (mkResponse HTTP_201_CREATED (CustomerDetail (2 + n))) /\
  (handle default_config accept_all (RSignin google_no signin_ip b_signin) (seconds 60) w1).2 =
    Ok (unauthorized CustomerAccountDisabled) /\
  exists p, (handle default_config accept_all (RSignin google_no signin_ip b_signin) (seconds 60) w3).2 =
    Ok (ok200 (TokenIssued p)).
Proof.
  apply (signup_verify_signin default_config accept_all signin_w (reg_input "0000000000")
           (reg_data "0000000000") "b@mail.test" 0 (seconds 1) (seconds 50) (seconds 60)
           google_no signin_ip b_signin).
  - exact (proj1 (jwt_empty_ok auth_db ltac:(wf_by_computation))).
  - reflexivity.
  - vm_compute. reflexivity.
  - reflexivity.
  - cbn. unfold seconds. lia.
  - vm_compute. reflexivity.
  - vm_compute. reflexivity.
Defined.

End Witnesses.

End System.
